(** * The Qobuz internet service of Clementine: a shallow embedding

    The development follows [src/internet/qobuzservice.cpp],
    [src/internet/qobuzurlhandler.cpp] and
    [src/globalsearch/qobuzsearchprovider.cpp].  C++ [int] values are
    integers of [Z] with the wrap-around written where the code
    converts or increments; Qt containers are stdpp maps, sets and
    lists; member functions thread the program state explicitly. *)

From Stdlib Require Import ZArith String Ascii List Lia.
From stdpp Require Import base option list gmap strings pretty.

Set Warnings "-register-all".

Open Scope string_scope.
Open Scope list_scope.
Open Scope Z_scope.

(** ** Qt values *)

Module Qt.

(** Conversions between the integer types of the code. *)
Definition to_int (z : Z) : Z := (z + 2 ^ 31) mod 2 ^ 32 - 2 ^ 31.
Definition to_uint (z : Z) : Z := z mod 2 ^ 32.
Definition to_qint64 (z : Z) : Z := (z + 2 ^ 63) mod 2 ^ 64 - 2 ^ 63.
Definition to_quint64 (z : Z) : Z := z mod 2 ^ 64.

(** [QString::number(n)] for an integer: its decimal digits, with a
    minus sign for a negative one. *)
Definition QString_number (n : Z) : string := pretty n.

Definition ascii_toLower (c : ascii) : ascii :=
  let n := nat_of_ascii c in
  if (65 <=? n)%nat && (n <=? 90)%nat then ascii_of_nat (n + 32) else c.

Fixpoint QString_toLower (s : string) : string :=
  match s with
  | EmptyString => EmptyString
  | String c r => String (ascii_toLower c) (QString_toLower r)
  end.

Definition QString_isEmpty (s : string) : bool :=
  match s with EmptyString => true | _ => false end.

(** [QString::replace(before, after)] for a one-character [before] and
    an empty [after], the only use the service makes of it. *)
Fixpoint QString_remove_char (c : ascii) (s : string) : string :=
  match s with
  | EmptyString => EmptyString
  | String d r =>
      if Ascii.eqb c d then QString_remove_char c r
      else String d (QString_remove_char c r)
  end.

(** [QList<T>::at(i)]: defined for [0 <= i < size()] only. *)
Definition QList_at {A} (l : list A) (i : Z) : option A :=
  if (0 <=? i) && (i <? Z.of_nat (length l)) then l !! Z.to_nat i else None.

(** What the platform provides and the sources do not define: number
    parsing of [QString], the calendar of [QDateTime] in the local time
    zone, the MD5 digest in lower-case hexadecimal, the constant of
    [core/timeconstants.h] and [SearchProvider::TokenizeQuery]. *)
Class Platform := {
  QString_toLongLong : string -> option Z;
  QString_toULongLong : string -> option Z;
  QDateTime_year_of_time_t : Z -> Z;
  Md5_toHex : string -> string;
  kNsecPerSec : Z;
  TokenizeQuery : string -> list string
}.

(** A [QVariant] as the JSON parser produces it: [null] is the invalid
    variant, numbers are the integers of the Qobuz payloads (fractional
    numbers are left out of the model), objects keep their members in a
    list whose first binding of a key is the one [operator[]] returns. *)
Inductive QVariant : Type :=
| VInvalid
| VBool (b : bool)
| VInt (z : Z)
| VString (s : string)
| VList (l : list QVariant)
| VMap (m : list (string * QVariant)).

Abbreviation QVariantMap := (list (string * QVariant)).
Abbreviation QVariantList := (list QVariant).

Fixpoint value (m : QVariantMap) (k : string) : QVariant :=
  match m with
  | [] => VInvalid
  | (k', v) :: r => if String.eqb k' k then v else value r k
  end.

Definition isEmpty (m : QVariantMap) : bool :=
  match m with [] => true | _ => false end.

Definition isValid (v : QVariant) : bool :=
  match v with VInvalid => false | _ => true end.

Definition toMap (v : QVariant) : QVariantMap :=
  match v with VMap m => m | _ => [] end.

Definition toList (v : QVariant) : QVariantList :=
  match v with VList l => l | _ => [] end.

Definition toBool (v : QVariant) : bool :=
  match v with
  | VBool b => b
  | VInt z => negb (z =? 0)
  | VString s =>
      let l := QString_toLower s in
      negb (String.eqb l "0" || String.eqb l "false" || QString_isEmpty l)
  | _ => false
  end.

Definition toString (v : QVariant) : string :=
  match v with
  | VBool b => if b then "true" else "false"
  | VInt z => QString_number z
  | VString s => s
  | _ => ""
  end.

Section Numbers.
Context `{Platform}.

Definition toLongLong (v : QVariant) : Z :=
  match v with
  | VBool b => if b then 1 else 0
  | VInt z => to_qint64 z
  | VString s => default 0 (QString_toLongLong s)
  | _ => 0
  end.

Definition toULongLong (v : QVariant) : Z :=
  match v with
  | VBool b => if b then 1 else 0
  | VInt z => to_quint64 z
  | VString s => default 0 (QString_toULongLong s)
  | _ => 0
  end.

Definition toInt (v : QVariant) : Z := to_int (toLongLong v).

(** [QString::toInt]: zero when the text is no number of the [int] range. *)
Definition QString_toInt (s : string) : Z :=
  match QString_toLongLong s with
  | Some z => if (- 2 ^ 31 <=? z) && (z <? 2 ^ 31) then z else 0
  | None => 0
  end.
End Numbers.

(** [QVariant::toUrl], as the text the [QUrl] is built from. *)
Definition toUrl (v : QVariant) : string :=
  match v with VString s => s | _ => "" end.

Record QUrl := { scheme : string; path : string }.

End Qt.
Import Qt.

(** ** Songs *)

Record Song := {
  url : QUrl;
  artist : string;
  title : string;
  length_nanosec : Z;
  playcount : Z;
  album : string;
  genre : string;
  art_automatic : string;
  albumartist : string;
  year : Z;
  is_valid : bool
}.

Abbreviation SongList := (list Song).

(** Modelled from the spec: the constructor [Song()] of [core/song.h] is
    outside these sources; the record it builds is the invalid one, and
    the fields the service never reads back are given the empty value. *)
Definition Song_default : Song :=
  {| url := {| scheme := ""; path := "" |};
     artist := ""; title := ""; length_nanosec := -1; playcount := 0;
     album := ""; genre := ""; art_automatic := ""; albumartist := "";
     year := -1; is_valid := false |}.

Section Extract.
Context `{Platform}.

(** [QobuzService::ExtractSong] *)
Definition ExtractSong (result_song : QVariantMap) : Song :=
  if negb (isEmpty result_song) && toBool (value result_song "streamable") then
    let result_album := toMap (value result_song "album") in
    {| url := {| scheme := "qobuz";
                 path := toString (value result_song "id") |};
       artist := toString (value (toMap (value result_song "performer")) "name");
       title := toString (value result_song "title");
       length_nanosec :=
         to_qint64 (to_quint64 (toULongLong (value result_song "duration")
                                * kNsecPerSec));
       playcount := toInt (value result_song "track_number");
       album := toString (value result_album "title");
       genre := toString (value (toMap (value result_album "genre")) "name");
       art_automatic :=
         toString (value (toMap (value result_album "image")) "large");
       albumartist :=
         toString (value (toMap (value (toMap (value result_song "album"))
                                   "artist")) "name");
       year := QDateTime_year_of_time_t
                 (to_uint (toInt (value result_album "released_at")));
       is_valid := true |}
  else Song_default.

(** [QobuzService::ExtractSongs] *)
Definition ExtractSongs (result : QVariant) : SongList :=
  let items := toList (value (toMap result) "items") in
  fold_left
    (fun songs item =>
       let song := ExtractSong (toMap item) in
       if is_valid song then songs ++ [song] else songs)
    items [].
End Extract.

(** [QobuzService::ExtractSongIdFromUrl] *)
Definition ExtractSongIdFromUrl `{Platform} (u : QUrl) : Z :=
  QString_toInt (path u).

(** [QobuzService::SongsIdsToStringParameter]: the loop runs [i] over
    [0 .. length - 2]; the access after it reads [songs.at(i)] with the
    [i] the loop stopped at.  [None] is an access outside the list. *)
Definition SongsIdsToStringParameter_loop (songs : list Z) (n : nat)
  : option string :=
  fold_left
    (fun acc i =>
       s ← acc;
       x ← QList_at songs (Z.of_nat i);
       Some (s +:+ QString_number x +:+ ","))
    (seq 0 n) (Some "").

Definition SongsIdsToStringParameter_last_index (songs : list Z) : Z :=
  Z.of_nat (length (seq 0 (Z.to_nat (Z.of_nat (length songs) - 1)))).

Definition SongsIdsToStringParameter (songs : list Z) : option string :=
  let n := Z.to_nat (Z.of_nat (length songs) - 1) in
  s ← SongsIdsToStringParameter_loop songs n;
  x ← QList_at songs (SongsIdsToStringParameter_last_index songs);
  Some (s +:+ QString_number x).

(** ** The program state *)

Definition NONE : Z := 0.
Definition MP3 : Z := 5.
Definition FLAC : Z := 6.

Definition NO_ERROR : Z := 200.
Definition UNAUTHORIZED : Z := 401.

Definition kSongSearchLimit : Z := 100.
Definition kSongSimpleSearchLimit : Z := 30.

Definition kAppId : string := "".
Definition kAppSecret : string := "".
Definition kBaseUrl : string := "http://www.qobuz.com/api.json/0.2".
Definition kAuthTokenUrl : string := "/user/login".
Definition kUserPlaylists : string := "/playlist/getUserPlaylists".
Definition kFeaturedPlaylists : string := "/playlist/getFeatured".
Definition kGetPlaylist : string := "/playlist/get".
Definition kUpdatePlaylist : string := "/playlist/update".
Definition kUserFavorites : string := "/favorite/getUserFavorites".
Definition kUserAddFavorite : string := "/favorite/create".
Definition kUserDeleteFavorite : string := "/favorite/delete".
Definition kSearch : string := "/catalog/search".
Definition kSteamUrl : string := "/track/getFileUrl".

Abbreviation Param := (string * string)%type.

(** A [QStandardItem*] is the number of the item in the store of the
    model; [nullptr] is [None].  A row of an item holds a child item or
    the item [CreateSongItem] builds for a song. *)
Inductive Row :=
| RowItem (item : nat)
| RowSong (song : Song).

Record QStandardItem := { item_text : string; item_rows : list Row }.

Record PlaylistInfo := {
  id_ : Z;
  name_ : string;
  item_ : option nat;
  songs_ids_ : list Z
}.

(** Modelled from the spec: [SearchProvider::PendingState] and
    [SearchProvider::Result] are declared in [globalsearch/searchprovider.h],
    outside these sources; the pending caller context is the caller's
    request id with the query's tokens. *)
Record PendingState := { orig_id_ : Z; tokens_ : list string }.

Record Result := { metadata_ : Song }.

Abbreviation ResultList := (list Result).

Record QobuzSearchProvider := { pending_searches_ : gmap Z PendingState }.

(** A request handed to [network_->get], and a reply once it finished:
    its HTTP status attribute as [toInt()] reads it and what
    [QJson::Parser] reads from its body (the invalid variant when the
    body does not parse). *)
Record Request := {
  request_url : string;
  query_items : list Param;
  raw_headers : list (string * string)
}.

Record QNetworkReply := {
  reply_handle : nat;
  HttpStatusCodeAttribute : Z;
  parsed_body : QVariant
}.

(** The slot a [NewClosure] call binds to the [finished()] signal of a
    reply, with the arguments it captured. *)
Inductive Slot :=
| Slot_ConnectFinished
| Slot_UserFavoritesRetrieved
| Slot_FeaturedPlaylistsRetrieved
| Slot_UserPlaylistsRetrieved
| Slot_SearchFinished
| Slot_SimpleSearchFinished (id : Z)
| Slot_PlaylistRetrieved (playlist_id request_id : Z)
| Slot_UserFavoriteSongAdded (task_id : Z)
| Slot_SongsRemovedFromFavorites (task_id : Z)
| Slot_PlaylistSongsSet (playlist_id task_id : Z).

Inductive Signal :=
| SimpleSearchResults (id : Z) (songs : SongList)
| Connected
| ReplyError (status_code : Z)
| NotPremium
| PlaylistRetrieved
| TasksChanged
| ResultsAvailable (id : Z) (results : ResultList)
| SearchFinished (id : Z)
| finished (reply : nat).

(** What a nested event loop waits for. *)
Inductive SignalName :=
| SIGNAL_TasksChanged
| SIGNAL_PlaylistRetrieved
| SIGNAL_finished (reply : nat).

Definition is_signal (n : SignalName) (s : Signal) : bool :=
  match n, s with
  | SIGNAL_TasksChanged, TasksChanged => true
  | SIGNAL_PlaylistRetrieved, PlaylistRetrieved => true
  | SIGNAL_finished r, finished r' => Nat.eqb r r'
  | _, _ => false
  end.

(** What the event loop can deliver to the service and its search
    provider: a finished reply, a change of the search box, the time-out
    of [search_delay_], a query of the global search, a click on the
    log-out button of the settings page, and a [TasksChanged] signal
    caused by another component of the player. *)
Inductive Event :=
| EvReplyFinished (reply : QNetworkReply)
| EvTextChanged (text : string)
| EvSearchDelayTimeout
| EvSearchAsync (id : Z) (query : string)
| EvLogoutClicked
| EvOtherTasksChanged.

(** Modelled from the spec: [TaskManager] is declared in
    [core/taskmanager.h], outside these sources; it hands out task
    identifiers, keeps the tasks that are not finished, and signals
    [TasksChanged] whenever a task starts or finishes. *)
Record TaskManager := { tasks_ : gset Z; next_task_id_ : Z }.

Record QobuzService := {
  featured_playlists_info_ : gmap Z PlaylistInfo;
  user_playlists_info_ : gmap Z PlaylistInfo;
  root_ : option nat;
  search_ : option nat;
  user_favorites_ : option nat;
  user_playlists_ : option nat;
  featured_playlists_ : option nat;
  search_delay_ : bool;
  pending_search_ : string;
  next_pending_search_id_ : Z;
  task_search_id_ : Z;
  next_pending_playlist_id_ : Z;
  task_featured_playlists_id_ : Z;
  task_user_playlists_id_ : Z;
  task_user_favorites_id_ : Z;
  pending_retrieve_playlists_ : gset Z;
  current_song_id_ : Z;
  access_token_ : string;
  user_id_ : string;
  quality_ : Z
}.

(** The service with what it shares with the rest of the player: the
    search provider, the [QSettings] group of the service, the task
    manager, the items of the tree model, the requests sent so far with
    the closures bound to their replies, the signals emitted so far (the
    oldest first), the clock [time(nullptr)] reads, and the events still
    to be delivered. *)
Record World := {
  service : QobuzService;
  search_provider : QobuzSearchProvider;
  settings : gmap string QVariant;
  task_manager : TaskManager;
  items : gmap nat QStandardItem;
  next_item : nat;
  network : list Request;
  closures : gmap nat Slot;
  finished_replies : gmap nat QNetworkReply;
  emitted : list Signal;
  clock : Z;
  event_queue : list Event
}.

Definition set_featured_playlists_info_ (v : gmap Z PlaylistInfo) (s : QobuzService)
  : QobuzService :=
  Build_QobuzService v (user_playlists_info_ s) (root_ s) (search_ s)
    (user_favorites_ s) (user_playlists_ s) (featured_playlists_ s)
    (search_delay_ s) (pending_search_ s) (next_pending_search_id_ s)
    (task_search_id_ s) (next_pending_playlist_id_ s)
    (task_featured_playlists_id_ s) (task_user_playlists_id_ s)
    (task_user_favorites_id_ s) (pending_retrieve_playlists_ s)
    (current_song_id_ s) (access_token_ s) (user_id_ s) (quality_ s).
Definition set_user_playlists_info_ (v : gmap Z PlaylistInfo) (s : QobuzService)
  : QobuzService :=
  Build_QobuzService (featured_playlists_info_ s) v (root_ s) (search_ s)
    (user_favorites_ s) (user_playlists_ s) (featured_playlists_ s)
    (search_delay_ s) (pending_search_ s) (next_pending_search_id_ s)
    (task_search_id_ s) (next_pending_playlist_id_ s)
    (task_featured_playlists_id_ s) (task_user_playlists_id_ s)
    (task_user_favorites_id_ s) (pending_retrieve_playlists_ s)
    (current_song_id_ s) (access_token_ s) (user_id_ s) (quality_ s).
Definition set_root_ (v : option nat) (s : QobuzService)
  : QobuzService :=
  Build_QobuzService (featured_playlists_info_ s) (user_playlists_info_ s) v
    (search_ s) (user_favorites_ s) (user_playlists_ s) (featured_playlists_
    s) (search_delay_ s) (pending_search_ s) (next_pending_search_id_ s)
    (task_search_id_ s) (next_pending_playlist_id_ s)
    (task_featured_playlists_id_ s) (task_user_playlists_id_ s)
    (task_user_favorites_id_ s) (pending_retrieve_playlists_ s)
    (current_song_id_ s) (access_token_ s) (user_id_ s) (quality_ s).
Definition set_search_ (v : option nat) (s : QobuzService)
  : QobuzService :=
  Build_QobuzService (featured_playlists_info_ s) (user_playlists_info_ s)
    (root_ s) v (user_favorites_ s) (user_playlists_ s) (featured_playlists_
    s) (search_delay_ s) (pending_search_ s) (next_pending_search_id_ s)
    (task_search_id_ s) (next_pending_playlist_id_ s)
    (task_featured_playlists_id_ s) (task_user_playlists_id_ s)
    (task_user_favorites_id_ s) (pending_retrieve_playlists_ s)
    (current_song_id_ s) (access_token_ s) (user_id_ s) (quality_ s).
Definition set_user_favorites_ (v : option nat) (s : QobuzService)
  : QobuzService :=
  Build_QobuzService (featured_playlists_info_ s) (user_playlists_info_ s)
    (root_ s) (search_ s) v (user_playlists_ s) (featured_playlists_ s)
    (search_delay_ s) (pending_search_ s) (next_pending_search_id_ s)
    (task_search_id_ s) (next_pending_playlist_id_ s)
    (task_featured_playlists_id_ s) (task_user_playlists_id_ s)
    (task_user_favorites_id_ s) (pending_retrieve_playlists_ s)
    (current_song_id_ s) (access_token_ s) (user_id_ s) (quality_ s).
Definition set_user_playlists_ (v : option nat) (s : QobuzService)
  : QobuzService :=
  Build_QobuzService (featured_playlists_info_ s) (user_playlists_info_ s)
    (root_ s) (search_ s) (user_favorites_ s) v (featured_playlists_ s)
    (search_delay_ s) (pending_search_ s) (next_pending_search_id_ s)
    (task_search_id_ s) (next_pending_playlist_id_ s)
    (task_featured_playlists_id_ s) (task_user_playlists_id_ s)
    (task_user_favorites_id_ s) (pending_retrieve_playlists_ s)
    (current_song_id_ s) (access_token_ s) (user_id_ s) (quality_ s).
Definition set_featured_playlists_ (v : option nat) (s : QobuzService)
  : QobuzService :=
  Build_QobuzService (featured_playlists_info_ s) (user_playlists_info_ s)
    (root_ s) (search_ s) (user_favorites_ s) (user_playlists_ s) v
    (search_delay_ s) (pending_search_ s) (next_pending_search_id_ s)
    (task_search_id_ s) (next_pending_playlist_id_ s)
    (task_featured_playlists_id_ s) (task_user_playlists_id_ s)
    (task_user_favorites_id_ s) (pending_retrieve_playlists_ s)
    (current_song_id_ s) (access_token_ s) (user_id_ s) (quality_ s).
Definition set_search_delay_ (v : bool) (s : QobuzService)
  : QobuzService :=
  Build_QobuzService (featured_playlists_info_ s) (user_playlists_info_ s)
    (root_ s) (search_ s) (user_favorites_ s) (user_playlists_ s)
    (featured_playlists_ s) v (pending_search_ s) (next_pending_search_id_
    s) (task_search_id_ s) (next_pending_playlist_id_ s)
    (task_featured_playlists_id_ s) (task_user_playlists_id_ s)
    (task_user_favorites_id_ s) (pending_retrieve_playlists_ s)
    (current_song_id_ s) (access_token_ s) (user_id_ s) (quality_ s).
Definition set_pending_search_ (v : string) (s : QobuzService)
  : QobuzService :=
  Build_QobuzService (featured_playlists_info_ s) (user_playlists_info_ s)
    (root_ s) (search_ s) (user_favorites_ s) (user_playlists_ s)
    (featured_playlists_ s) (search_delay_ s) v (next_pending_search_id_ s)
    (task_search_id_ s) (next_pending_playlist_id_ s)
    (task_featured_playlists_id_ s) (task_user_playlists_id_ s)
    (task_user_favorites_id_ s) (pending_retrieve_playlists_ s)
    (current_song_id_ s) (access_token_ s) (user_id_ s) (quality_ s).
Definition set_next_pending_search_id_ (v : Z) (s : QobuzService)
  : QobuzService :=
  Build_QobuzService (featured_playlists_info_ s) (user_playlists_info_ s)
    (root_ s) (search_ s) (user_favorites_ s) (user_playlists_ s)
    (featured_playlists_ s) (search_delay_ s) (pending_search_ s) v
    (task_search_id_ s) (next_pending_playlist_id_ s)
    (task_featured_playlists_id_ s) (task_user_playlists_id_ s)
    (task_user_favorites_id_ s) (pending_retrieve_playlists_ s)
    (current_song_id_ s) (access_token_ s) (user_id_ s) (quality_ s).
Definition set_task_search_id_ (v : Z) (s : QobuzService)
  : QobuzService :=
  Build_QobuzService (featured_playlists_info_ s) (user_playlists_info_ s)
    (root_ s) (search_ s) (user_favorites_ s) (user_playlists_ s)
    (featured_playlists_ s) (search_delay_ s) (pending_search_ s)
    (next_pending_search_id_ s) v (next_pending_playlist_id_ s)
    (task_featured_playlists_id_ s) (task_user_playlists_id_ s)
    (task_user_favorites_id_ s) (pending_retrieve_playlists_ s)
    (current_song_id_ s) (access_token_ s) (user_id_ s) (quality_ s).
Definition set_next_pending_playlist_id_ (v : Z) (s : QobuzService)
  : QobuzService :=
  Build_QobuzService (featured_playlists_info_ s) (user_playlists_info_ s)
    (root_ s) (search_ s) (user_favorites_ s) (user_playlists_ s)
    (featured_playlists_ s) (search_delay_ s) (pending_search_ s)
    (next_pending_search_id_ s) (task_search_id_ s) v
    (task_featured_playlists_id_ s) (task_user_playlists_id_ s)
    (task_user_favorites_id_ s) (pending_retrieve_playlists_ s)
    (current_song_id_ s) (access_token_ s) (user_id_ s) (quality_ s).
Definition set_task_featured_playlists_id_ (v : Z) (s : QobuzService)
  : QobuzService :=
  Build_QobuzService (featured_playlists_info_ s) (user_playlists_info_ s)
    (root_ s) (search_ s) (user_favorites_ s) (user_playlists_ s)
    (featured_playlists_ s) (search_delay_ s) (pending_search_ s)
    (next_pending_search_id_ s) (task_search_id_ s)
    (next_pending_playlist_id_ s) v (task_user_playlists_id_ s)
    (task_user_favorites_id_ s) (pending_retrieve_playlists_ s)
    (current_song_id_ s) (access_token_ s) (user_id_ s) (quality_ s).
Definition set_task_user_playlists_id_ (v : Z) (s : QobuzService)
  : QobuzService :=
  Build_QobuzService (featured_playlists_info_ s) (user_playlists_info_ s)
    (root_ s) (search_ s) (user_favorites_ s) (user_playlists_ s)
    (featured_playlists_ s) (search_delay_ s) (pending_search_ s)
    (next_pending_search_id_ s) (task_search_id_ s)
    (next_pending_playlist_id_ s) (task_featured_playlists_id_ s) v
    (task_user_favorites_id_ s) (pending_retrieve_playlists_ s)
    (current_song_id_ s) (access_token_ s) (user_id_ s) (quality_ s).
Definition set_task_user_favorites_id_ (v : Z) (s : QobuzService)
  : QobuzService :=
  Build_QobuzService (featured_playlists_info_ s) (user_playlists_info_ s)
    (root_ s) (search_ s) (user_favorites_ s) (user_playlists_ s)
    (featured_playlists_ s) (search_delay_ s) (pending_search_ s)
    (next_pending_search_id_ s) (task_search_id_ s)
    (next_pending_playlist_id_ s) (task_featured_playlists_id_ s)
    (task_user_playlists_id_ s) v (pending_retrieve_playlists_ s)
    (current_song_id_ s) (access_token_ s) (user_id_ s) (quality_ s).
Definition set_pending_retrieve_playlists_ (v : gset Z) (s : QobuzService)
  : QobuzService :=
  Build_QobuzService (featured_playlists_info_ s) (user_playlists_info_ s)
    (root_ s) (search_ s) (user_favorites_ s) (user_playlists_ s)
    (featured_playlists_ s) (search_delay_ s) (pending_search_ s)
    (next_pending_search_id_ s) (task_search_id_ s)
    (next_pending_playlist_id_ s) (task_featured_playlists_id_ s)
    (task_user_playlists_id_ s) (task_user_favorites_id_ s) v
    (current_song_id_ s) (access_token_ s) (user_id_ s) (quality_ s).
Definition set_current_song_id_ (v : Z) (s : QobuzService)
  : QobuzService :=
  Build_QobuzService (featured_playlists_info_ s) (user_playlists_info_ s)
    (root_ s) (search_ s) (user_favorites_ s) (user_playlists_ s)
    (featured_playlists_ s) (search_delay_ s) (pending_search_ s)
    (next_pending_search_id_ s) (task_search_id_ s)
    (next_pending_playlist_id_ s) (task_featured_playlists_id_ s)
    (task_user_playlists_id_ s) (task_user_favorites_id_ s)
    (pending_retrieve_playlists_ s) v (access_token_ s) (user_id_ s)
    (quality_ s).
Definition set_access_token_ (v : string) (s : QobuzService)
  : QobuzService :=
  Build_QobuzService (featured_playlists_info_ s) (user_playlists_info_ s)
    (root_ s) (search_ s) (user_favorites_ s) (user_playlists_ s)
    (featured_playlists_ s) (search_delay_ s) (pending_search_ s)
    (next_pending_search_id_ s) (task_search_id_ s)
    (next_pending_playlist_id_ s) (task_featured_playlists_id_ s)
    (task_user_playlists_id_ s) (task_user_favorites_id_ s)
    (pending_retrieve_playlists_ s) (current_song_id_ s) v (user_id_ s)
    (quality_ s).
Definition set_user_id_ (v : string) (s : QobuzService)
  : QobuzService :=
  Build_QobuzService (featured_playlists_info_ s) (user_playlists_info_ s)
    (root_ s) (search_ s) (user_favorites_ s) (user_playlists_ s)
    (featured_playlists_ s) (search_delay_ s) (pending_search_ s)
    (next_pending_search_id_ s) (task_search_id_ s)
    (next_pending_playlist_id_ s) (task_featured_playlists_id_ s)
    (task_user_playlists_id_ s) (task_user_favorites_id_ s)
    (pending_retrieve_playlists_ s) (current_song_id_ s) (access_token_ s) v
    (quality_ s).
Definition set_quality_ (v : Z) (s : QobuzService)
  : QobuzService :=
  Build_QobuzService (featured_playlists_info_ s) (user_playlists_info_ s)
    (root_ s) (search_ s) (user_favorites_ s) (user_playlists_ s)
    (featured_playlists_ s) (search_delay_ s) (pending_search_ s)
    (next_pending_search_id_ s) (task_search_id_ s)
    (next_pending_playlist_id_ s) (task_featured_playlists_id_ s)
    (task_user_playlists_id_ s) (task_user_favorites_id_ s)
    (pending_retrieve_playlists_ s) (current_song_id_ s) (access_token_ s)
    (user_id_ s) v.

Definition set_service (v : QobuzService) (w : World)
  : World :=
  Build_World v (search_provider w) (settings w) (task_manager w) (items w)
    (next_item w) (network w) (closures w) (finished_replies w) (emitted w)
    (clock w) (event_queue w).
Definition set_search_provider (v : QobuzSearchProvider) (w : World)
  : World :=
  Build_World (service w) v (settings w) (task_manager w) (items w)
    (next_item w) (network w) (closures w) (finished_replies w) (emitted w)
    (clock w) (event_queue w).
Definition set_settings (v : gmap string QVariant) (w : World)
  : World :=
  Build_World (service w) (search_provider w) v (task_manager w) (items w)
    (next_item w) (network w) (closures w) (finished_replies w) (emitted w)
    (clock w) (event_queue w).
Definition set_task_manager (v : TaskManager) (w : World)
  : World :=
  Build_World (service w) (search_provider w) (settings w) v (items w)
    (next_item w) (network w) (closures w) (finished_replies w) (emitted w)
    (clock w) (event_queue w).
Definition set_items (v : gmap nat QStandardItem) (w : World)
  : World :=
  Build_World (service w) (search_provider w) (settings w) (task_manager w)
    v (next_item w) (network w) (closures w) (finished_replies w) (emitted
    w) (clock w) (event_queue w).
Definition set_next_item (v : nat) (w : World)
  : World :=
  Build_World (service w) (search_provider w) (settings w) (task_manager w)
    (items w) v (network w) (closures w) (finished_replies w) (emitted w)
    (clock w) (event_queue w).
Definition set_network (v : list Request) (w : World)
  : World :=
  Build_World (service w) (search_provider w) (settings w) (task_manager w)
    (items w) (next_item w) v (closures w) (finished_replies w) (emitted w)
    (clock w) (event_queue w).
Definition set_closures (v : gmap nat Slot) (w : World)
  : World :=
  Build_World (service w) (search_provider w) (settings w) (task_manager w)
    (items w) (next_item w) (network w) v (finished_replies w) (emitted w)
    (clock w) (event_queue w).
Definition set_finished_replies (v : gmap nat QNetworkReply) (w : World)
  : World :=
  Build_World (service w) (search_provider w) (settings w) (task_manager w)
    (items w) (next_item w) (network w) (closures w) v (emitted w) (clock w)
    (event_queue w).
Definition set_emitted (v : list Signal) (w : World)
  : World :=
  Build_World (service w) (search_provider w) (settings w) (task_manager w)
    (items w) (next_item w) (network w) (closures w) (finished_replies w) v
    (clock w) (event_queue w).
Definition set_clock (v : Z) (w : World)
  : World :=
  Build_World (service w) (search_provider w) (settings w) (task_manager w)
    (items w) (next_item w) (network w) (closures w) (finished_replies w)
    (emitted w) v (event_queue w).
Definition set_event_queue (v : list Event) (w : World)
  : World :=
  Build_World (service w) (search_provider w) (settings w) (task_manager w)
    (items w) (next_item w) (network w) (closures w) (finished_replies w)
    (emitted w) (clock w) v.

Definition on_service (f : QobuzService -> QobuzService) (w : World) : World :=
  set_service (f (service w)) w.

(** ** Running member functions

    A member function either returns, or never returns because it waits
    for a signal that does not come (or the fuel of a loop ran out), or
    steps outside the language: a null pointer or an index out of range. *)
Inductive Outcome (A : Type) :=
| Ret (a : A) (w : World)
| Hang
| Fault.
Arguments Ret {A} a w.
Arguments Hang {A}.
Arguments Fault {A}.

Definition M (A : Type) : Type := World -> Outcome A.

#[export] Instance M_ret : MRet M := fun A a w => Ret a w.
#[export] Instance M_bind : MBind M := fun A B f m w =>
  match m w with
  | Ret a w' => f a w'
  | Hang => Hang
  | Fault => Fault
  end.

Definition gets {A} (f : World -> A) : M A := fun w => Ret (f w) w.
Definition modify (f : World -> World) : M unit := fun w => Ret tt (f w).
Definition fault {A} : M A := fun _ => Fault.

Fixpoint for_each {A} (l : list A) (body : A -> M unit) : M unit :=
  match l with
  | [] => mret tt
  | a :: r => body a ;; for_each r body
  end.

Definition emit (s : Signal) : M unit :=
  modify (fun w => set_emitted (emitted w ++ [s]) w).

(** *** The task manager *)

(** Modelled from the spec: [TaskManager::ContainsTask], [StartTask] and
    [SetTaskFinished] are defined in [core/taskmanager.cpp], outside
    these sources; a task is in the manager from its start until it is
    set finished, and a new task gets the next identifier. *)
Definition ContainsTask (id : Z) (w : World) : bool :=
  bool_decide (id ∈ tasks_ (task_manager w)).

Definition StartTask : M Z :=
  id ← gets (fun w => next_task_id_ (task_manager w));
  modify (fun w =>
    set_task_manager
      {| tasks_ := {[id]} ∪ tasks_ (task_manager w);
         next_task_id_ := to_int (id + 1) |} w);;
  emit TasksChanged;;
  mret id.

Definition SetTaskFinished (id : Z) : M unit :=
  present ← gets (ContainsTask id);
  if present : bool then
    modify (fun w =>
      set_task_manager
        {| tasks_ := tasks_ (task_manager w) ∖ {[id]};
           next_task_id_ := next_task_id_ (task_manager w) |} w);;
    emit TasksChanged
  else mret tt.

(** *** Items of the tree model *)

Definition new_QStandardItem (text : string) : M nat :=
  i ← gets next_item;
  modify (fun w =>
    set_next_item (S i)
      (set_items
         (<[i := {| item_text := text; item_rows := [] |}]> (items w)) w));;
  mret i.

(** Reading through a pointer: a null pointer, or one to no item of the
    store, is a fault. *)
Definition deref (p : option nat) : M (nat * QStandardItem) := fun w =>
  match p with
  | Some i => match items w !! i with
              | Some it => Ret (i, it) w
              | None => Fault
              end
  | None => Fault
  end.

Definition set_rows (i : nat) (it : QStandardItem) (r : list Row) : M unit :=
  modify (fun w =>
    set_items
      (<[i := {| item_text := item_text it; item_rows := r |}]> (items w)) w).

Definition appendRow (p : option nat) (r : Row) : M unit :=
  '(i, it) ← deref p;
  set_rows i it (item_rows it ++ [r]).

(** [p->removeRows(0, p->rowCount())] *)
Definition removeRows_all (p : option nat) : M unit :=
  '(i, it) ← deref p;
  set_rows i it [].

(** [QStandardItem::removeRow(row)]: nothing happens for a row the item
    does not have. *)
Definition removeRow (p : option nat) (row : Z) : M unit :=
  '(i, it) ← deref p;
  if (0 <=? row) && (row <? Z.of_nat (length (item_rows it))) then
    set_rows i it (delete (Z.to_nat row) (item_rows it))
  else mret tt.

Fixpoint index_of_item (rows : list Row) (child : nat) : option nat :=
  match rows with
  | [] => None
  | RowItem c :: r =>
      if Nat.eqb c child then Some O else S <$> index_of_item r child
  | RowSong _ :: r => S <$> index_of_item r child
  end.

(** [child->row()] for a child of [parent]: its position among the rows
    of the parent, and -1 when it is no row of it. *)
Definition row (parent child : option nat) : M Z :=
  '(_, pit) ← deref parent;
  '(c, _) ← deref child;
  mret (match index_of_item (item_rows pit) c with
        | Some k => Z.of_nat k
        | None => -1
        end).

(** *** Requests *)

(** [QobuzService::CreateRequest]: the reply is named by the position of
    its request among the requests sent. *)
Definition CreateRequest (ressource_name : string) (params : list Param)
    (add_auth_header : bool) : M nat :=
  token ← gets (fun w => access_token_ (service w));
  reply ← gets (fun w => length (network w));
  modify (fun w =>
    set_network
      (network w ++
       [{| request_url := kBaseUrl +:+ ressource_name;
           query_items := params;
           raw_headers :=
             [("x-app-id", kAppId)]
             ++ (if add_auth_header then [("x-user-auth-token", token)] else [])
             ++ [("Accept", "application/json")] |}]) w);;
  mret reply.

(** [NewClosure(reply, SIGNAL(finished()), this, slot, reply, ...)] *)
Definition NewClosure (reply : nat) (slot : Slot) : M unit :=
  modify (fun w => set_closures (<[reply := slot]> (closures w)) w).

(** *** The search provider *)

Definition set_pending_searches_ (m : gmap Z PendingState) : M unit :=
  modify (set_search_provider {| pending_searches_ := m |}).

(** [QobuzSearchProvider::MaybeSearchFinished]: [QMap::keys(value)]
    compares pending states by their [orig_id_]. *)
Definition MaybeSearchFinished (id : Z) : M unit :=
  pending ← gets (fun w => pending_searches_ (search_provider w));
  if bool_decide
       (map_Forall (fun _ st => orig_id_ st ≠ id) pending)
  then emit (SearchFinished id)
  else mret tt.

(** [QobuzSearchProvider::SearchDone]: [QMap::take] returns a
    default-constructed state, whose [orig_id_] is -1, for an absent key. *)
Definition SearchDone (id : Z) (songs : SongList) : M unit :=
  pending ← gets (fun w => pending_searches_ (search_provider w));
  let state := default {| orig_id_ := -1; tokens_ := [] |} (pending !! id) in
  set_pending_searches_ (delete id pending);;
  let global_search_id := orig_id_ state in
  let ret := map (fun song => {| metadata_ := song |}) songs in
  emit (ResultsAvailable global_search_id ret);;
  MaybeSearchFinished global_search_id.

(** [emit SimpleSearchResults(id, songs)]: [QobuzSearchProvider::Init]
    connects the signal to [SearchDone]. *)
Definition emit_SimpleSearchResults (id : Z) (songs : SongList) : M unit :=
  emit (SimpleSearchResults id songs);;
  SearchDone id songs.

(** ** The service *)

Section Service.
Context `{Platform}.

(** [WaitForSignal(sender, signal)] of [core/waitforsignal.h] runs a
    nested event loop until the signal is emitted; what the loop does
    to the program meanwhile is its argument here, the loop over the
    modelled events being [processEvents] below. *)
Variable WaitForSignal : SignalName -> M unit.

(** [QobuzService::CreateRootItem] *)
Definition CreateRootItem : M nat :=
  i ← new_QStandardItem "Qobuz";
  modify (on_service (set_root_ (Some i)));;
  mret i.

(** [QobuzService::IsLoggedIn] *)
Definition IsLoggedIn (w : World) : bool :=
  negb (QString_isEmpty (access_token_ (service w))).

(** [QobuzService::LoadCredentialsIfEmpty] *)
Definition LoadCredentialsIfEmpty : M unit :=
  token ← gets (fun w => access_token_ (service w));
  s ← gets settings;
  if QString_isEmpty token then
    if negb (bool_decide (is_Some (s !! "access_token"))) then mret tt
    else
      modify (on_service (fun q =>
        set_quality_ (toInt (default VInvalid (s !! "quality")))
          (set_user_id_ (toString (default VInvalid (s !! "user_id")))
             (set_access_token_
                (toString (default VInvalid (s !! "access_token"))) q))))
  else mret tt.

Definition tracked_task_running (w : World) : bool :=
  ContainsTask (task_featured_playlists_id_ (service w)) w
  || ContainsTask (task_search_id_ (service w)) w
  || ContainsTask (task_user_favorites_id_ (service w)) w
  || ContainsTask (task_user_playlists_id_ (service w)) w.

Definition playlist_retrieval_pending (w : World) : bool :=
  negb (bool_decide (pending_retrieve_playlists_ (service w) = ∅)).

(** [while (cond) { WaitForSignal(...); }] *)
Fixpoint wait_while (cond : World -> bool) (signal : SignalName)
    (fuel : nat) : M unit := fun w =>
  if cond w then
    match fuel with
    | O => Hang
    | S n => (WaitForSignal signal ;; wait_while cond signal n) w
    end
  else Ret tt w.

(** [root_->removeRow(node->row())] *)
Definition remove_from_root (node : option nat) : M unit :=
  root ← gets (fun w => root_ (service w));
  r ← row root node;
  removeRow root r.

(** [QobuzService::Logout], from the first statement after its two
    waiting loops to the last one before [SetTaskFinished]. *)
Definition Logout_teardown : M unit :=
  modify (on_service (fun q =>
    set_quality_ NONE (set_user_id_ "" (set_access_token_ "" q))));;
  modify (fun w =>
    set_settings
      (delete "quality" (delete "user_id" (delete "access_token" (settings w))))
      w);;
  featured ← gets (fun w => featured_playlists_ (service w));
  (if featured is Some _ then
     remove_from_root featured;;
     modify (on_service (set_featured_playlists_ None))
   else mret tt);;
  favorites ← gets (fun w => user_favorites_ (service w));
  (if favorites is Some _ then
     remove_from_root favorites;;
     modify (on_service (set_user_favorites_ None))
   else mret tt);;
  playlists ← gets (fun w => user_playlists_ (service w));
  (if playlists is Some _ then
     remove_from_root playlists;;
     modify (on_service (set_user_playlists_ None))
   else mret tt);;
  search ← gets (fun w => search_ (service w));
  (if search is Some _ then
     remove_from_root search;;
     modify (on_service (set_search_ None))
   else mret tt);;
  modify (on_service (fun q =>
    set_user_playlists_info_ ∅ (set_featured_playlists_info_ ∅ q)));;
  modify (on_service (set_pending_search_ "")).

(** [QobuzService::Logout] up to the end of its two waiting loops;
    the value is the task started for the log-out. *)
Definition Logout_waits (fuel : nat) : M Z :=
  task_id ← StartTask;
  wait_while tracked_task_running SIGNAL_TasksChanged fuel;;
  wait_while playlist_retrieval_pending SIGNAL_PlaylistRetrieved fuel;;
  mret task_id.

(** [QobuzService::Logout] *)
Definition Logout (fuel : nat) : M unit :=
  task_id ← Logout_waits fuel;
  Logout_teardown;;
  SetTaskFinished task_id.

(** [QobuzService::ExtractResult] *)
Definition ExtractResult (fuel : nat) (reply : QNetworkReply)
  : M QVariantMap :=
  let status_code := HttpStatusCodeAttribute reply in
  if negb (status_code =? NO_ERROR) then
    (if status_code =? UNAUTHORIZED then Logout fuel else mret tt);;
    emit (ReplyError status_code);;
    mret []
  else
    mret (toMap (parsed_body reply)).

(** [QobuzService::RefreshPlaylist] *)
Definition RefreshPlaylist (playlist_id : Z) : M unit :=
  reply ← CreateRequest kGetPlaylist
            [("extra", "tracks"); ("playlist_id", QString_number playlist_id)]
            true;
  id ← gets (fun w => next_pending_playlist_id_ (service w));
  modify (on_service (fun q =>
    set_pending_retrieve_playlists_
      ({[id]} ∪ pending_retrieve_playlists_ q)
      (set_next_pending_playlist_id_ (to_int (id + 1)) q)));;
  NewClosure reply (Slot_PlaylistRetrieved playlist_id id).

(** [QobuzService::RetrieveUserFavorites] *)
Definition RetrieveUserFavorites : M unit :=
  task ← StartTask;
  modify (on_service (set_task_user_favorites_id_ task));;
  user ← gets (fun w => user_id_ (service w));
  reply ← CreateRequest kUserFavorites
            [("type", "tracks"); ("user_id", user)] true;
  NewClosure reply Slot_UserFavoritesRetrieved.

(** [QobuzService::UserFavoritesRetrieved] *)
Definition UserFavoritesRetrieved (fuel : nat) (reply : QNetworkReply)
  : M unit :=
  favorites ← gets (fun w => user_favorites_ (service w));
  removeRows_all favorites;;
  result ← ExtractResult fuel reply;
  for_each (ExtractSongs (value result "tracks"))
    (fun song =>
       favorites ← gets (fun w => user_favorites_ (service w));
       appendRow favorites (RowSong song));;
  task ← gets (fun w => task_user_favorites_id_ (service w));
  SetTaskFinished task.

(** [QobuzService::RetrieveFeaturedPlaylists] *)
Definition RetrieveFeaturedPlaylists : M unit :=
  task ← StartTask;
  modify (on_service (set_task_featured_playlists_id_ task));;
  user ← gets (fun w => user_id_ (service w));
  reply ← CreateRequest kFeaturedPlaylists
            [("type", "editor-picks"); ("user_id", user)] true;
  NewClosure reply Slot_FeaturedPlaylistsRetrieved.

(** [QobuzService::CreatePlaylistItem]; the data roles of an item are
    not part of the model. *)
Definition CreatePlaylistItem (playlist_name : string) (playlist_id : Z)
  : M nat :=
  new_QStandardItem playlist_name.

(** [QobuzService::FeaturedPlaylistsRetrieved] *)
Definition FeaturedPlaylistsRetrieved (fuel : nat) (reply : QNetworkReply)
  : M unit :=
  response ← ExtractResult fuel reply;
  for_each (toList (value (toMap (value response "playlists")) "items"))
    (fun item =>
       let playlist_map := toMap item in
       let playlist_id := toInt (value playlist_map "id") in
       let playlist_name := toString (value playlist_map "name") in
       playlist_item ← CreatePlaylistItem playlist_name playlist_id;
       modify (on_service (fun q =>
         set_featured_playlists_info_
           (<[playlist_id :=
                {| id_ := playlist_id; name_ := playlist_name;
                   item_ := Some playlist_item; songs_ids_ := [] |}]>
              (featured_playlists_info_ q)) q));;
       featured ← gets (fun w => featured_playlists_ (service w));
       appendRow featured (RowItem playlist_item);;
       RefreshPlaylist playlist_id);;
  task ← gets (fun w => task_featured_playlists_id_ (service w));
  SetTaskFinished task.

(** [QobuzService::RetrieveUserPlaylists] *)
Definition RetrieveUserPlaylists : M unit :=
  task ← StartTask;
  modify (on_service (set_task_user_playlists_id_ task));;
  user ← gets (fun w => user_id_ (service w));
  reply ← CreateRequest kUserPlaylists [("user_id", user)] true;
  NewClosure reply Slot_UserPlaylistsRetrieved.

(** [QobuzService::UserPlaylistsRetrieved] *)
Definition UserPlaylistsRetrieved (fuel : nat) (reply : QNetworkReply)
  : M unit :=
  response ← ExtractResult fuel reply;
  for_each (toList (value (toMap (value response "playlists")) "items"))
    (fun item =>
       let playlist_map := toMap item in
       let playlist_id := toInt (value playlist_map "id") in
       let playlist_name := toString (value playlist_map "name") in
       playlist_item ← CreatePlaylistItem playlist_name playlist_id;
       playlists ← gets (fun w => user_playlists_ (service w));
       appendRow playlists (RowItem playlist_item);;
       modify (on_service (fun q =>
         set_user_playlists_info_
           (<[playlist_id :=
                {| id_ := playlist_id; name_ := playlist_name;
                   item_ := Some playlist_item; songs_ids_ := [] |}]>
              (user_playlists_info_ q)) q));;
       RefreshPlaylist playlist_id);;
  task ← gets (fun w => task_user_playlists_id_ (service w));
  SetTaskFinished task.

(** [QobuzService::RetrieveUserData] *)
Definition RetrieveUserData : M unit :=
  LoadCredentialsIfEmpty;;
  RetrieveFeaturedPlaylists;;
  RetrieveUserFavorites;;
  RetrieveUserPlaylists.

(** [QobuzService::EnsureItemsCreated] *)
Definition EnsureItemsCreated : M unit :=
  logged ← gets IsLoggedIn;
  search ← gets (fun w => search_ (service w));
  (if logged && negb (bool_decide (is_Some search)) then
     i ← new_QStandardItem "Search results";
     modify (on_service (set_search_ (Some i)));;
     root ← gets (fun w => root_ (service w));
     appendRow root (RowItem i)
   else mret tt);;
  q ← gets service;
  logged ← gets IsLoggedIn;
  if negb (bool_decide (is_Some (user_favorites_ q)))
     && negb (bool_decide (is_Some (featured_playlists_ q)))
     && negb (bool_decide (is_Some (user_playlists_ q)))
     && logged
  then
    root ← gets (fun w => root_ (service w));
    i ← new_QStandardItem "Favorites";
    modify (on_service (set_user_favorites_ (Some i)));;
    appendRow root (RowItem i);;
    i ← new_QStandardItem "Featured playlists";
    modify (on_service (set_featured_playlists_ (Some i)));;
    appendRow root (RowItem i);;
    i ← new_QStandardItem "Playlists";
    modify (on_service (set_user_playlists_ (Some i)));;
    appendRow root (RowItem i);;
    RetrieveUserData
  else mret tt.

(** [QobuzService::ClearSearchResults] *)
Definition ClearSearchResults : M unit :=
  search ← gets (fun w => search_ (service w));
  if search is Some _ then removeRows_all search else mret tt.

(** [QobuzService::DoSearch] *)
Definition DoSearch : M unit :=
  ClearSearchResults;;
  text ← gets (fun w => pending_search_ (service w));
  reply ← CreateRequest kSearch
            [("limit", QString_number kSongSearchLimit);
             ("query", text); ("type", "tracks")] true;
  NewClosure reply Slot_SearchFinished.

(** [QobuzService::Search]; [search_delay_] is true while the timer
    runs. *)
Definition Search (text : string) (now : bool) : M unit :=
  modify (on_service (set_pending_search_ text));;
  task ← gets (fun w => task_search_id_ (service w));
  (if task =? 0 then
     t ← StartTask;
     modify (on_service (set_task_search_id_ t))
   else mret tt);;
  if QString_isEmpty text then
    modify (on_service (set_search_delay_ false));;
    ClearSearchResults
  else if now then
    modify (on_service (set_search_delay_ false));;
    DoSearch
  else
    modify (on_service (set_search_delay_ true)).

(** [QobuzService::SearchFinished]; [search_->index()] reads through
    [search_] whatever the songs are. *)
Definition SearchFinished_ (fuel : nat) (reply : QNetworkReply) : M unit :=
  result ← ExtractResult fuel reply;
  for_each (ExtractSongs (value result "tracks"))
    (fun song =>
       search ← gets (fun w => search_ (service w));
       appendRow search (RowSong song));;
  search ← gets (fun w => search_ (service w));
  deref search;;
  task ← gets (fun w => task_search_id_ (service w));
  SetTaskFinished task;;
  modify (on_service (set_task_search_id_ 0)).

(** [QobuzService::SimpleSearch] *)
Definition SimpleSearch (text : string) : M Z :=
  reply ← CreateRequest kSearch
            [("limit", QString_number kSongSimpleSearchLimit);
             ("query", text); ("type", "tracks")] true;
  id ← gets (fun w => next_pending_search_id_ (service w));
  modify (on_service (set_next_pending_search_id_ (to_int (id + 1))));;
  NewClosure reply (Slot_SimpleSearchFinished id);;
  mret id.

(** [QobuzService::SimpleSearchFinished] *)
Definition SimpleSearchFinished (fuel : nat) (reply : QNetworkReply)
    (id : Z) : M unit :=
  result ← ExtractResult fuel reply;
  emit_SimpleSearchResults id (ExtractSongs (value result "tracks")).

(** [QobuzSearchProvider::SearchAsync] *)
Definition SearchAsync (id : Z) (query : string) : M unit :=
  service_id ← SimpleSearch query;
  pending ← gets (fun w => pending_searches_ (search_provider w));
  set_pending_searches_
    (<[service_id := {| orig_id_ := id; tokens_ := TokenizeQuery query |}]>
       pending).

(** The [PlaylistInfo] a pointer into one of the two maps points to. *)
Definition playlist_info (featured : bool) (playlist_id : Z)
  : M PlaylistInfo := fun w =>
  let m := if featured then featured_playlists_info_ (service w)
           else user_playlists_info_ (service w) in
  match m !! playlist_id with
  | Some info => Ret info w
  | None => Fault
  end.

Definition set_playlist_info (featured : bool) (playlist_id : Z)
    (info : PlaylistInfo) : M unit :=
  modify (on_service (fun q =>
    if featured then
      set_featured_playlists_info_
        (<[playlist_id := info]> (featured_playlists_info_ q)) q
    else
      set_user_playlists_info_
        (<[playlist_id := info]> (user_playlists_info_ q)) q)).

(** [QobuzService::PlaylistRetrieved].  [operator[]] on the map of the
    user's playlists inserts a default-constructed [PlaylistInfo] for
    an absent key, whose [item_] points to no item. *)
Definition PlaylistRetrieved_ (fuel : nat) (reply : QNetworkReply)
    (playlist_id request_id : Z) : M unit :=
  pending ← gets (fun w => pending_retrieve_playlists_ (service w));
  if negb (bool_decide (request_id ∈ pending)) then mret tt
  else
    modify (on_service
      (set_pending_retrieve_playlists_ (pending ∖ {[request_id]})));;
    q ← gets service;
    let featured :=
      bool_decide (is_Some (featured_playlists_info_ q !! playlist_id)) in
    (if featured
        || bool_decide (is_Some (user_playlists_info_ q !! playlist_id))
     then mret tt
     else set_playlist_info false playlist_id
            {| id_ := 0; name_ := ""; item_ := None; songs_ids_ := [] |});;
    info ← playlist_info featured playlist_id;
    removeRows_all (item_ info);;
    result ← ExtractResult fuel reply;
    let songs := ExtractSongs (value result "tracks") in
    info ← playlist_info featured playlist_id;
    set_playlist_info featured playlist_id
      {| id_ := id_ info; name_ := name_ info; item_ := item_ info;
         songs_ids_ := [] |};;
    for_each songs
      (fun song =>
         info ← playlist_info featured playlist_id;
         appendRow (item_ info) (RowSong song);;
         set_playlist_info featured playlist_id
           {| id_ := id_ info; name_ := name_ info; item_ := item_ info;
              songs_ids_ := songs_ids_ info
                            ++ [ExtractSongIdFromUrl (url song)] |});;
    emit PlaylistRetrieved.

(** [QobuzService::Connect] *)
Definition Connect (username password : string) : M unit :=
  reply ← CreateRequest kAuthTokenUrl
            [("password", password); ("username", username)] false;
  NewClosure reply Slot_ConnectFinished.

(** [QobuzService::ConnectFinished] *)
Definition ConnectFinished (fuel : nat) (reply : QNetworkReply) : M unit :=
  response ← ExtractResult fuel reply;
  let token := toString (value response "user_auth_token") in
  modify (on_service (set_access_token_ token));;
  if QString_isEmpty token then mret tt
  else
    let user := toMap (value response "user") in
    let user_mail := toString (value user "email") in
    modify (on_service (set_user_id_ (toString (value user "id"))));;
    let account_parameters :=
      toMap (value (toMap (value user "credential")) "parameters") in
    let lossless_streaming :=
      toBool (value account_parameters "lossless_streaming") in
    let lossy_streaming :=
      toBool (value account_parameters "lossy_streaming") in
    if negb lossy_streaming then
      emit NotPremium;;
      Logout fuel
    else
      q ← gets service;
      modify (fun w =>
        set_settings
          (<["hifi_subscriber" := VBool lossless_streaming]>
             (<["user_mail" := VString user_mail]>
                (<["user_id" := VString (user_id_ q)]>
                   (<["access_token" := VString (access_token_ q)]>
                      (settings w))))) w);;
      emit Connected;;
      EnsureItemsCreated.

(** The parameters [QobuzService::GetStreamingUrlFromSongId] sends:
    the three it signs, the time stamp and the signature. *)
Definition GetStreamingUrl_parameters (quality : Z) (id : string)
    (time : Z) : list Param :=
  let parameters :=
    [("format_id", QString_number quality); ("intent", "stream");
     ("track_id", id)] in
  let request_sig := QString_remove_char "/"%char kSteamUrl in
  let request_ts := QString_number time in
  let request_sig :=
    fold_left (fun sig (p : Param) => sig +:+ p.1 +:+ p.2)
      parameters request_sig in
  let request_sig := request_sig +:+ request_ts in
  let request_sig := request_sig +:+ kAppSecret in
  let request_sig := Md5_toHex request_sig in
  parameters ++ [("request_ts", request_ts); ("request_sig", request_sig)].

(** [QobuzService::GetStreamingUrlFromSongId]; the value is the text
    of the URL. *)
Definition GetStreamingUrlFromSongId (fuel : nat) (id : string)
  : M string :=
  quality ← gets (fun w => quality_ (service w));
  time ← gets clock;
  reply ← CreateRequest kSteamUrl
            (GetStreamingUrl_parameters quality id time) true;
  WaitForSignal (SIGNAL_finished reply);;
  finished ← gets finished_replies;
  match finished !! reply with
  | None => fault
  | Some r =>
      result ← ExtractResult fuel r;
      mret (toUrl (value result "url"))
  end.

(** [QobuzUrlHandler::StartLoading]: the original URL with the URL of
    the stream. *)
Definition StartLoading (fuel : nat) (u : QUrl) : M (QUrl * string) :=
  real_url ← GetStreamingUrlFromSongId fuel (path u);
  mret (u, real_url).

(** [QobuzService::AddUserFavoriteSong] *)
Definition AddUserFavoriteSong (song_id : Z) : M unit :=
  task_id ← StartTask;
  reply ← CreateRequest kUserAddFavorite
            [("track_ids", QString_number song_id)] true;
  NewClosure reply (Slot_UserFavoriteSongAdded task_id).

(** [QobuzService::UserFavoriteSongAdded] *)
Definition UserFavoriteSongAdded (fuel : nat) (reply : QNetworkReply)
    (task_id : Z) : M unit :=
  result ← ExtractResult fuel reply;
  if negb (String.eqb (toString (value result "status")) "success") then
    mret tt
  else
    RetrieveUserFavorites;;
    SetTaskFinished task_id.

(** [QobuzService::RemoveFromFavorites] *)
Definition RemoveFromFavorites (songs_ids_to_remove : list Z) : M unit :=
  if bool_decide (songs_ids_to_remove = []) then mret tt
  else
    task_id ← StartTask;
    match SongsIdsToStringParameter songs_ids_to_remove with
    | None => fault
    | Some songs_ids_string =>
        reply ← CreateRequest kUserDeleteFavorite
                  [("track_ids", songs_ids_string)] true;
        NewClosure reply (Slot_SongsRemovedFromFavorites task_id)
    end.

(** [result["status"] != "success"]: the text is converted to the
    type of the variant before the two are compared. *)
Definition QVariant_eq_text (v : QVariant) (t : string) : bool :=
  match v with
  | VString s => String.eqb s t
  | VBool b => Bool.eqb b (toBool (VString t))
  | VInt z => match QString_toLongLong t with
              | Some n => z =? n
              | None => false
              end
  | _ => false
  end.

(** [QobuzService::SongsRemovedFromFavorites] *)
Definition SongsRemovedFromFavorites (fuel : nat) (reply : QNetworkReply)
    (task_id : Z) : M unit :=
  result ← ExtractResult fuel reply;
  if negb (QVariant_eq_text (value result "status") "success") then mret tt
  else
    RetrieveUserFavorites;;
    SetTaskFinished task_id.

(** [QobuzService::SetPlaylistSongs] *)
Definition SetPlaylistSongs (playlist_id : Z) (songs_ids : list Z)
  : M unit :=
  pending ← gets playlist_retrieval_pending;
  if pending : bool then mret tt
  else
    task_id ← StartTask;
    match SongsIdsToStringParameter songs_ids with
    | None => fault
    | Some songs_ids_string =>
        reply ← CreateRequest kUpdatePlaylist
                  [("playlist_id", QString_number playlist_id);
                   ("track_ids", songs_ids_string)] true;
        NewClosure reply (Slot_PlaylistSongsSet playlist_id task_id)
    end.

(** [QobuzService::PlaylistSongsSet] *)
Definition PlaylistSongsSet (fuel : nat) (reply : QNetworkReply)
    (playlist_id task_id : Z) : M unit :=
  result ← ExtractResult fuel reply;
  if negb (toInt (value result "id") =? playlist_id) then mret tt
  else
    RefreshPlaylist playlist_id;;
    SetTaskFinished task_id.

(** [QobuzSettingsPage::LogoutClicked] *)
Definition LogoutClicked (fuel : nat) : M unit :=
  Logout fuel;;
  modify (fun w =>
    set_settings
      (delete "user_mail"
         (delete "username" (delete "hifi_subscriber" (settings w)))) w).

(** The slot of a closure, called with the reply it was bound to. *)
Definition call_slot (fuel : nat) (slot : Slot) (reply : QNetworkReply)
  : M unit :=
  match slot with
  | Slot_ConnectFinished => ConnectFinished fuel reply
  | Slot_UserFavoritesRetrieved => UserFavoritesRetrieved fuel reply
  | Slot_FeaturedPlaylistsRetrieved => FeaturedPlaylistsRetrieved fuel reply
  | Slot_UserPlaylistsRetrieved => UserPlaylistsRetrieved fuel reply
  | Slot_SearchFinished => SearchFinished_ fuel reply
  | Slot_SimpleSearchFinished id => SimpleSearchFinished fuel reply id
  | Slot_PlaylistRetrieved playlist_id request_id =>
      PlaylistRetrieved_ fuel reply playlist_id request_id
  | Slot_UserFavoriteSongAdded task_id =>
      UserFavoriteSongAdded fuel reply task_id
  | Slot_SongsRemovedFromFavorites task_id =>
      SongsRemovedFromFavorites fuel reply task_id
  | Slot_PlaylistSongsSet playlist_id task_id =>
      PlaylistSongsSet fuel reply playlist_id task_id
  end.

(** What one event makes the program do. *)
Definition deliver (fuel : nat) (e : Event) : M unit :=
  match e with
  | EvReplyFinished reply =>
      let h := reply_handle reply in
      modify (fun w =>
        set_finished_replies (<[h := reply]> (finished_replies w)) w);;
      emit (finished h);;
      slot ← gets (fun w => closures w !! h);
      match slot with
      | Some sl =>
          modify (fun w => set_closures (delete h (closures w)) w);;
          call_slot fuel sl reply
      | None => mret tt
      end
  | EvTextChanged text => Search text false
  | EvSearchDelayTimeout =>
      running ← gets (fun w => search_delay_ (service w));
      if running : bool then
        modify (on_service (set_search_delay_ false));;
        DoSearch
      else mret tt
  | EvSearchAsync id query => SearchAsync id query
  | EvLogoutClicked => LogoutClicked fuel
  | EvOtherTasksChanged => emit TasksChanged
  end.

End Service.

(** ** The event loop *)

(** Modelled from the spec: [WaitForSignal] is defined in
    [core/waitforsignal.h], outside these sources; it blocks in a nested
    event loop until the signal is emitted.  The nested loop delivers
    the events of the queue one after the other, each of which may nest
    a loop of its own, and returns after the first one during which the
    signal was emitted.  It never returns when the queue runs out. *)
Fixpoint processEvents `{Platform} (fuel : nat) (signal : SignalName)
    : M unit := fun w =>
  match event_queue w with
  | [] => Hang
  | e :: q =>
      match fuel with
      | O => Hang
      | S n =>
          let before := length (emitted w) in
          match deliver (processEvents n) n e (set_event_queue q w) with
          | Ret _ w' =>
              if existsb (is_signal signal) (drop before (emitted w'))
              then Ret tt w'
              else processEvents n signal w'
          | Hang => Hang
          | Fault => Fault
          end
      end
  end.

(** The main event loop: the events of the queue, one after the other. *)
Fixpoint exec `{Platform} (fuel : nat) : M unit := fun w =>
  match event_queue w with
  | [] => Ret tt w
  | e :: q =>
      match fuel with
      | O => Hang
      | S n =>
          match deliver (processEvents n) n e (set_event_queue q w) with
          | Ret _ w' => exec n w'
          | Hang => Hang
          | Fault => Fault
          end
      end
  end.

(** ** Notions the results are stated with *)

(** A pointer is valid when it is null or points to an item of the store. *)
Definition valid_item (p : option nat) (w : World) : Prop :=
  forall i, p = Some i -> is_Some (items w !! i).

(** The four nodes [EnsureItemsCreated] hangs below the root. *)
Definition is_node (q : QobuzService) (n : nat) : Prop :=
  search_ q = Some n \/ user_favorites_ q = Some n
  \/ featured_playlists_ q = Some n \/ user_playlists_ q = Some n.

(** The rows left once the row of [child] is removed. *)
Definition rows_without (rows : list Row) (child : nat) : list Row :=
  match index_of_item rows child with
  | Some k => delete k rows
  | None => rows
  end.

(** What [root_->removeRow(child->row())] leaves of the store. *)
Definition remove_child (root child : nat) (its : gmap nat QStandardItem)
  : gmap nat QStandardItem :=
  match its !! root with
  | Some it =>
      match index_of_item (item_rows it) child with
      | Some k =>
          <[root := {| item_text := item_text it;
                       item_rows := delete k (item_rows it) |}]> its
      | None => its
      end
  | None => its
  end.

Definition remove_opt (root : nat) (node : option nat)
    (its : gmap nat QStandardItem) : gmap nat QStandardItem :=
  match node with
  | Some n => remove_child root n its
  | None => its
  end.

(** What [Logout] leaves of the store: the root without the rows of the
    four nodes. *)
Definition teardown_items (q : QobuzService) (its : gmap nat QStandardItem)
  : gmap nat QStandardItem :=
  match root_ q with
  | Some r =>
      remove_opt r (search_ q)
        (remove_opt r (user_playlists_ q)
           (remove_opt r (user_favorites_ q)
              (remove_opt r (featured_playlists_ q) its)))
  | None => its
  end.

(** The request of a catalog search. *)
Definition search_request (limit : Z) (text token : string) : Request :=
  {| request_url := "http://www.qobuz.com/api.json/0.2/catalog/search";
     query_items :=
       [("limit", QString_number limit); ("query", text); ("type", "tracks")];
     raw_headers :=
       [("x-app-id", ""); ("x-user-auth-token", token);
        ("Accept", "application/json")] |}.

(** The request for the URL of a stream, and the program once
    [GetStreamingUrlFromSongId] has sent it. *)
Definition streaming_request `{Platform} (quality : Z) (id : string)
    (time : Z) (token : string) : Request :=
  {| request_url := "http://www.qobuz.com/api.json/0.2/track/getFileUrl";
     query_items := GetStreamingUrl_parameters quality id time;
     raw_headers :=
       [("x-app-id", ""); ("x-user-auth-token", token);
        ("Accept", "application/json")] |}.

Definition streaming_request_sent `{Platform} (id : string) (w : World)
  : World :=
  set_network
    (network w
     ++ [streaming_request (quality_ (service w)) id (clock w)
           (access_token_ (service w))]) w.

(** The text the loop of [SongsIdsToStringParameter] has built after its
    first identifiers: each followed by a comma. *)
Definition comma_terminated (l : list Z) : string :=
  fold_right (fun x acc => QString_number x +:+ "," +:+ acc) "" l.

(** The top-level members [ExtractSong] reads. *)
Definition song_fields : list string :=
  ["streamable"; "id"; "performer"; "title"; "duration"; "track_number";
   "album"].

Definition contains (m : QVariantMap) (k : string) : bool :=
  existsb (fun kv => String.eqb kv.1 k) m.

Definition fields_present (fields : list string) (m : QVariantMap) : bool :=
  forallb (contains m) fields.

(** What the global search and the service do to the table of pending
    searches: a new query, and the signal of a finished one. *)
Inductive SearchOp :=
| OpSearchAsync (id : Z) (query : string)
| OpSimpleSearchResults (service_id : Z) (songs : SongList).

Definition run_op `{Platform} (op : SearchOp) : M unit :=
  match op with
  | OpSearchAsync id query => SearchAsync id query
  | OpSimpleSearchResults service_id songs =>
      emit_SimpleSearchResults service_id songs
  end.

Definition answers (service_id : Z) (op : SearchOp) : Prop :=
  match op with
  | OpSearchAsync _ _ => False
  | OpSimpleSearchResults i _ => i = service_id
  end.

Definition is_int (z : Z) : Prop := - 2 ^ 31 <= z < 2 ^ 31.

Definition results_of (songs : SongList) : ResultList :=
  map (fun song => {| metadata_ := song |}) songs.

Section Polled.
Variable WaitForSignal : SignalName -> M unit.

(** [polled cond signal n w w']: from [w], [n] times the condition
    held and the wait for the signal returned, leaving [w'], where the
    condition does not hold. *)
Inductive polled (cond : World -> bool) (signal : SignalName)
  : nat -> World -> World -> Prop :=
| polled_done w : cond w = false -> polled cond signal O w w
| polled_wait n w w1 w2 :
    cond w = true ->
    WaitForSignal signal w = Ret tt w1 ->
    polled cond signal n w1 w2 ->
    polled cond signal (S n) w w2.
End Polled.

(** ** A platform and sample runs *)

Fixpoint digits_value (s : string) (acc : Z) : option Z :=
  match s with
  | EmptyString => Some acc
  | String c r =>
      let n := Z.of_nat (nat_of_ascii c) in
      if (48 <=? n) && (n <=? 57) then digits_value r (10 * acc + (n - 48))
      else None
  end.

Definition decimal_value (s : string) : option Z :=
  match s with
  | EmptyString => None
  | String "-" (String c r) => Z.opp <$> digits_value (String c r) 0
  | _ => digits_value s 0
  end.

(** A platform to run the model on: a text is a number when it is made
    of decimal digits, a year lasts 31556952 seconds, and the digest
    only tags its input. *)
#[export] Instance reference_platform : Platform := {|
  QString_toLongLong := fun s =>
    z ← decimal_value s;
    if (- 2 ^ 63 <=? z) && (z <? 2 ^ 63) then Some z else None;
  QString_toULongLong := fun s =>
    z ← decimal_value s;
    if (0 <=? z) && (z <? 2 ^ 64) then Some z else None;
  QDateTime_year_of_time_t := fun t => 1970 + t / 31556952;
  Md5_toHex := fun s => "md5:" +:+ s;
  kNsecPerSec := 1000000000;
  TokenizeQuery := fun q => [q]
|}.

(** The program a member function leaves when it returns. *)
Definition after {A} (m : M A) (w : World) : World :=
  match m w with
  | Ret _ w' => w'
  | _ => w
  end.

(** The service as its constructor leaves it when the settings hold the
    credentials of an earlier session. *)
Definition constructed : World :=
  {| service :=
       {| featured_playlists_info_ := ∅; user_playlists_info_ := ∅;
          root_ := None; search_ := None; user_favorites_ := None;
          user_playlists_ := None; featured_playlists_ := None;
          search_delay_ := false; pending_search_ := "";
          next_pending_search_id_ := 0; task_search_id_ := 0;
          next_pending_playlist_id_ := 0; task_featured_playlists_id_ := 0;
          task_user_playlists_id_ := 0; task_user_favorites_id_ := 0;
          pending_retrieve_playlists_ := ∅; current_song_id_ := 0;
          access_token_ := "token"; user_id_ := "42"; quality_ := MP3 |};
     search_provider := {| pending_searches_ := ∅ |};
     settings :=
       {[ "access_token" := VString "token"; "user_id" := VString "42";
          "quality" := VInt 5 ]};
     task_manager := {| tasks_ := ∅; next_task_id_ := 1 |};
     items := ∅; next_item := 0%nat; network := []; closures := ∅;
     finished_replies := ∅; emitted := []; clock := 1400000000;
     event_queue := [] |}.

(** The tree is shown: the root and the four nodes exist, and the three
    requests of [RetrieveUserData] are on their way. *)
Definition started : World :=
  Eval vm_compute in
  after EnsureItemsCreated (after CreateRootItem constructed).

Definition unauthorized (reply : nat) : QNetworkReply :=
  {| reply_handle := reply; HttpStatusCodeAttribute := 401;
     parsed_body := VInvalid |}.

Definition ok (reply : nat) (body : QVariant) : QNetworkReply :=
  {| reply_handle := reply; HttpStatusCodeAttribute := 200;
     parsed_body := body |}.

Definition track (id : Z) (name : string) : QVariant :=
  VMap [("id", VInt id); ("streamable", VBool true); ("title", VString name)].

Definition tracks (l : list QVariant) : QVariant :=
  VMap [("tracks", VMap [("items", VList l)])].

Definition playlists (l : list QVariant) : QVariant :=
  VMap [("playlists", VMap [("items", VList l)])].

(** The three requests of [RetrieveUserData] are each answered with
    status 401. *)
Definition startup_unauthorized : World :=
  Eval vm_compute in
  set_event_queue
    [EvReplyFinished (unauthorized 0); EvReplyFinished (unauthorized 1);
     EvReplyFinished (unauthorized 2)] started.

(** The three requests were answered, the user typed a query and the
    search request is on its way. *)
Definition searching : World :=
  Eval vm_compute in
  after (exec 5)
    (set_event_queue
       [EvReplyFinished (ok 0 (playlists []));
        EvReplyFinished (ok 1 (tracks [track 7 "Aria"]));
        EvReplyFinished (ok 2 (playlists []));
        EvTextChanged "bach"; EvSearchDelayTimeout] started).

(** A song is being added to the favorites while the user logs out;
    the replies come in the order of the requests. *)
Definition logging_out : World :=
  Eval vm_compute in
  set_event_queue
    [EvReplyFinished
       (ok 0 (playlists [VMap [("id", VInt 11); ("name", VString "Jazz")]]));
     EvReplyFinished (ok 1 (tracks [track 7 "Aria"]));
     EvReplyFinished (ok 2 (playlists []));
     EvReplyFinished (ok 3 (VMap [("status", VString "success")]));
     EvReplyFinished (ok 4 (tracks [track 8 "So What"]))]
    (after (AddUserFavoriteSong 7) started).

(** The same log-out when no song is being added. *)
Definition logging_out_quietly : World :=
  Eval vm_compute in
  set_event_queue
    [EvReplyFinished
       (ok 0 (playlists [VMap [("id", VInt 11); ("name", VString "Jazz")]]));
     EvReplyFinished (ok 1 (tracks [track 7 "Aria"]));
     EvReplyFinished (ok 2 (playlists []));
     EvReplyFinished (ok 3 (tracks [track 8 "So What"]))]
    started.

Definition unstreamable_song : QVariantMap :=
  [("id", VInt 7); ("streamable", VBool false); ("title", VString "Aria");
   ("duration", VInt 180); ("track_number", VInt 1);
   ("performer", VMap [("name", VString "Glenn Gould")]);
   ("album",
    VMap [("title", VString "Goldberg Variations");
          ("genre", VMap [("name", VString "Classique")]);
          ("image", VMap [("large", VString "http://static.qobuz.com/7.jpg")]);
          ("artist", VMap [("name", VString "Glenn Gould")]);
          ("released_at", VInt 378691200)])].

Definition streamable_song : QVariantMap :=
  [("id", VInt 7); ("streamable", VBool true); ("title", VString "Aria");
   ("duration", VInt 180); ("track_number", VInt 1);
   ("performer", VMap [("name", VString "Glenn Gould")]);
   ("album",
    VMap [("title", VString "Goldberg Variations");
          ("genre", VMap [("name", VString "Classique")]);
          ("image", VMap [("large", VString "http://static.qobuz.com/7.jpg")]);
          ("artist", VMap [("name", VString "Glenn Gould")]);
          ("released_at", VInt 378691200)])].

(** The three requests were answered and nothing is on its way. *)
Definition idle : World :=
  Eval vm_compute in
  after (exec 3)
    (set_event_queue
       [EvReplyFinished (ok 0 (playlists []));
        EvReplyFinished (ok 1 (tracks [track 7 "Aria"]));
        EvReplyFinished (ok 2 (playlists []))] started).

(** A song is to be played: the reply to the request for its stream is
    the next event. *)
Definition playing : World :=
  Eval vm_compute in
  set_event_queue
    [EvReplyFinished
       (ok 3 (VMap [("url", VString "http://streaming.qobuz.com/7.mp3")]))]
    idle.

(** ** Playlists, favorites and the settings page *)

Definition kCreatePlaylist : string := "/playlist/create".
Definition kDeletePlaylist : string := "/playlist/delete".

(** [QList<int>::removeOne]: the first occurrence of the value goes, if
    there is one. *)
Fixpoint QList_removeOne (x : Z) (l : list Z) : list Z :=
  match l with
  | [] => []
  | y :: r => if y =? x then r else y :: QList_removeOne x r
  end.

(** The slots of the replies to the requests that create, delete and
    rename a playlist, with the arguments [NewClosure] captures. *)
Inductive PlaylistSlot :=
| Slot_NewPlaylistCreated (name : string)
| Slot_PlaylistDeleted (playlist_id : Z)
| Slot_PlaylistRenamed (playlist_id : Z) (new_name : string).

(** A closure on the [finished()] signal of a reply. *)
Abbreviation Closure := (nat * PlaylistSlot)%type.

Module QobuzUrlHandler.
(** [QobuzUrlHandler::scheme] *)
Definition scheme : string := "qobuz".
End QobuzUrlHandler.

Section Playlists.
Context `{Platform}.
Variable WaitForSignal : SignalName -> M unit.

(** The songs the loop of [QobuzService::RemoveFromPlaylist] leaves. *)
Definition RemoveFromPlaylist_songs_ids (songs_ids songs_ids_to_remove : list Z)
  : list Z :=
  fold_left (fun ids song_id => QList_removeOne song_id ids)
    songs_ids_to_remove songs_ids.

(** [QobuzService::RemoveFromPlaylist] *)
Definition RemoveFromPlaylist (playlist_id : Z)
    (songs_ids_to_remove : list Z) : M unit :=
  infos ← gets (fun w => user_playlists_info_ (service w));
  match infos !! playlist_id with
  | None => mret tt
  | Some info =>
      SetPlaylistSongs playlist_id
        (RemoveFromPlaylist_songs_ids (songs_ids_ info) songs_ids_to_remove)
  end.

(** [QobuzService::AddCurrentSongToPlaylist]; [action_data] is the data
    of the action of the menu. *)
Definition AddCurrentSongToPlaylist (action_data : QVariant) : M unit :=
  let playlist_id := toInt action_data in
  infos ← gets (fun w => user_playlists_info_ (service w));
  match infos !! playlist_id with
  | None => mret tt
  | Some playlist =>
      current ← gets (fun w => current_song_id_ (service w));
      SetPlaylistSongs playlist_id (songs_ids_ playlist ++ [current])
  end.

(** The identifiers [QobuzService::RemoveCurrentFromFavorites] collects
    from the URLs of the selected indexes. *)
Definition selected_songs_ids (urls : list QUrl) : list Z :=
  fold_left
    (fun songs_ids u =>
       let song_id := ExtractSongIdFromUrl u in
       if song_id =? 0 then songs_ids else songs_ids ++ [song_id])
    urls [].

(** [QobuzService::RemoveCurrentFromFavorites]; [urls] holds, for each
    selected index, the URL of its data. *)
Definition RemoveCurrentFromFavorites (urls : list QUrl) : M unit :=
  RemoveFromFavorites (selected_songs_ids urls).

(** [QobuzService::CreateNewPlaylist]; [name] is the text the input
    dialog returns.  The value is the closure the function makes, and
    [None] when it returns before. *)
Definition CreateNewPlaylist (name : string) : M (option Closure) :=
  if QString_isEmpty name then mret None
  else
    reply ← CreateRequest kCreatePlaylist [("name", name)] true;
    mret (Some (reply, Slot_NewPlaylistCreated name)).

(** [QobuzService::NewPlaylistCreated] *)
Definition NewPlaylistCreated (fuel : nat) (reply : QNetworkReply)
    (name : string) : M unit :=
  result ← ExtractResult WaitForSignal fuel reply;
  if negb (isValid (value result "id")) then mret tt
  else
    let playlist_id := toInt (value result "id") in
    let name_from_server := toString (value result "name") in
    new_playlist_item ← CreatePlaylistItem name_from_server playlist_id;
    playlists ← gets (fun w => user_playlists_ (service w));
    appendRow playlists (RowItem new_playlist_item);;
    modify (on_service (fun q =>
      set_user_playlists_info_
        (<[playlist_id :=
             {| id_ := playlist_id; name_ := name_from_server;
                item_ := Some new_playlist_item; songs_ids_ := [] |}]>
           (user_playlists_info_ q)) q)).

(** [QobuzService::DeletePlaylist]; [confirmed] tells whether the
    confirmation dialog was answered with Yes. *)
Definition DeletePlaylist (confirmed : bool) (playlist_id : Z)
  : M (option Closure) :=
  infos ← gets (fun w => user_playlists_info_ (service w));
  if negb (bool_decide (is_Some (infos !! playlist_id))) then mret None
  else if negb confirmed then mret None
  else
    reply ← CreateRequest kDeletePlaylist
              [("playlist_id", QString_number playlist_id)] true;
    mret (Some (reply, Slot_PlaylistDeleted playlist_id)).

(** [QobuzService::PlaylistDeleted] *)
Definition PlaylistDeleted (fuel : nat) (reply : QNetworkReply)
    (playlist_id : Z) : M unit :=
  result ← ExtractResult WaitForSignal fuel reply;
  if negb (String.eqb (toString (value result "status")) "success") then
    mret tt
  else
    infos ← gets (fun w => user_playlists_info_ (service w));
    match infos !! playlist_id with
    | None => mret tt
    | Some playlist_info =>
        modify (on_service (set_user_playlists_info_ (delete playlist_id infos)));;
        playlists ← gets (fun w => user_playlists_ (service w));
        r ← row playlists (item_ playlist_info);
        removeRow playlists r
    end.

(** [QobuzService::RenamePlaylist]; [getText] is the input dialog: the
    text it returns when it is opened with the old name. *)
Definition RenamePlaylist (getText : string -> string) (playlist_id : Z)
  : M (option Closure) :=
  infos ← gets (fun w => user_playlists_info_ (service w));
  match infos !! playlist_id with
  | None => mret None
  | Some info =>
      let old_name := name_ info in
      let new_name := getText old_name in
      if QString_isEmpty new_name then mret None
      else
        reply ← CreateRequest kUpdatePlaylist
                  [("playlist_id", QString_number playlist_id);
                   ("name", new_name)] true;
        mret (Some (reply, Slot_PlaylistRenamed playlist_id new_name))
  end.

(** [QobuzService::PlaylistRenamed] *)
Definition PlaylistRenamed (fuel : nat) (reply : QNetworkReply)
    (playlist_id : Z) (new_name : string) : M unit :=
  result ← ExtractResult WaitForSignal fuel reply;
  if negb (isValid (value result "id")) then mret tt
  else
    infos ← gets (fun w => user_playlists_info_ (service w));
    match infos !! playlist_id with
    | None => mret tt
    | Some info =>
        set_playlist_info false playlist_id
          {| id_ := id_ info; name_ := new_name; item_ := item_ info;
             songs_ids_ := songs_ids_ info |};;
        '(i, it) ← deref (item_ info);
        modify (fun w =>
          set_items
            (<[i := {| item_text := new_name; item_rows := item_rows it |}]>
               (items w)) w)
    end.

(** The slot of a closure, called with the reply it was made for. *)
Definition call_playlist_slot (fuel : nat) (slot : PlaylistSlot)
    (reply : QNetworkReply) : M unit :=
  match slot with
  | Slot_NewPlaylistCreated name => NewPlaylistCreated fuel reply name
  | Slot_PlaylistDeleted playlist_id => PlaylistDeleted fuel reply playlist_id
  | Slot_PlaylistRenamed playlist_id new_name =>
      PlaylistRenamed fuel reply playlist_id new_name
  end.

(** [QobuzSettingsPage::Save]; [username] is the text of the user name
    field and [quality_variant] the data of the current item of the
    quality box, invalid when the box has no item. *)
Definition Save (username : string) (quality_variant : QVariant) : M unit :=
  modify (fun w =>
    set_settings (<["username" := VString username]> (settings w)) w);;
  if isValid quality_variant then
    let quality := toInt quality_variant in
    modify (fun w =>
      set_settings (<["quality" := VInt quality]> (settings w)) w);;
    modify (on_service (set_quality_ quality))
  else mret tt.

(** [QobuzSettingsPage::LoginClicked]; the texts are those of the user
    name and password fields. *)
Definition LoginClicked (username password : string) : M unit :=
  logged ← gets IsLoggedIn;
  if logged : bool then mret tt else Connect username password.

End Playlists.

(** *** Cover art of the search provider *)

(** [QobuzSearchProvider::LoadArtAsync] on the table
    [cover_loader_tasks_]; [loader_id] is the identifier
    [AlbumCoverLoader::LoadImageAsync] returns. *)
Definition LoadArtAsync (loader_id id : Z) (cover_loader_tasks_ : gmap Z Z)
  : gmap Z Z :=
  <[loader_id := id]> cover_loader_tasks_.

(** [QobuzSearchProvider::AlbumArtLoaded]: the table it leaves, and the
    identifier [ArtLoaded] is emitted with when it is emitted. *)
Definition AlbumArtLoaded (id : Z) (cover_loader_tasks_ : gmap Z Z)
  : gmap Z Z * option Z :=
  match cover_loader_tasks_ !! id with
  | None => (cover_loader_tasks_, None)
  | Some original_id => (delete id cover_loader_tasks_, Some original_id)
  end.

(** ** More notions the results are stated with *)

(** What [ExtractResult] returns for a reply whose status is not 401,
    and the program it leaves. *)
Definition reply_result (reply : QNetworkReply) : QVariantMap :=
  if HttpStatusCodeAttribute reply =? NO_ERROR
  then toMap (parsed_body reply) else [].

Definition reply_reported (reply : QNetworkReply) (w : World) : World :=
  if HttpStatusCodeAttribute reply =? NO_ERROR then w
  else set_emitted
         (emitted w ++ [ReplyError (HttpStatusCodeAttribute reply)]) w.

(** The map of playlists a retrieval works on. *)
Definition playlists_info (featured : bool) (q : QobuzService)
  : gmap Z PlaylistInfo :=
  if featured then featured_playlists_info_ q else user_playlists_info_ q.

(** What the program keeps while the user types in the search box. *)
Definition typing (w w' : World) : Prop :=
  network w' = network w /\ closures w' = closures w
  /\ access_token_ (service w') = access_token_ (service w)
  /\ valid_item (search_ (service w')) w'.

(** The request [CreateRequest] sends when it adds the token of the
    session. *)
Definition authorized_request (ressource_name : string)
    (params : list Param) (token : string) : Request :=
  {| request_url := kBaseUrl +:+ ressource_name;
     query_items := params;
     raw_headers :=
       [("x-app-id", kAppId); ("x-user-auth-token", token);
        ("Accept", "application/json")] |}.

(** The playlists a reply lists, and the identifier and the name the
    loops of [FeaturedPlaylistsRetrieved] and [UserPlaylistsRetrieved]
    read from one of them. *)
Definition listed_playlists (reply : QNetworkReply) : QVariantList :=
  toList (value (toMap (value (reply_result reply) "playlists")) "items").

Definition listed_id `{Platform} (item : QVariant) : Z :=
  toInt (value (toMap item) "id").

Definition listed_name (item : QVariant) : string :=
  toString (value (toMap item) "name").

(** The request [RefreshPlaylist] sends. *)
Definition playlist_request (playlist_id : Z) (token : string) : Request :=
  authorized_request kGetPlaylist
    [("extra", "tracks"); ("playlist_id", QString_number playlist_id)] token.

(** What a retrieval of playlists leaves of the program [w] when it
    has listed the playlists [l] below the node [node]: for each
    playlist, in the order of the list, a new item with its name hung
    below the node and a request for its songs, bound to
    [PlaylistRetrieved] with a pending request; and in the map [infos]
    an entry for the playlist with that item and no song, the last
    entry winning when an identifier is listed twice. *)
Definition playlists_listed `{Platform} (l : QVariantList) (node : nat)
    (infos : QobuzService -> gmap Z PlaylistInfo) (w w' : World) : Prop :=
  let n := next_item w in
  network w'
  = network w
    ++ ((fun item => playlist_request (listed_id item)
                       (access_token_ (service w))) <$> l)
  /\ item_rows <$> items w' !! node
     = (fun rows => rows ++ (RowItem <$> seq n (length l)))
       <$> (item_rows <$> items w !! node)
  /\ forall (k : nat) (item : QVariant),
       l !! k = Some item ->
       items w' !! (n + k)%nat
       = Some {| item_text := listed_name item; item_rows := [] |}
       /\ (exists request_id,
             closures w' !! (length (network w) + k)%nat
             = Some (Slot_PlaylistRetrieved (listed_id item) request_id)
             /\ request_id ∈ pending_retrieve_playlists_ (service w'))
       /\ (listed_id item ∉ listed_id <$> drop (S k) l ->
           infos (service w') !! listed_id item
           = Some {| id_ := listed_id item; name_ := listed_name item;
                     item_ := Some (n + k)%nat; songs_ids_ := [] |}).

(** ** More sample runs *)

(** A reply that is an error of the server. *)
Definition server_error (reply : nat) : QNetworkReply :=
  {| reply_handle := reply; HttpStatusCodeAttribute := 500;
     parsed_body := VInvalid |}.

(** A query of the global search was sent while the three requests
    of [RetrieveUserData] are on their way; the token has expired and
    the four replies have status 401, that of the search coming
    first. *)
Definition global_search_unauthorized : World :=
  Eval vm_compute in
  set_event_queue
    [EvReplyFinished (unauthorized 3); EvReplyFinished (unauthorized 0);
     EvReplyFinished (unauthorized 1); EvReplyFinished (unauthorized 2)]
    (after (SearchAsync 5 "bach") started).

(** A reply that is an error of the server although its body names
    the URL of a stream. *)
Definition error_with_url (reply : nat) : QNetworkReply :=
  {| reply_handle := reply; HttpStatusCodeAttribute := 500;
     parsed_body :=
       VMap [("url", VString "http://streaming.qobuz.com/7.mp3")] |}.

(** The user has one playlist, with two songs, and nothing is on its
    way. *)
Definition browsing : World :=
  Eval vm_compute in
  after (exec 5)
    (set_event_queue
       [EvReplyFinished (ok 0 (playlists []));
        EvReplyFinished (ok 1 (tracks [track 7 "Aria"]));
        EvReplyFinished
          (ok 2 (playlists [VMap [("id", VInt 11); ("name", VString "Jazz")]]));
        EvReplyFinished
          (ok 3 (tracks [track 8 "So What"; track 9 "Blue in Green"]))]
       started).

(** The session was logged out: the root is all that is left of the
    tree. *)
Definition logged_out : World :=
  Eval vm_compute in
  after (Logout (processEvents 9) 9) logging_out_quietly.

(** The reply to a log-in with an account that may stream. *)
Definition login_reply (reply : nat) : QNetworkReply :=
  ok reply
    (VMap [("user_auth_token", VString "s3cr3t");
           ("user",
            VMap [("id", VInt 42); ("email", VString "user@example.org");
                  ("credential",
                   VMap [("parameters",
                          VMap [("lossy_streaming", VBool true);
                                ("lossless_streaming", VBool false)])])])]).

(** ** Results *)

(** *** Texts and lists *)

Lemma string_app_cons (x : ascii) (a b : string) :
  String x a +:+ b = String x (a +:+ b).
Proof. reflexivity. Qed.

Lemma string_app_assoc (a b c : string) : (a +:+ b) +:+ c = a +:+ b +:+ c.
Proof.
  induction a as [|x a IH]; [reflexivity|].
  rewrite !string_app_cons. now rewrite IH.
Qed.

Lemma QList_at_lookup {A} (l : list A) (k : nat) :
  QList_at l (Z.of_nat k) = l !! k.
Proof.
  unfold QList_at. rewrite Nat2Z.id.
  destruct (l !! k) eqn:E.
  - pose proof (lookup_lt_Some _ _ _ E) as Hlt.
    replace (0 <=? Z.of_nat k) with true by (symmetry; apply Z.leb_le; lia).
    replace (Z.of_nat k <? Z.of_nat (length l)) with true
      by (symmetry; apply Z.ltb_lt; lia).
    reflexivity.
  - destruct (_ && _); reflexivity.
Qed.

(** *** Running the monad *)

Lemma bind_Ret {A B} (m : M A) (f : A -> M B) (w w1 : World) (a : A) :
  m w = Ret a w1 -> (m ≫= f) w = f a w1.
Proof. intros E. unfold mbind, M_bind. now rewrite E. Qed.

Lemma bind_Ret_inv {A B} (m : M A) (f : A -> M B) (w w' : World) (b : B) :
  (m ≫= f) w = Ret b w' ->
  exists a w1, m w = Ret a w1 /\ f a w1 = Ret b w'.
Proof.
  unfold mbind, M_bind. destruct (m w) as [a w1| |]; try discriminate.
  intros E. now exists a, w1.
Qed.

Ltac inv_bind E :=
  let a := fresh "a" in
  let w1 := fresh "w" in
  let E1 := fresh "E" in
  apply bind_Ret_inv in E as (a & w1 & E1 & E).

Ltac inv_prim E :=
  first [ progress (unfold gets in E) | progress (unfold modify in E)
        | progress (unfold emit, modify in E)
        | progress (unfold mret, M_ret in E) ];
  first [ injection E as <- <- | injection E as <- ].

(** *** Songs *)

Section SongResults.
Context `{Platform}.

Lemma ExtractSongs_fold (items : QVariantList) (acc : SongList) :
  fold_left
    (fun songs item =>
       let song := ExtractSong (toMap item) in
       if is_valid song then songs ++ [song] else songs)
    items acc
  = acc ++ filter (fun s => is_valid s = true)
             (map (fun item => ExtractSong (toMap item)) items).
Proof.
  revert acc. induction items as [|item items IH]; intros acc; simpl.
  - now rewrite app_nil_r.
  - rewrite IH. rewrite filter_cons.
    destruct (is_valid (ExtractSong (toMap item))) eqn:E.
    + rewrite decide_True by reflexivity. now rewrite <- app_assoc.
    + rewrite decide_False by congruence. reflexivity.
Qed.

(** C5, as amended: [ExtractSong] marks the song valid exactly when the
    map is not empty and its "streamable" member converts to true,
    whatever other members are present; a valid song carries the
    projections of the named members, any other result is the invalid
    default song; [ExtractSongs] keeps the valid songs of the "items"
    list, in order. *)
Theorem ExtractSong_valid_iff_streamable (result_song : QVariantMap)
    (result : QVariant) :
  (is_valid (ExtractSong result_song) = true
   <-> result_song <> [] /\ toBool (value result_song "streamable") = true)
  /\ (is_valid (ExtractSong result_song) = true ->
      let result_album := toMap (value result_song "album") in
      ExtractSong result_song =
      {| url := {| scheme := "qobuz";
                   path := toString (value result_song "id") |};
         artist :=
           toString (value (toMap (value result_song "performer")) "name");
         title := toString (value result_song "title");
         length_nanosec :=
           to_qint64 (to_quint64 (toULongLong (value result_song "duration")
                                  * kNsecPerSec));
         playcount := toInt (value result_song "track_number");
         album := toString (value result_album "title");
         genre := toString (value (toMap (value result_album "genre")) "name");
         art_automatic :=
           toString (value (toMap (value result_album "image")) "large");
         albumartist :=
           toString (value (toMap (value result_album "artist")) "name");
         year := QDateTime_year_of_time_t
                   (to_uint (toInt (value result_album "released_at")));
         is_valid := true |})
  /\ (is_valid (ExtractSong result_song) = false ->
      ExtractSong result_song = Song_default)
  /\ ExtractSongs result
     = filter (fun s => is_valid s = true)
         (map (fun item => ExtractSong (toMap item))
            (toList (value (toMap result) "items")))
  /\ Forall (fun s => is_valid s = true) (ExtractSongs result).
Proof.
  assert (Hs : ExtractSongs result
     = filter (fun s => is_valid s = true)
         (map (fun item => ExtractSong (toMap item))
            (toList (value (toMap result) "items")))).
  { unfold ExtractSongs. now rewrite ExtractSongs_fold. }
  assert (Hv : Forall (fun s => is_valid s = true) (ExtractSongs result)).
  { rewrite Hs. apply Forall_forall. intros s Hin.
    apply list_elem_of_filter in Hin. tauto. }
  unfold ExtractSong.
  destruct result_song as [|kv m].
  - simpl. split_and!; try easy.
    all: split; [discriminate | intros [? ?]; congruence].
  - destruct (toBool (value (kv :: m) "streamable")) eqn:E;
      cbn [isEmpty negb andb]; split_and!; try easy.
    all: split; [discriminate | intros [? ?]; congruence].
Qed.
End SongResults.

(** C5, as stated, fails: a song object in which every member
    [ExtractSong] reads is present, but whose "streamable" member is
    false, is projected to an invalid song, and one whose only member is
    a true "streamable" to a valid one. *)
Lemma ExtractSong_fields_present_invalid :
  fields_present song_fields unstreamable_song = true
  /\ is_valid (ExtractSong unstreamable_song) = false
  /\ fields_present ["id"; "title"; "duration"; "album"]
       [("streamable", VBool true)] = false
  /\ is_valid (ExtractSong [("streamable", VBool true)]) = true.
Proof. vm_compute. repeat split. Qed.

Lemma ExtractSong_valid_witness :
  is_valid (ExtractSong streamable_song) = true
  /\ ExtractSong streamable_song =
     {| url := {| scheme := "qobuz"; path := "7" |};
        artist := "Glenn Gould"; title := "Aria";
        length_nanosec := 180000000000; playcount := 1;
        album := "Goldberg Variations"; genre := "Classique";
        art_automatic := "http://static.qobuz.com/7.jpg";
        albumartist := "Glenn Gould"; year := 1982; is_valid := true |}.
Proof.
  assert (V : is_valid (ExtractSong streamable_song) = true) by reflexivity.
  split; [exact V|].
  rewrite (proj1 (proj2 (ExtractSong_valid_iff_streamable streamable_song
                           VInvalid)) V).
  vm_compute. reflexivity.
Defined.

(** *** The list of identifiers *)

Lemma comma_terminated_snoc (l : list Z) (x : Z) :
  comma_terminated (l ++ [x])
  = comma_terminated l +:+ QString_number x +:+ ",".
Proof.
  induction l as [|y l IH]; simpl.
  - reflexivity.
  - rewrite IH. now rewrite !string_app_assoc.
Qed.

Lemma SongsIdsToStringParameter_loop_take (songs : list Z) (k : nat) :
  (k <= length songs)%nat ->
  SongsIdsToStringParameter_loop songs k
  = Some (comma_terminated (take k songs)).
Proof.
  unfold SongsIdsToStringParameter_loop.
  induction k as [|k IH]; intros Hk.
  - reflexivity.
  - rewrite seq_S, fold_left_app, IH by lia. simpl.
    rewrite QList_at_lookup.
    destruct (songs !! k) as [x|] eqn:E.
    + simpl. rewrite (take_S_r _ _ _ E), comma_terminated_snoc.
      now rewrite ?string_app_assoc.
    + apply lookup_ge_None in E. lia.
Qed.

Lemma concat_comma_snoc (l : list Z) (x : Z) :
  String.concat "," (map QString_number (l ++ [x]))
  = comma_terminated l +:+ QString_number x.
Proof.
  induction l as [|y l IH].
  - reflexivity.
  - change (map QString_number ((y :: l) ++ [x]))
      with (QString_number y :: map QString_number (l ++ [x])).
    destruct (map QString_number (l ++ [x])) as [|z r] eqn:E.
    + destruct l; discriminate.
    + change (String.concat "," (QString_number y :: z :: r))
        with (QString_number y +:+ "," +:+ String.concat "," (z :: r)).
      rewrite IH. simpl. now rewrite !string_app_assoc.
Qed.

(** C9: for a list that is not empty [SongsIdsToStringParameter] gives
    the identifiers in order, in base 10, with one comma between two of
    them and none at the end, its last access being at index
    [length - 1]; for the empty list the access after the loop is outside
    the list; [RemoveFromFavorites] returns at once for the empty list,
    [SetPlaylistSongs] reaches the faulty access. *)
Theorem SongsIdsToStringParameter_spec (songs : list Z) :
  (songs <> [] ->
   SongsIdsToStringParameter songs
   = Some (String.concat "," (map QString_number songs))
   /\ SongsIdsToStringParameter_last_index songs
      = Z.of_nat (length songs) - 1)
  /\ SongsIdsToStringParameter [] = None
  /\ QList_at (@nil Z) (SongsIdsToStringParameter_last_index []) = None
  /\ QList_at (@nil Z) (Z.of_nat (length (@nil Z)) - 1) = None
  /\ (forall w, RemoveFromFavorites [] w = Ret tt w)
  /\ (forall playlist_id w,
        playlist_retrieval_pending w = false ->
        SetPlaylistSongs playlist_id [] w = Fault).
Proof.
  split_and!; try reflexivity.
  - intros Hne.
    destruct (exists_last Hne) as (l & x & ->).
    assert (Hn : Z.to_nat (Z.of_nat (length (l ++ [x])) - 1) = length l).
    { rewrite length_app. simpl. lia. }
    assert (Hi : SongsIdsToStringParameter_last_index (l ++ [x])
                 = Z.of_nat (length l)).
    { unfold SongsIdsToStringParameter_last_index.
      now rewrite Hn, length_seq. }
    split.
    + unfold SongsIdsToStringParameter.
      rewrite Hn, SongsIdsToStringParameter_loop_take
        by (rewrite length_app; lia).
      rewrite Hi, QList_at_lookup. simpl.
      rewrite take_app_length, list_lookup_middle by reflexivity. simpl.
      now rewrite concat_comma_snoc.
    + rewrite Hi, length_app. simpl. lia.
  - intros playlist_id w Hp. unfold SetPlaylistSongs.
    unfold mbind, M_bind, gets. now rewrite Hp.
Qed.

Lemma SongsIdsToStringParameter_witness :
  SongsIdsToStringParameter [12; -3; 456] = Some "12,-3,456"
  /\ playlist_retrieval_pending idle = false
  /\ SetPlaylistSongs 11 [] idle = Fault.
Proof.
  assert (Hne : [12; -3; 456] <> []) by discriminate.
  assert (Hp : playlist_retrieval_pending idle = false)
    by (vm_compute; reflexivity).
  split_and!.
  - rewrite (proj1 (proj1 (SongsIdsToStringParameter_spec [12; -3; 456]) Hne)).
    reflexivity.
  - exact Hp.
  - exact (proj2 (proj2 (proj2 (proj2 (proj2
             (SongsIdsToStringParameter_spec [])))))
             11 idle Hp).
Defined.

(** *** Catalog searches *)

(** C8: [DoSearch] sends one request, to /catalog/search, with exactly
    the parameters limit=100, query=the pending search text and
    type=tracks; [SimpleSearch] sends one to the same end point with
    exactly limit=30, query=its text and type=tracks. *)
Theorem search_requests_fixed_parameters (text : string) (w : World) :
  QString_number kSongSearchLimit = "100"
  /\ QString_number kSongSimpleSearchLimit = "30"
  /\ (valid_item (search_ (service w)) w ->
      exists w',
        DoSearch w = Ret tt w'
        /\ network w'
           = network w
             ++ [search_request 100 (pending_search_ (service w))
                   (access_token_ (service w))])
  /\ (forall w', DoSearch w = Ret tt w' ->
        network w'
        = network w
          ++ [search_request 100 (pending_search_ (service w))
                (access_token_ (service w))])
  /\ exists w',
       SimpleSearch text w = Ret (next_pending_search_id_ (service w)) w'
       /\ network w'
          = network w ++ [search_request 30 text (access_token_ (service w))].
Proof.
  assert (Hpartial : forall w', DoSearch w = Ret tt w' ->
        network w'
        = network w
          ++ [search_request 100 (pending_search_ (service w))
                (access_token_ (service w))]).
  { intros w'. unfold DoSearch, ClearSearchResults, removeRows_all, deref.
    unfold mbind, M_bind, gets. simpl.
    destruct (search_ (service w)) as [s|]; simpl.
    - destruct (items w !! s) as [it|]; simpl; [|discriminate].
      intros [= <-]. reflexivity.
    - intros [= <-]. reflexivity. }
  split_and!; try reflexivity; try exact Hpartial.
  - intros Hv. unfold DoSearch, ClearSearchResults, removeRows_all, deref.
    unfold mbind, M_bind, gets. simpl.
    destruct (search_ (service w)) as [s|] eqn:Es; simpl.
    + destruct (Hv s eq_refl) as [it Hit]. rewrite Hit. simpl.
      eexists. split; reflexivity.
    + eexists. split; reflexivity.
  - eexists. split; reflexivity.
Qed.

Lemma search_requests_witness :
  valid_item (search_ (service idle)) idle
  /\ exists w',
       DoSearch (on_service (set_pending_search_ "bach") idle) = Ret tt w'
       /\ query_items <$> last (network w')
          = Some [("limit", "100"); ("query", "bach"); ("type", "tracks")].
Proof.
  assert (Hv : forall p, valid_item (search_ (service idle))
                 (on_service (set_pending_search_ p) idle)).
  { intros p i Hi. vm_compute in Hi. injection Hi as <-. vm_compute. eauto. }
  split.
  - intros i Hi. exact (Hv "" i Hi).
  - destruct (proj1 (proj2 (proj2 (search_requests_fixed_parameters ""
                (on_service (set_pending_search_ "bach") idle))))
                (Hv "bach"))
      as (w' & E & N).
    exists w'. split; [exact E|]. rewrite N, last_snoc.
    vm_compute. reflexivity.
Defined.

(** *** The streaming URL *)

Section StreamingUrl.
Context `{Platform}.
Variable WaitForSignal : SignalName -> M unit.

(** C4, as amended: [GetStreamingUrlFromSongId] sends, whatever the
    reply will be, one request to /track/getFileUrl that carries
    format_id, intent=stream and track_id, then request_ts and
    request_sig, the signature being the MD5 digest, in hexadecimal,
    of "trackgetFileUrl" followed by the three name-value pairs, the
    time stamp and the application secret, and waits for its reply.
    For a reply of status 200 the function returns the "url" member of
    the JSON body, which [StartLoading] hands on; for a reply of any
    other status it returns the empty URL after [ReplyError], for
    status 401 once the [Logout] that [ExtractResult] calls has
    returned. *)
Theorem GetStreamingUrlFromSongId_signed (fuel : nat) (u : QUrl)
    (w : World) :
  let id := path u in
  let quality := quality_ (service w) in
  let reply := length (network w) in
  let parameters :=
    [("format_id", QString_number quality); ("intent", "stream");
     ("track_id", id); ("request_ts", QString_number (clock w));
     ("request_sig",
      Md5_toHex
        ("trackgetFileUrl" +:+ "format_id" +:+ QString_number quality
         +:+ "intent" +:+ "stream" +:+ "track_id" +:+ id
         +:+ QString_number (clock w) +:+ kAppSecret))] in
  let sent :=
    set_network
      (network w
       ++ [{| request_url := kBaseUrl +:+ kSteamUrl;
              query_items := parameters;
              raw_headers :=
                [("x-app-id", kAppId);
                 ("x-user-auth-token", access_token_ (service w));
                 ("Accept", "application/json")] |}]) w in
  QString_remove_char "/"%char kSteamUrl = "trackgetFileUrl"
  /\ GetStreamingUrl_parameters quality id (clock w) = parameters
  /\ streaming_request_sent id w = sent
  /\ (WaitForSignal (SIGNAL_finished reply) sent = Hang ->
      GetStreamingUrlFromSongId WaitForSignal fuel id w = Hang)
  /\ (WaitForSignal (SIGNAL_finished reply) sent = Fault ->
      GetStreamingUrlFromSongId WaitForSignal fuel id w = Fault)
  /\ (forall w2 r,
        WaitForSignal (SIGNAL_finished reply) sent = Ret tt w2 ->
        finished_replies w2 !! reply = Some r ->
        let status := HttpStatusCodeAttribute r in
        (status = NO_ERROR ->
         GetStreamingUrlFromSongId WaitForSignal fuel id w
         = Ret (toUrl (value (toMap (parsed_body r)) "url")) w2
         /\ StartLoading WaitForSignal fuel u w
            = Ret (u, toUrl (value (toMap (parsed_body r)) "url")) w2)
        /\ (status <> NO_ERROR ->
            status <> UNAUTHORIZED ->
            GetStreamingUrlFromSongId WaitForSignal fuel id w
            = Ret "" (set_emitted (emitted w2 ++ [ReplyError status]) w2))
        /\ (status = UNAUTHORIZED ->
            (forall w3,
               Logout WaitForSignal fuel w2 = Ret tt w3 ->
               GetStreamingUrlFromSongId WaitForSignal fuel id w
               = Ret "" (set_emitted (emitted w3 ++ [ReplyError status]) w3))
            /\ (Logout WaitForSignal fuel w2 = Hang ->
                GetStreamingUrlFromSongId WaitForSignal fuel id w = Hang))).
Proof.
  intros id quality reply parameters sent.
  assert (Hp : GetStreamingUrl_parameters quality id (clock w) = parameters).
  { unfold GetStreamingUrl_parameters. simpl.
    now rewrite !string_app_assoc. }
  assert (Hsent : streaming_request_sent id w = sent).
  { unfold streaming_request_sent, streaming_request. fold quality.
    now rewrite Hp. }
  assert (Hrun : GetStreamingUrlFromSongId WaitForSignal fuel id w
                 = (WaitForSignal (SIGNAL_finished reply);;
                    finished ← gets finished_replies;
                    match finished !! reply with
                    | None => fault
                    | Some r0 =>
                        result ← ExtractResult WaitForSignal fuel r0;
                        mret (toUrl (value result "url"))
                    end) sent).
  { rewrite <- Hsent. reflexivity. }
  split_and!.
  - reflexivity.
  - exact Hp.
  - exact Hsent.
  - intros Hwait. rewrite Hrun. unfold mbind at 1, M_bind at 1.
    now rewrite Hwait.
  - intros Hwait. rewrite Hrun. unfold mbind at 1, M_bind at 1.
    now rewrite Hwait.
  - intros w2 r Hwait Hr status.
    assert (Hres : GetStreamingUrlFromSongId WaitForSignal fuel id w
                   = (result ← ExtractResult WaitForSignal fuel r;
                      mret (toUrl (value result "url"))) w2).
    { rewrite Hrun, (bind_Ret _ _ _ _ _ Hwait).
      unfold mbind at 1, M_bind at 1, gets at 1. now rewrite Hr. }
    split_and!.
    + intros Hs.
      assert (Hg : GetStreamingUrlFromSongId WaitForSignal fuel id w
                   = Ret (toUrl (value (toMap (parsed_body r)) "url")) w2).
      { rewrite Hres. unfold ExtractResult. fold status.
        rewrite Hs. reflexivity. }
      split; [exact Hg|].
      unfold StartLoading. fold id. now rewrite (bind_Ret _ _ _ _ _ Hg).
    + intros H200 H401. apply Z.eqb_neq in H200, H401.
      rewrite Hres. unfold ExtractResult. fold status.
      rewrite H200, H401. reflexivity.
    + intros H401. rewrite Hres.
      unfold ExtractResult. fold status. rewrite H401.
      change ((UNAUTHORIZED =? NO_ERROR)) with false.
      change ((UNAUTHORIZED =? UNAUTHORIZED)) with true.
      cbn [negb]. unfold mbind, M_bind. split.
      * intros w3 Hlogout. rewrite Hlogout. reflexivity.
      * intros Hlogout. rewrite Hlogout. reflexivity.
Qed.
End StreamingUrl.

Lemma GetStreamingUrlFromSongId_witness :
  exists w2,
    StartLoading (processEvents 1) 1 {| scheme := "qobuz"; path := "7" |}
      playing
    = Ret ({| scheme := "qobuz"; path := "7" |},
           "http://streaming.qobuz.com/7.mp3") w2
    /\ query_items <$> last (network w2)
       = Some [("format_id", "5"); ("intent", "stream"); ("track_id", "7");
               ("request_ts", "1400000000");
               ("request_sig",
                "md5:trackgetFileUrlformat_id5intentstreamtrack_id71400000000")].
Proof.
  pose (r := ok 3 (VMap [("url", VString "http://streaming.qobuz.com/7.mp3")])).
  pose (w2 := after (processEvents 1 (SIGNAL_finished 3))
                (streaming_request_sent "7" playing)).
  destruct (proj2 (proj2 (proj2 (proj2 (proj2
              (GetStreamingUrlFromSongId_signed (processEvents 1) 1
                 {| scheme := "qobuz"; path := "7" |} playing))))) w2 r)
    as ((_ & E) & _);
    [vm_compute; reflexivity | vm_compute; reflexivity | reflexivity |].
  exists w2. split; [exact E|]. vm_compute. reflexivity.
Defined.

(** C4, as stated, fails: the reply to the request for a stream has
    status 500 and a JSON body with a "url" member.  The function
    returns the empty URL, not that member: [ExtractResult] gives the
    empty map for every status but 200. *)
Lemma GetStreamingUrlFromSongId_error_reply_url :
  toUrl (value (toMap (parsed_body (error_with_url 3))) "url")
  = "http://streaming.qobuz.com/7.mp3"
  /\ exists w2,
       GetStreamingUrlFromSongId (processEvents 1) 1 "7"
         (set_event_queue [EvReplyFinished (error_with_url 3)] idle)
       = Ret "" w2
       /\ finished_replies w2 !! 3%nat = Some (error_with_url 3)
       /\ last (emitted w2) = Some (ReplyError 500).
Proof.
  split; [reflexivity|].
  exists (after (GetStreamingUrlFromSongId (processEvents 1) 1 "7")
            (set_event_queue [EvReplyFinished (error_with_url 3)] idle)).
  vm_compute. repeat split.
Qed.

(** *** Logging out *)

Lemma index_of_item_lt (rows : list Row) (child k : nat) :
  index_of_item rows child = Some k -> (k < length rows)%nat.
Proof.
  revert k. induction rows as [|[c|s] rows IH]; intros k; simpl.
  - discriminate.
  - destruct (Nat.eqb c child).
    + intros [= <-]. lia.
    + destruct (index_of_item rows child) as [j|]; simpl; [|discriminate].
      intros [= <-]. specialize (IH j eq_refl). lia.
  - destruct (index_of_item rows child) as [j|]; simpl; [|discriminate].
    intros [= <-]. specialize (IH j eq_refl). lia.
Qed.

Lemma index_of_item_None (rows : list Row) (child : nat) :
  index_of_item rows child = None -> RowItem child ∉ rows.
Proof.
  induction rows as [|[c|s] rows IH]; simpl; intros E.
  - apply not_elem_of_nil.
  - destruct (Nat.eqb c child) eqn:Ec; [discriminate|].
    apply Nat.eqb_neq in Ec.
    destruct (index_of_item rows child); [discriminate|].
    apply not_elem_of_cons. split; [congruence | now apply IH].
  - destruct (index_of_item rows child); [discriminate|].
    apply not_elem_of_cons. split; [congruence | now apply IH].
Qed.

Lemma rows_without_sublist (rows : list Row) (child : nat) :
  rows_without rows child `sublist_of` rows.
Proof.
  unfold rows_without. destruct (index_of_item rows child).
  - apply sublist_delete.
  - reflexivity.
Qed.

Lemma rows_without_not_elem (rows : list Row) (child : nat) :
  NoDup rows -> RowItem child ∉ rows_without rows child.
Proof.
  unfold rows_without. induction rows as [|[c|s] rows IH]; intros Hnd.
  - apply not_elem_of_nil.
  - apply NoDup_cons in Hnd as [Hc Hnd]. simpl.
    destruct (Nat.eqb c child) eqn:Ec.
    + apply Nat.eqb_eq in Ec as ->. exact Hc.
    + apply Nat.eqb_neq in Ec. specialize (IH Hnd).
      destruct (index_of_item rows child) as [j|] eqn:Ej; simpl in *.
      * apply not_elem_of_cons. split; [congruence | exact IH].
      * apply not_elem_of_cons. split; [congruence | exact IH].
  - apply NoDup_cons in Hnd as [Hc Hnd]. simpl. specialize (IH Hnd).
    destruct (index_of_item rows child) as [j|] eqn:Ej; simpl in *.
    + apply not_elem_of_cons. split; [congruence | exact IH].
    + apply not_elem_of_cons. split; [congruence | exact IH].
Qed.

Lemma remove_opt_lookup (root : nat) (node : option nat)
    (its : gmap nat QStandardItem) (it : QStandardItem) :
  its !! root = Some it ->
  exists it',
    remove_opt root node its !! root = Some it'
    /\ item_rows it' `sublist_of` item_rows it
    /\ (NoDup (item_rows it) ->
        forall n, node = Some n -> RowItem n ∉ item_rows it').
Proof.
  intros Hit. destruct node as [n|]; simpl.
  - unfold remove_child. rewrite Hit.
    pose proof (rows_without_sublist (item_rows it) n) as Hs.
    pose proof (rows_without_not_elem (item_rows it) n) as Hn.
    unfold rows_without in Hs, Hn.
    destruct (index_of_item (item_rows it) n) as [k|].
    + rewrite lookup_insert_eq. eexists. split; [reflexivity|]. simpl.
      split; [exact Hs|]. intros Hnd m [= <-]. now apply Hn.
    + exists it. split_and!; eauto. intros Hnd m [= <-]. now apply Hn.
  - exists it. split_and!; eauto. discriminate.
Qed.

Lemma teardown_items_rows (q : QobuzService) (its : gmap nat QStandardItem)
    (root : nat) (it : QStandardItem) :
  root_ q = Some root ->
  its !! root = Some it ->
  NoDup (item_rows it) ->
  exists it',
    teardown_items q its !! root = Some it'
    /\ forall n, is_node q n -> RowItem n ∉ item_rows it'.
Proof.
  intros Hroot Hit Hnd. unfold teardown_items. rewrite Hroot.
  destruct (remove_opt_lookup root (featured_playlists_ q) _ _ Hit)
    as (it1 & H1 & S1 & N1).
  destruct (remove_opt_lookup root (user_favorites_ q) _ _ H1)
    as (it2 & H2 & S2 & N2).
  destruct (remove_opt_lookup root (user_playlists_ q) _ _ H2)
    as (it3 & H3 & S3 & N3).
  destruct (remove_opt_lookup root (search_ q) _ _ H3)
    as (it4 & H4 & S4 & N4).
  assert (D1 : NoDup (item_rows it1)) by eauto using sublist_NoDup.
  assert (D2 : NoDup (item_rows it2)) by eauto using sublist_NoDup.
  assert (D3 : NoDup (item_rows it3)) by eauto using sublist_NoDup.
  exists it4. split; [exact H4|].
  intros n [Hn|[Hn|[Hn|Hn]]] Hin.
  - now apply (N4 D3 n Hn).
  - apply (N2 D1 n Hn). eauto using elem_of_sublist.
  - apply (N1 Hnd n Hn). eauto using elem_of_sublist.
  - apply (N3 D2 n Hn). eauto using elem_of_sublist.
Qed.

Lemma remove_from_root_Ret (child : nat) (w w' : World) (u : unit) :
  remove_from_root (Some child) w = Ret u w' ->
  exists root,
    root_ (service w) = Some root
    /\ is_Some (items w !! root)
    /\ is_Some (items w !! child)
    /\ w' = set_items (remove_child root child (items w)) w.
Proof.
  unfold remove_from_root, row, removeRow, deref, set_rows, remove_child.
  unfold mbind, M_bind, mret, M_ret, gets, modify. simpl.
  destruct (root_ (service w)) as [root|]; [|discriminate].
  destruct (items w !! root) as [it|] eqn:Hr; [|discriminate].
  destruct (items w !! child) as [ci|] eqn:Hc; [|discriminate].
  rewrite Hr.
  destruct (index_of_item (item_rows it) child) as [k|] eqn:Hk.
  - pose proof (index_of_item_lt _ _ _ Hk) as Hlt.
    replace (0 <=? Z.of_nat k) with true by (symmetry; apply Z.leb_le; lia).
    replace (Z.of_nat k <? Z.of_nat (length (item_rows it))) with true
      by (symmetry; apply Z.ltb_lt; lia).
    simpl. rewrite Nat2Z.id. intros [= _ <-]. exists root. split_and!; eauto.
    now rewrite Hr, Hk.
  - simpl. intros [= _ <-]. exists root. split_and!; eauto.
    rewrite Hr, Hk. destruct w; reflexivity.
Qed.

Ltac inv_node E :=
  let E0 := fresh "E" in
  let a := fresh "a" in
  let w1 := fresh "w" in
  apply bind_Ret_inv in E as (a & w1 & E0 & E);
  unfold gets in E0; injection E0 as <- <-;
  apply bind_Ret_inv in E as (a & w1 & E0 & E);
  match type of E0 with
  | (match ?n with _ => _ end) _ = _ =>
      let Hn := fresh "Hn" in
      destruct n eqn:Hn;
      [ let E1 := fresh "E" in
        let r := fresh "root" in
        let Hr := fresh "Hroot" in
        apply bind_Ret_inv in E0 as (? & ? & E1 & E0);
        apply remove_from_root_Ret in E1 as (r & Hr & _ & _ & ->);
        unfold modify in E0; injection E0 as <- <-;
        simpl in Hr
      | unfold mret, M_ret in E0; injection E0 as <- <- ]
  end.

Lemma Logout_teardown_Ret (w w' : World) :
  Logout_teardown w = Ret tt w' ->
  access_token_ (service w') = "" /\ user_id_ (service w') = ""
  /\ quality_ (service w') = NONE
  /\ settings w'
     = delete "quality" (delete "user_id" (delete "access_token" (settings w)))
  /\ featured_playlists_ (service w') = None
  /\ user_favorites_ (service w') = None
  /\ user_playlists_ (service w') = None
  /\ search_ (service w') = None
  /\ featured_playlists_info_ (service w') = ∅
  /\ user_playlists_info_ (service w') = ∅
  /\ pending_search_ (service w') = ""
  /\ root_ (service w') = root_ (service w)
  /\ items w' = teardown_items (service w) (items w)
  /\ task_manager w' = task_manager w
  /\ emitted w' = emitted w
  /\ network w' = network w
  /\ search_provider w' = search_provider w.
Proof.
  unfold Logout_teardown. intros E.
  inv_bind E. inv_prim E0.
  inv_bind E. inv_prim E0.
  inv_node E; inv_node E; inv_node E; inv_node E.
  all: inv_bind E; inv_prim E0; inv_prim E.
  all: simplify_eq/=; unfold teardown_items.
  all: repeat match goal with
         | H : ?x = _ |- context [?x] => rewrite H
         end; simpl.
  all: split_and!; try reflexivity.
  all: destruct (root_ (service w)); reflexivity.
Qed.

Lemma StartTask_Ret (w : World) :
  StartTask w
  = Ret (next_task_id_ (task_manager w))
      (set_emitted (emitted w ++ [TasksChanged])
         (set_task_manager
            {| tasks_ := {[next_task_id_ (task_manager w)]}
                         ∪ tasks_ (task_manager w);
               next_task_id_ := to_int (next_task_id_ (task_manager w) + 1) |}
            w)).
Proof. reflexivity. Qed.

Lemma SetTaskFinished_Ret (id : Z) (w w' : World) (u : unit) :
  SetTaskFinished id w = Ret u w' ->
  service w' = service w /\ settings w' = settings w /\ items w' = items w
  /\ network w' = network w /\ search_provider w' = search_provider w
  /\ exists l, emitted w' = emitted w ++ l.
Proof.
  unfold SetTaskFinished, mbind, M_bind, gets, modify, emit, mret, M_ret.
  destruct (ContainsTask id w); simpl; intros [= _ <-]; simpl.
  - split_and!; try reflexivity. now exists [TasksChanged].
  - split_and!; try reflexivity. exists []. now rewrite app_nil_r.
Qed.

Lemma Search_empty_Ret (now : bool) (w : World) :
  valid_item (search_ (service w)) w ->
  exists w',
    Search "" now w = Ret tt w'
    /\ network w' = network w
    /\ closures w' = closures w
    /\ search_delay_ (service w') = false
    /\ pending_search_ (service w') = ""
    /\ search_ (service w') = search_ (service w)
    /\ forall s, search_ (service w) = Some s ->
         exists it, items w' !! s = Some it /\ item_rows it = [].
Proof.
  intros Hv.
  unfold Search, ClearSearchResults, removeRows_all, deref, set_rows, StartTask.
  unfold mbind, M_bind, mret, M_ret, gets, modify, emit. simpl.
  destruct (task_search_id_ (service w) =? 0); simpl.
  all: destruct (search_ (service w)) as [s|] eqn:Es; simpl.
  all: try (destruct (Hv s eq_refl) as [it Hit]; rewrite Hit; simpl).
  all: eexists; split_and!; try reflexivity; try (simpl; exact Es).
  all: first [ intros s' [= <-] | intros ? [=] ].
  all: simpl; rewrite lookup_insert_eq; eauto.
Qed.

Section LogoutResults.
Variable WaitForSignal : SignalName -> M unit.

Lemma wait_while_Ret (cond : World -> bool) (signal : SignalName)
    (fuel : nat) (w w' : World) (u : unit) :
  wait_while WaitForSignal cond signal fuel w = Ret u w' ->
  cond w' = false.
Proof.
  revert w. induction fuel as [|n IH]; intros w; simpl.
  - destruct (cond w) eqn:E; [discriminate|]. now intros [= _ <-].
  - destruct (cond w) eqn:E; [|now intros [= _ <-]].
    intros H. apply bind_Ret_inv in H as (a & w1 & _ & H). eauto.
Qed.

(** The course of a [Logout] that returns: the task it starts, the
    program at the end of the first and of the second loop, and after
    the session is torn down. *)
Lemma Logout_Ret (fuel : nat) (w w' : World) (u : unit) :
  Logout WaitForSignal fuel w = Ret u w' ->
  exists task_id w0 w1 w2 w3,
    StartTask w = Ret task_id w0
    /\ wait_while WaitForSignal tracked_task_running SIGNAL_TasksChanged
         fuel w0 = Ret tt w1
    /\ tracked_task_running w1 = false
    /\ wait_while WaitForSignal playlist_retrieval_pending
         SIGNAL_PlaylistRetrieved fuel w1 = Ret tt w2
    /\ playlist_retrieval_pending w2 = false
    /\ Logout_waits WaitForSignal fuel w = Ret task_id w2
    /\ Logout_teardown w2 = Ret tt w3
    /\ SetTaskFinished task_id w3 = Ret tt w'.
Proof.
  unfold Logout. intros E.
  apply bind_Ret_inv in E as (task_id & w2 & Ew & E).
  pose proof Ew as Ew'.
  unfold Logout_waits in Ew.
  apply bind_Ret_inv in Ew as (t & w0 & E0 & Ew).
  apply bind_Ret_inv in Ew as ([] & w1 & E1 & Ew).
  apply bind_Ret_inv in Ew as ([] & w2' & E2 & Ew).
  unfold mret, M_ret in Ew. injection Ew as -> ->.
  apply bind_Ret_inv in E as ([] & w3 & E3 & E).
  destruct u.
  exists task_id, w0, w1, w2, w3. split_and!; eauto using wait_while_Ret.
Qed.

(** C6: when [Logout] returns the two maps of playlists are empty, the
    pending search text is empty and the four nodes are no rows of the
    root any more, their pointers being null; [Search] with an empty
    text empties the rows of the search results, stops [search_delay_]
    and sends no request. *)
Theorem Logout_and_empty_Search_destroy_records (fuel : nat)
    (w w' : World) :
  Logout WaitForSignal fuel w = Ret tt w' ->
  (featured_playlists_info_ (service w') = ∅
   /\ user_playlists_info_ (service w') = ∅
   /\ pending_search_ (service w') = ""
   /\ search_ (service w') = None
   /\ user_favorites_ (service w') = None
   /\ featured_playlists_ (service w') = None
   /\ user_playlists_ (service w') = None
   /\ exists task_id w2,
        Logout_waits WaitForSignal fuel w = Ret task_id w2
        /\ forall root it,
             root_ (service w2) = Some root ->
             items w2 !! root = Some it ->
             NoDup (item_rows it) ->
             exists it',
               items w' !! root = Some it'
               /\ forall n, is_node (service w2) n ->
                    RowItem n ∉ item_rows it')
  /\ forall now v,
       valid_item (search_ (service v)) v ->
       exists v',
         Search "" now v = Ret tt v'
         /\ network v' = network v
         /\ search_delay_ (service v') = false
         /\ forall s, search_ (service v) = Some s ->
              exists it, items v' !! s = Some it /\ item_rows it = [].
Proof.
  intros E. split.
  - apply Logout_Ret in E
      as (task_id & w0 & w1 & w2 & w3 & _ & _ & _ & _ & _ & Ew & Et & Ef).
    apply Logout_teardown_Ret in Et
      as (_ & _ & _ & _ & F1 & F2 & F3 & F4 & F5 & F6 & F7 & _ & Hi & _).
    apply SetTaskFinished_Ret in Ef as (Hs & _ & Hit & _).
    rewrite Hs. split_and!; try assumption.
    exists task_id, w2. split; [exact Ew|].
    intros root it Hroot Hlook Hnd. rewrite Hit, Hi.
    eapply teardown_items_rows; eauto.
  - intros now v Hv.
    destruct (Search_empty_Ret now v Hv)
      as (v' & E1 & E2 & _ & E3 & _ & _ & E4).
    exists v'. split_and!; assumption.
Qed.
End LogoutResults.

Lemma Logout_destroys_witness :
  exists w',
    Logout (processEvents 9) 9 logging_out_quietly = Ret tt w'
    /\ featured_playlists_info_ (service w') = ∅
    /\ user_playlists_info_ (service w') = ∅
    /\ pending_search_ (service w') = ""
    /\ search_ (service w') = None
    /\ item_rows <$> items w' !! 0%nat = Some [].
Proof.
  pose (w' := after (Logout (processEvents 9) 9) logging_out_quietly).
  assert (E : Logout (processEvents 9) 9 logging_out_quietly = Ret tt w')
    by (vm_compute; reflexivity).
  destruct (Logout_and_empty_Search_destroy_records (processEvents 9) 9
              logging_out_quietly w' E)
    as [(F1 & F2 & F3 & F4 & _) _].
  exists w'. split_and!; try assumption.
  vm_compute. reflexivity.
Defined.

(** *** Routing of search replies *)

Lemma to_int_succ (a : Z) : to_int (to_int a + 1) = to_int (a + 1).
Proof.
  unfold to_int.
  replace ((a + 2 ^ 31) mod 2 ^ 32 - 2 ^ 31 + 1 + 2 ^ 31)
    with ((a + 2 ^ 31) mod 2 ^ 32 + 1) by lia.
  replace (a + 1 + 2 ^ 31) with (a + 2 ^ 31 + 1) by lia.
  now rewrite Zplus_mod_idemp_l.
Qed.

Lemma to_int_fresh (sid k : Z) :
  is_int sid -> 0 <= k -> k + 1 < 2 ^ 32 -> to_int (sid + 1 + k) <> sid.
Proof.
  unfold is_int, to_int. intros Hs Hk Hlt E.
  assert (Hm : (sid + 1 + k + 2 ^ 31) mod 2 ^ 32 = sid + 2 ^ 31) by lia.
  destruct (Z_lt_dec (sid + 1 + k + 2 ^ 31) (2 ^ 32)) as [Hsm|Hla].
  - rewrite Z.mod_small in Hm by lia. lia.
  - assert (Hd : (sid + 1 + k + 2 ^ 31) mod 2 ^ 32
                 = sid + 1 + k + 2 ^ 31 - 2 ^ 32).
    { symmetry. apply Z.mod_unique with (q := 1); lia. }
    lia.
Qed.

Section Routing.
Context `{Platform}.

Lemma SearchAsync_Ret (id : Z) (query : string) (w : World) :
  exists w',
    SearchAsync id query w = Ret tt w'
    /\ pending_searches_ (search_provider w')
       = <[next_pending_search_id_ (service w) :=
             {| orig_id_ := id; tokens_ := TokenizeQuery query |}]>
           (pending_searches_ (search_provider w))
    /\ next_pending_search_id_ (service w')
       = to_int (next_pending_search_id_ (service w) + 1)
    /\ closures w'
       = <[length (network w) :=
             Slot_SimpleSearchFinished (next_pending_search_id_ (service w))]>
           (closures w)
    /\ network w'
       = network w ++ [search_request 30 query (access_token_ (service w))]
    /\ emitted w' = emitted w.
Proof. eexists. split_and!; reflexivity. Qed.

Lemma emit_SimpleSearchResults_Ret (service_id : Z) (songs : SongList)
    (w : World) :
  let st := default {| orig_id_ := -1; tokens_ := [] |}
              (pending_searches_ (search_provider w) !! service_id) in
  exists w' l,
    emit_SimpleSearchResults service_id songs w = Ret tt w'
    /\ pending_searches_ (search_provider w')
       = delete service_id (pending_searches_ (search_provider w))
    /\ service w' = service w
    /\ emitted w'
       = emitted w
         ++ [SimpleSearchResults service_id songs;
             ResultsAvailable (orig_id_ st) (results_of songs)] ++ l
    /\ Forall (fun s => s = SearchFinished (orig_id_ st)) l.
Proof.
  intros st.
  unfold emit_SimpleSearchResults, SearchDone, MaybeSearchFinished,
    set_pending_searches_.
  unfold mbind, M_bind, mret, M_ret, gets, modify, emit. simpl. fold st.
  destruct (bool_decide _); simpl.
  - eexists. exists [SearchFinished (orig_id_ st)].
    split_and!; try reflexivity.
    + simpl. now rewrite <- !app_assoc.
    + repeat constructor.
  - eexists. exists []. split_and!; try reflexivity.
    + simpl. now rewrite <- !app_assoc.
    + constructor.
Qed.

Lemma run_ops_keep (ops : list SearchOp) (sid k : Z) (st : PendingState)
    (w : World) :
  is_int sid -> 0 <= k -> k + Z.of_nat (length ops) < 2 ^ 32 ->
  Forall (fun op => ~ answers sid op) ops ->
  pending_searches_ (search_provider w) !! sid = Some st ->
  next_pending_search_id_ (service w) = to_int (sid + 1 + k) ->
  exists w',
    for_each ops run_op w = Ret tt w'
    /\ pending_searches_ (search_provider w') !! sid = Some st.
Proof.
  intros Hsid. revert k w.
  induction ops as [|op ops IH]; intros k w Hk Hlen Hops Hp Hn.
  - exists w. split; [reflexivity | exact Hp].
  - apply Forall_cons in Hops as [Hop Hops].
    rewrite length_cons in Hlen.
    destruct op as [id query|i songs]; simpl.
    + destruct (SearchAsync_Ret id query w)
        as (w1 & E1 & P1 & N1 & _).
      rewrite (bind_Ret _ _ _ _ _ E1).
      apply (IH (k + 1)); try lia; try assumption.
      * rewrite P1, lookup_insert_ne; [exact Hp|].
        rewrite Hn. apply to_int_fresh; [assumption | lia | lia].
      * rewrite N1, Hn, to_int_succ. f_equal. lia.
    + destruct (emit_SimpleSearchResults_Ret i songs w)
        as (w1 & l & E1 & P1 & S1 & _).
      rewrite (bind_Ret _ _ _ _ _ E1).
      apply (IH k); try lia; try assumption.
      * rewrite P1, lookup_delete_ne; [exact Hp|].
        simpl in Hop. congruence.
      * now rewrite S1.
Qed.

(** The table of pending searches: [SearchAsync] files the caller's
    request id under the identifier [SimpleSearch] returns and binds
    the reply to
    [SimpleSearchFinished] with that identifier; whatever queries and
    signals of other searches come in between, the entry is still
    there afterwards; when [SimpleSearchResults] is then emitted with
    the identifier, as [SimpleSearchFinished] does for the reply,
    [SearchDone] takes the entry out and emits [ResultsAvailable] with
    the caller's request id and the songs. *)
Theorem search_reply_routed_to_caller
    (WaitForSignal : SignalName -> M unit) (fuel : nat)
    (id : Z) (query : string) (ops : list SearchOp) (w : World) :
  let service_id := next_pending_search_id_ (service w) in
  let state := {| orig_id_ := id; tokens_ := TokenizeQuery query |} in
  is_int service_id ->
  Z.of_nat (length ops) < 2 ^ 32 ->
  Forall (fun op => ~ answers service_id op) ops ->
  exists w1 w2,
    SearchAsync id query w = Ret tt w1
    /\ pending_searches_ (search_provider w1) !! service_id = Some state
    /\ closures w1 !! length (network w)
       = Some (Slot_SimpleSearchFinished service_id)
    /\ for_each ops run_op w1 = Ret tt w2
    /\ pending_searches_ (search_provider w2) !! service_id = Some state
    /\ (forall songs, exists w3 l,
          emit_SimpleSearchResults service_id songs w2 = Ret tt w3
          /\ pending_searches_ (search_provider w3) !! service_id = None
          /\ emitted w3
             = emitted w2
               ++ [SimpleSearchResults service_id songs;
                   ResultsAvailable id (results_of songs)] ++ l
          /\ Forall (fun s => s = SearchFinished id) l)
    /\ (forall reply,
          HttpStatusCodeAttribute reply = NO_ERROR ->
          call_slot WaitForSignal fuel
            (Slot_SimpleSearchFinished service_id) reply w2
          = emit_SimpleSearchResults service_id
              (ExtractSongs (value (toMap (parsed_body reply)) "tracks"))
              w2).
Proof.
  intros service_id state Hint Hlen Hops.
  destruct (SearchAsync_Ret id query w) as (w1 & E1 & P1 & N1 & C1 & _).
  assert (Hp1 : pending_searches_ (search_provider w1) !! service_id
                = Some state).
  { rewrite P1. apply lookup_insert_eq. }
  destruct (run_ops_keep ops service_id 0 state w1 Hint)
    as (w2 & E2 & P2); try lia; try assumption.
  { rewrite N1. f_equal. unfold service_id. lia. }
  exists w1, w2. split_and!; try assumption.
  - rewrite C1. apply lookup_insert_eq.
  - intros songs.
    destruct (emit_SimpleSearchResults_Ret service_id songs w2)
      as (w3 & l & E3 & P3 & _ & M3 & L3).
    rewrite P2 in M3, L3. simpl in M3, L3.
    exists w3, l. split_and!; try assumption.
    rewrite P3. apply lookup_delete_eq.
  - intros reply Hstatus. simpl.
    unfold SimpleSearchFinished, ExtractResult.
    now rewrite Hstatus.
Qed.
End Routing.

Lemma search_reply_routed_witness :
  exists w2 w3,
    (SearchAsync 5 "bach";;
     for_each [OpSearchAsync 6 "miles"; OpSimpleSearchResults 1 []] run_op)
      idle = Ret tt w2
    /\ call_slot (processEvents 0) 0 (Slot_SimpleSearchFinished 0)
         (ok 3 (tracks [track 8 "Air"])) w2 = Ret tt w3
    /\ pending_searches_ (search_provider w3) !! 0 = None
    /\ exists songs,
         drop (length (emitted w2)) (emitted w3)
         = [SimpleSearchResults 0 songs;
            ResultsAvailable 5 (results_of songs); SearchFinished 5].
Proof.
  assert (Hint : is_int (next_pending_search_id_ (service idle)))
    by (change (is_int 0); unfold is_int; lia).
  assert (Hlen : Z.of_nat (length [OpSearchAsync 6 "miles";
                                   OpSimpleSearchResults 1 []]) < 2 ^ 32)
    by reflexivity.
  assert (Hops : Forall (fun op => ~ answers
                           (next_pending_search_id_ (service idle)) op)
                   [OpSearchAsync 6 "miles"; OpSimpleSearchResults 1 []]).
  { change (next_pending_search_id_ (service idle)) with 0.
    repeat constructor; simpl; [tauto | discriminate]. }
  destruct (search_reply_routed_to_caller (processEvents 0) 0 5 "bach"
              _ idle Hint Hlen Hops)
    as (w1 & w2 & E1 & _ & _ & E2 & _ & Hemit & Hslot).
  pose (songs := ExtractSongs
                   (value (toMap (parsed_body (ok 3 (tracks [track 8 "Air"]))))
                      "tracks")).
  destruct (Hemit songs) as (w3 & l & E3 & P3 & M3 & L3).
  exists w2, w3. split_and!.
  - now rewrite (bind_Ret _ _ _ _ _ E1).
  - rewrite Hslot by reflexivity. exact E3.
  - exact P3.
  - exists songs. revert E3 E2 E1. clear. intros E3 E2 E1.
    vm_compute in E1. injection E1 as <-.
    vm_compute in E2. injection E2 as <-.
    vm_compute in E3. injection E3 as <-.
    vm_compute. reflexivity.
Defined.

(** C1: a query of the global search is on its way while the three
    requests of [RetrieveUserData] are, and the token has expired: the
    four replies have status 401.  [SimpleSearchFinished] calls
    [ExtractResult] and that [Logout], which waits for the tracked
    tasks; the slots of the three other replies, run by the nested
    loop, wait in the same way, each for the task it would finish
    itself, and no event is left.  So [ExtractResult] does not return
    in [SimpleSearchFinished], [SimpleSearchResults] is not emitted
    and the caller is not answered, whether the reply of the search
    comes first or last and with whatever fuel the model is run.  The
    same reply is routed back to the caller, with no result, when no
    tracked task is running or when the other replies have status
    200. *)
Theorem unauthorized_global_search_reply_hangs (fuel : nat) :
  pending_searches_ (search_provider global_search_unauthorized) !! 0
  = Some {| orig_id_ := 5; tokens_ := ["bach"] |}
  /\ closures global_search_unauthorized !! 3%nat
     = Some (Slot_SimpleSearchFinished 0)
  /\ tracked_task_running global_search_unauthorized = true
  /\ exec fuel global_search_unauthorized = Hang
  /\ ExtractResult (processEvents fuel) fuel (unauthorized 3)
       (set_event_queue
          [EvReplyFinished (unauthorized 0); EvReplyFinished (unauthorized 1);
           EvReplyFinished (unauthorized 2)] global_search_unauthorized)
     = Hang
  /\ SimpleSearchFinished (processEvents fuel) fuel (unauthorized 3) 0
       (set_event_queue
          [EvReplyFinished (unauthorized 0); EvReplyFinished (unauthorized 1);
           EvReplyFinished (unauthorized 2)] global_search_unauthorized)
     = Hang
  /\ exec fuel
       (set_event_queue
          [EvReplyFinished (unauthorized 0); EvReplyFinished (unauthorized 1);
           EvReplyFinished (unauthorized 2); EvReplyFinished (unauthorized 3)]
          global_search_unauthorized) = Hang
  /\ (exists w',
        deliver (processEvents 0) 0 (EvReplyFinished (unauthorized 3))
          (after (SearchAsync 5 "bach") idle) = Ret tt w'
        /\ drop (length (emitted idle)) (emitted w')
           = [finished 3; TasksChanged; TasksChanged; ReplyError 401;
              SimpleSearchResults 0 []; ResultsAvailable 5 [];
              SearchFinished 5])
  /\ (exists w',
        exec 5
          (set_event_queue
             [EvReplyFinished (unauthorized 3);
              EvReplyFinished (ok 0 (playlists []));
              EvReplyFinished (ok 1 (tracks []));
              EvReplyFinished (ok 2 (playlists []))]
             global_search_unauthorized) = Ret tt w'
        /\ drop 9 (drop (length (emitted global_search_unauthorized))
                     (emitted w'))
           = [ReplyError 401; SimpleSearchResults 0 [];
              ResultsAvailable 5 []; SearchFinished 5]).
Proof.
  split_and!; try reflexivity.
  1-4: do 6 (destruct fuel as [|fuel]; [vm_compute; reflexivity|]);
       vm_compute; reflexivity.
  - exists (after (deliver (processEvents 0) 0
                     (EvReplyFinished (unauthorized 3)))
              (after (SearchAsync 5 "bach") idle)).
    vm_compute. split; reflexivity.
  - exists (after (exec 5)
              (set_event_queue
                 [EvReplyFinished (unauthorized 3);
                  EvReplyFinished (ok 0 (playlists []));
                  EvReplyFinished (ok 1 (tracks []));
                  EvReplyFinished (ok 2 (playlists []))]
                 global_search_unauthorized)).
    vm_compute. split; reflexivity.
Qed.

(** *** Replies that are errors, and the wait of a log-out *)

Section Polling.
Variable WaitForSignal : SignalName -> M unit.

Lemma wait_while_polled (cond : World -> bool) (signal : SignalName)
    (fuel : nat) (w w' : World) (u : unit) :
  wait_while WaitForSignal cond signal fuel w = Ret u w' ->
  exists n, (n <= fuel)%nat /\ polled WaitForSignal cond signal n w w'.
Proof.
  revert w. induction fuel as [|k IH]; intros w; simpl.
  - destruct (cond w) eqn:E; [discriminate|]. intros [= _ <-].
    exists O. split; [lia | now constructor].
  - destruct (cond w) eqn:E.
    + intros Hw. apply bind_Ret_inv in Hw as ([] & w1 & E1 & Hw).
      destruct (IH _ Hw) as (n & Hn & Hp).
      exists (S n). split; [lia | eapply polled_wait; eauto].
    + intros [= _ <-]. exists O. split; [lia | now constructor].
Qed.

Lemma polled_wait_while (cond : World -> bool) (signal : SignalName)
    (n : nat) (w w' : World) :
  polled WaitForSignal cond signal n w w' ->
  forall fuel, (n <= fuel)%nat ->
    wait_while WaitForSignal cond signal fuel w = Ret tt w'.
Proof.
  induction 1 as [w Hc|n w w1 w2 Hc Hw Hp IH]; intros fuel Hf.
  - destruct fuel; simpl; now rewrite Hc.
  - destruct fuel as [|k]; [lia|]. simpl. rewrite Hc.
    rewrite (bind_Ret _ _ _ _ _ Hw). apply IH. lia.
Qed.

(** X1: [Logout] returns exactly when its two polling loops end, the
    first on [TasksChanged] until no tracked task is in the task
    manager, the second on [PlaylistRetrieved] until no retrieval of a
    playlist is pending; the session is torn down from the program the
    second loop leaves, the tracked tasks not being looked at again. *)
Theorem Logout_course (w w' : World) :
  (exists fuel, Logout WaitForSignal fuel w = Ret tt w')
  <-> exists n1 n2 w1 w2 w3,
        polled WaitForSignal tracked_task_running SIGNAL_TasksChanged n1
          (after StartTask w) w1
        /\ polled WaitForSignal playlist_retrieval_pending
             SIGNAL_PlaylistRetrieved n2 w1 w2
        /\ Logout_teardown w2 = Ret tt w3
        /\ SetTaskFinished (next_task_id_ (task_manager w)) w3 = Ret tt w'.
Proof.
  split.
  - intros [fuel E].
    apply Logout_Ret in E
      as (task_id & w0 & w1 & w2 & w3 & E0 & E1 & _ & E2 & _ & _ & E3 & E4).
    rewrite StartTask_Ret in E0. injection E0 as <- <-.
    apply wait_while_polled in E1 as (n1 & _ & P1).
    apply wait_while_polled in E2 as (n2 & _ & P2).
    exists n1, n2, w1, w2, w3. split_and!; assumption.
  - intros (n1 & n2 & w1 & w2 & w3 & P1 & P2 & E3 & E4).
    exists (n1 + n2)%nat.
    unfold after in P1. rewrite StartTask_Ret in P1.
    assert (Ew : Logout_waits WaitForSignal (n1 + n2) w
                 = Ret (next_task_id_ (task_manager w)) w2).
    { unfold Logout_waits.
      rewrite (bind_Ret _ _ _ _ _ (StartTask_Ret w)).
      rewrite (bind_Ret _ _ _ _ _
                 (polled_wait_while _ _ _ _ _ P1 _ (Nat.le_add_r n1 n2))).
      rewrite (bind_Ret _ _ _ _ _
                 (polled_wait_while _ _ _ _ _ P2 _ (Nat.le_add_l n2 n1))).
      reflexivity. }
    unfold Logout.
    rewrite (bind_Ret _ _ _ _ _ Ew), (bind_Ret _ _ _ _ _ E3). exact E4.
Qed.

Lemma ExtractResult_unauthorized (fuel : nat) (reply : QNetworkReply)
    (w w' : World) (m : QVariantMap) :
  HttpStatusCodeAttribute reply = UNAUTHORIZED ->
  ExtractResult WaitForSignal fuel reply w = Ret m w' <->
  exists w1,
    Logout WaitForSignal fuel w = Ret tt w1
    /\ m = []
    /\ w' = set_emitted (emitted w1 ++ [ReplyError UNAUTHORIZED]) w1.
Proof.
  intros E. unfold ExtractResult. rewrite E. simpl.
  unfold mbind, M_bind, mret, M_ret, emit, modify.
  destruct (Logout WaitForSignal fuel w) as [[] w1| |].
  - split.
    + intros [= <- <-]. now exists w1.
    + intros (w1' & [= <-] & -> & ->). reflexivity.
  - split; [discriminate | intros (? & ? & _); discriminate].
  - split; [discriminate | intros (? & ? & _); discriminate].
Qed.

(** X2: what [ExtractResult] does with a reply, by its status: 200
    gives the map of the body and no signal; 401 calls [Logout] and,
    when that has returned, emits [ReplyError] and gives the empty
    map; any other status emits [ReplyError] and gives the empty map
    at once; a map that is not empty comes with status 200 only. *)
Theorem ExtractResult_by_status (fuel : nat) (reply : QNetworkReply)
    (w : World) :
  let status := HttpStatusCodeAttribute reply in
  (status = NO_ERROR ->
   ExtractResult WaitForSignal fuel reply w
   = Ret (toMap (parsed_body reply)) w)
  /\ (status <> NO_ERROR -> status <> UNAUTHORIZED ->
      ExtractResult WaitForSignal fuel reply w
      = Ret [] (set_emitted (emitted w ++ [ReplyError status]) w))
  /\ (status = UNAUTHORIZED ->
      forall m w',
        ExtractResult WaitForSignal fuel reply w = Ret m w' <->
        exists w1,
          Logout WaitForSignal fuel w = Ret tt w1
          /\ m = []
          /\ w' = set_emitted (emitted w1 ++ [ReplyError status]) w1)
  /\ (forall m w',
        ExtractResult WaitForSignal fuel reply w = Ret m w' ->
        m <> [] -> status = NO_ERROR).
Proof.
  intros status.
  assert (H200 : status = NO_ERROR ->
     ExtractResult WaitForSignal fuel reply w
     = Ret (toMap (parsed_body reply)) w).
  { intros E. unfold ExtractResult. fold status. now rewrite E. }
  assert (Herr : status <> NO_ERROR -> status <> UNAUTHORIZED ->
      ExtractResult WaitForSignal fuel reply w
      = Ret [] (set_emitted (emitted w ++ [ReplyError status]) w)).
  { intros E1 E2. unfold ExtractResult. fold status.
    apply Z.eqb_neq in E1, E2. now rewrite E1, E2. }
  split_and!; try assumption.
  - intros E m w'. rewrite E. now apply ExtractResult_unauthorized.
  - intros m w' E Hne.
    destruct (Z.eq_dec status NO_ERROR) as [|H1]; [assumption|].
    destruct (Z.eq_dec status UNAUTHORIZED) as [H2|H2].
    + apply (ExtractResult_unauthorized _ _ _ _ _ H2) in E
        as (w1 & _ & -> & _). congruence.
    + rewrite (Herr H1 H2) in E. injection E as <- _. congruence.
Qed.

(** X3: when [ExtractResult] returns from a reply of status 401 the
    session is logged out: the token and the user are empty, the
    quality is NONE, the three settings are removed and [IsLoggedIn]
    is false. *)
Theorem ExtractResult_unauthorized_logged_out (fuel : nat)
    (reply : QNetworkReply) (w w' : World) (m : QVariantMap) :
  HttpStatusCodeAttribute reply = UNAUTHORIZED ->
  ExtractResult WaitForSignal fuel reply w = Ret m w' ->
  access_token_ (service w') = ""
  /\ user_id_ (service w') = ""
  /\ quality_ (service w') = NONE
  /\ settings w' !! "access_token" = None
  /\ settings w' !! "user_id" = None
  /\ settings w' !! "quality" = None
  /\ IsLoggedIn w' = false.
Proof.
  intros Hs E.
  apply (ExtractResult_unauthorized _ _ _ _ _ Hs) in E as (w1 & E & _ & ->).
  apply Logout_Ret in E
    as (task_id & w0 & w1' & w2 & w3 & _ & _ & _ & _ & _ & _ & Et & Ef).
  apply Logout_teardown_Ret in Et as (T1 & T2 & T3 & T4 & _).
  apply SetTaskFinished_Ret in Ef as (Hsv & Hst & _).
  simpl. unfold IsLoggedIn. simpl. rewrite Hsv, Hst, T1, T2, T3, T4.
  split_and!; try reflexivity.
  - rewrite lookup_delete_ne, lookup_delete_ne, lookup_delete_eq; done.
  - rewrite lookup_delete_ne, lookup_delete_eq; done.
  - now rewrite lookup_delete_eq.
Qed.
End Polling.

Lemma ExtractResult_unauthorized_witness :
  exists w',
    ExtractResult (processEvents 0) 0 (unauthorized 3) idle = Ret [] w'
    /\ IsLoggedIn idle = true
    /\ IsLoggedIn w' = false
    /\ settings w' !! "access_token" = None
    /\ last (emitted w') = Some (ReplyError 401).
Proof.
  pose (w' := after (ExtractResult (processEvents 0) 0 (unauthorized 3)) idle).
  assert (E : ExtractResult (processEvents 0) 0 (unauthorized 3) idle
              = Ret [] w') by (vm_compute; reflexivity).
  destruct (ExtractResult_unauthorized_logged_out (processEvents 0) 0
              (unauthorized 3) idle w' [] eq_refl E)
    as (_ & _ & _ & S1 & _ & _ & L).
  exists w'. split_and!; try assumption; vm_compute; reflexivity.
Defined.

(** C2: the three requests [RetrieveUserData] sends when the tree is
    shown are each answered with status 401.  The slot of the first
    reply calls [ExtractResult] and that [Logout], which waits for the
    task the slot itself would finish after [ExtractResult]; the slots
    of the two other replies, run by the nested loop, wait in the same
    way, and no event is left: no [Logout] ever reaches the statements
    that clear the credentials, with whatever fuel the model is run. *)
Theorem unauthorized_startup_replies_hang (fuel : nat) :
  IsLoggedIn startup_unauthorized = true
  /\ exec fuel startup_unauthorized = Hang
  /\ ExtractResult (processEvents fuel) fuel (unauthorized 0)
       (set_event_queue
          [EvReplyFinished (unauthorized 1); EvReplyFinished (unauthorized 2)]
          started) = Hang
  /\ Logout_waits (processEvents fuel) fuel
       (set_event_queue
          [EvReplyFinished (unauthorized 1); EvReplyFinished (unauthorized 2)]
          started) = Hang.
Proof.
  split; [reflexivity|].
  destruct fuel as [|[|[|[|n]]]]; vm_compute; repeat split.
Qed.

(** C7: a search is on its way and its reply has status 401.
    [ExtractResult] calls [Logout], which waits for the task of the
    search, the task [SearchFinished] finishes after [ExtractResult];
    no event is left, so [ExtractResult] neither returns the empty map
    nor emits [ReplyError], with whatever fuel the model is run. *)
Theorem unauthorized_search_reply_hangs (fuel : nat) :
  (HttpStatusCodeAttribute (unauthorized 3) =? NO_ERROR) = false
  /\ ContainsTask (task_search_id_ (service searching)) searching = true
  /\ closures searching !! 3%nat = Some Slot_SearchFinished
  /\ ExtractResult (processEvents fuel) fuel (unauthorized 3) searching = Hang
  /\ deliver (processEvents fuel) fuel (EvReplyFinished (unauthorized 3))
       searching = Hang.
Proof.
  split_and!; try reflexivity.
  all: destruct fuel as [|[|n]]; vm_compute; reflexivity.
Qed.

(** C3: a song is being added to the favorites while the user logs
    out.  The first loop of [Logout] ends when the three tracked tasks
    have finished; during the second loop the reply to the addition
    arrives and [RetrieveUserFavorites] starts a tracked task; when the
    playlist is retrieved the second loop ends and the session is torn
    down although that task is in the task manager; the reply to its
    request then finds [user_favorites_] null. *)
Theorem Logout_tears_down_while_task_runs :
  exists task_id w2 w',
    Logout_waits (processEvents 9) 9 logging_out = Ret task_id w2
    /\ playlist_retrieval_pending w2 = false
    /\ tracked_task_running w2 = true
    /\ ContainsTask (task_user_favorites_id_ (service w2)) w2 = true
    /\ IsLoggedIn w2 = true
    /\ Logout (processEvents 9) 9 logging_out = Ret tt w'
    /\ IsLoggedIn w' = false
    /\ user_favorites_ (service w') = None
    /\ ContainsTask (task_user_favorites_id_ (service w')) w' = true
    /\ closures w' !! 5%nat = Some Slot_UserFavoritesRetrieved
    /\ deliver (processEvents 1) 1 (EvReplyFinished (ok 5 (tracks []))) w'
       = Fault.
Proof.
  exists 5, (after (Logout_waits (processEvents 9) 9) logging_out),
    (after (Logout (processEvents 9) 9) logging_out).
  vm_compute. repeat split.
Qed.

(** *** Songs taken out of a playlist *)

Lemma QList_removeOne_count (x y : Z) (l : list Z) :
  count_occ Z.eq_dec (QList_removeOne x l) y
  = if decide (y = x) then Nat.pred (count_occ Z.eq_dec l y)
    else count_occ Z.eq_dec l y.
Proof.
  induction l as [|z l IH].
  - simpl. now destruct (decide (y = x)).
  - cbn [QList_removeOne]. destruct (Z.eqb_spec z x) as [->|Hne].
    + destruct (decide (y = x)) as [->|Hxy].
      * now rewrite count_occ_cons_eq.
      * now rewrite count_occ_cons_neq by congruence.
    + destruct (Z.eq_dec z y) as [->|Hzy].
      * rewrite !count_occ_cons_eq by reflexivity.
        rewrite IH. destruct (decide (y = x)); [congruence | reflexivity].
      * rewrite !count_occ_cons_neq by assumption. apply IH.
Qed.

Lemma QList_removeOne_sublist (x : Z) (l : list Z) :
  QList_removeOne x l `sublist_of` l.
Proof.
  induction l as [|z l IH]; simpl.
  - reflexivity.
  - destruct (z =? x).
    + now apply sublist_cons_r; left.
    + now apply sublist_skip.
Qed.

Lemma RemoveFromPlaylist_songs_ids_count (songs to_remove : list Z) (x : Z) :
  count_occ Z.eq_dec (RemoveFromPlaylist_songs_ids songs to_remove) x
  = (count_occ Z.eq_dec songs x - count_occ Z.eq_dec to_remove x)%nat.
Proof.
  unfold RemoveFromPlaylist_songs_ids.
  revert songs. induction to_remove as [|y r IH]; intros songs; simpl.
  - lia.
  - rewrite IH, QList_removeOne_count.
    destruct (Z.eq_dec y x) as [->|Hne].
    + rewrite decide_True by reflexivity. lia.
    + rewrite decide_False by congruence. lia.
Qed.

Lemma RemoveFromPlaylist_songs_ids_sublist (songs to_remove : list Z) :
  RemoveFromPlaylist_songs_ids songs to_remove `sublist_of` songs.
Proof.
  unfold RemoveFromPlaylist_songs_ids.
  revert songs. induction to_remove as [|y r IH]; intros songs; simpl.
  - reflexivity.
  - etransitivity; [apply IH | apply QList_removeOne_sublist].
Qed.

(** [QList::removeOne] takes the first occurrence out. *)
Lemma QList_removeOne_first (x : Z) (l : list Z) :
  (x ∉ l -> QList_removeOne x l = l)
  /\ forall l1 l2,
       l = l1 ++ x :: l2 -> x ∉ l1 -> QList_removeOne x l = l1 ++ l2.
Proof.
  split.
  - induction l as [|y l IH]; intros Hn; cbn [QList_removeOne].
    + reflexivity.
    + apply not_elem_of_cons in Hn as [Hne Hn].
      destruct (Z.eqb_spec y x) as [->|_]; [congruence|].
      now rewrite IH.
  - intros l1. revert l.
    induction l1 as [|y l1 IH]; intros l l2 -> Hn; cbn [app QList_removeOne].
    + now rewrite Z.eqb_refl.
    + apply not_elem_of_cons in Hn as [Hne Hn].
      destruct (Z.eqb_spec y x) as [->|_]; [congruence|].
      now rewrite (IH _ l2 eq_refl Hn).
Qed.

(** X4: [RemoveFromPlaylist] does nothing for a playlist that is not
    one of the user's; for one that is, it hands [SetPlaylistSongs] the
    songs of the playlist from which the identifiers to remove were
    taken out one after the other: an identifier that is not among the
    songs left changes nothing, and of one that is, the first
    occurrence goes and the songs before and after it stay as they
    are.  So the songs handed on keep their order, and each identifier
    has lost as many occurrences as it is to be removed, or all. *)
Theorem RemoveFromPlaylist_removes_one_each (playlist_id : Z)
    (songs_ids_to_remove : list Z) (w : World) :
  let infos := user_playlists_info_ (service w) in
  (infos !! playlist_id = None ->
   RemoveFromPlaylist playlist_id songs_ids_to_remove w = Ret tt w)
  /\ (forall info,
        infos !! playlist_id = Some info ->
        let songs_ids :=
          RemoveFromPlaylist_songs_ids (songs_ids_ info) songs_ids_to_remove
        in
        RemoveFromPlaylist playlist_id songs_ids_to_remove w
        = SetPlaylistSongs playlist_id songs_ids w
        /\ songs_ids `sublist_of` songs_ids_ info
        /\ forall x,
             count_occ Z.eq_dec songs_ids x
             = (count_occ Z.eq_dec (songs_ids_ info) x
                - count_occ Z.eq_dec songs_ids_to_remove x)%nat)
  /\ (forall songs, RemoveFromPlaylist_songs_ids songs [] = songs)
  /\ (forall songs song_id rest,
        song_id ∉ songs ->
        RemoveFromPlaylist_songs_ids songs (song_id :: rest)
        = RemoveFromPlaylist_songs_ids songs rest)
  /\ (forall front back song_id rest,
        song_id ∉ front ->
        RemoveFromPlaylist_songs_ids (front ++ song_id :: back)
          (song_id :: rest)
        = RemoveFromPlaylist_songs_ids (front ++ back) rest).
Proof.
  intros infos. split_and!.
  - intros E. unfold RemoveFromPlaylist, mbind, M_bind, gets.
    fold infos. now rewrite E.
  - intros info E songs_ids. split_and!.
    + unfold RemoveFromPlaylist, mbind, M_bind, gets.
      fold infos. now rewrite E.
    + apply RemoveFromPlaylist_songs_ids_sublist.
    + apply RemoveFromPlaylist_songs_ids_count.
  - reflexivity.
  - intros songs song_id rest Hn. unfold RemoveFromPlaylist_songs_ids.
    cbn [fold_left]. now rewrite (proj1 (QList_removeOne_first song_id songs)).
  - intros front back song_id rest Hn.
    unfold RemoveFromPlaylist_songs_ids. cbn [fold_left].
    now rewrite (proj2 (QList_removeOne_first song_id _) front back eq_refl).
Qed.

(** *** Replies that are answered at once *)

Section Answered.
Variable WaitForSignal : SignalName -> M unit.

Lemma ExtractResult_answered (fuel : nat) (reply : QNetworkReply) (w : World) :
  HttpStatusCodeAttribute reply <> UNAUTHORIZED ->
  ExtractResult WaitForSignal fuel reply w
  = Ret (reply_result reply) (reply_reported reply w).
Proof.
  intros Hs. apply Z.eqb_neq in Hs.
  unfold ExtractResult, reply_result, reply_reported.
  destruct (HttpStatusCodeAttribute reply =? NO_ERROR); simpl.
  - reflexivity.
  - now rewrite Hs.
Qed.
End Answered.

Lemma reply_result_error (reply : QNetworkReply) :
  HttpStatusCodeAttribute reply <> NO_ERROR -> reply_result reply = [].
Proof.
  intros Hs. apply Z.eqb_neq in Hs. unfold reply_result. now rewrite Hs.
Qed.

(** *** The songs of a playlist are set *)

Lemma SongsIdsToStringParameter_joined (songs : list Z) :
  songs <> [] ->
  SongsIdsToStringParameter songs
  = Some (String.concat "," (map QString_number songs)).
Proof.
  intros Hne. destruct (exists_last Hne) as (l & x & ->).
  assert (Hn : Z.to_nat (Z.of_nat (length (l ++ [x])) - 1) = length l).
  { rewrite length_app. simpl. lia. }
  unfold SongsIdsToStringParameter, SongsIdsToStringParameter_last_index.
  rewrite Hn, length_seq, SongsIdsToStringParameter_loop_take
    by (rewrite length_app; lia).
  rewrite QList_at_lookup. simpl.
  rewrite take_app_length, list_lookup_middle by reflexivity. simpl.
  now rewrite concat_comma_snoc.
Qed.

(** The request [SetPlaylistSongs] sends. *)
Lemma SetPlaylistSongs_sent (playlist_id : Z) (songs_ids : list Z)
    (w : World) :
  playlist_retrieval_pending w = false ->
  songs_ids <> [] ->
  exists w',
    SetPlaylistSongs playlist_id songs_ids w = Ret tt w'
    /\ network w'
       = network w
         ++ [authorized_request kUpdatePlaylist
               [("playlist_id", QString_number playlist_id);
                ("track_ids",
                 String.concat "," (map QString_number songs_ids))]
               (access_token_ (service w))]
    /\ closures w'
       = <[length (network w) :=
             Slot_PlaylistSongsSet playlist_id
               (next_task_id_ (task_manager w))]> (closures w)
    /\ ContainsTask (next_task_id_ (task_manager w)) w' = true
    /\ service w' = service w
    /\ items w' = items w.
Proof.
  intros Hp Hne. unfold SetPlaylistSongs.
  unfold mbind at 1, M_bind at 1, gets at 1. rewrite Hp.
  rewrite (bind_Ret _ _ _ _ _ (StartTask_Ret w)).
  rewrite (SongsIdsToStringParameter_joined _ Hne).
  eexists. split; [reflexivity|]. simpl. split_and!; try reflexivity.
  unfold ContainsTask. simpl. apply bool_decide_eq_true. set_solver.
Qed.

(** X5: [SetPlaylistSongs] does nothing at all while the songs of a
    playlist are being retrieved; otherwise, for a list that is not
    empty, it starts a task and sends one request to /playlist/update
    with the playlist and the identifiers joined by commas, bound to
    [PlaylistSongsSet] with the playlist and the task. *)
Theorem SetPlaylistSongs_guarded (playlist_id : Z) (songs_ids : list Z)
    (w : World) :
  (playlist_retrieval_pending w = true ->
   SetPlaylistSongs playlist_id songs_ids w = Ret tt w)
  /\ (playlist_retrieval_pending w = false ->
      songs_ids <> [] ->
      exists w',
        SetPlaylistSongs playlist_id songs_ids w = Ret tt w'
        /\ network w'
           = network w
             ++ [authorized_request kUpdatePlaylist
                   [("playlist_id", QString_number playlist_id);
                    ("track_ids",
                     String.concat "," (map QString_number songs_ids))]
                   (access_token_ (service w))]
        /\ closures w'
           = <[length (network w) :=
                 Slot_PlaylistSongsSet playlist_id
                   (next_task_id_ (task_manager w))]> (closures w)
        /\ ContainsTask (next_task_id_ (task_manager w)) w' = true).
Proof.
  split.
  - intros Hp. unfold SetPlaylistSongs, mbind, M_bind, gets. now rewrite Hp.
  - intros Hp Hne.
    destruct (SetPlaylistSongs_sent playlist_id songs_ids w Hp Hne)
      as (w' & E & N & C & T & _).
    now exists w'.
Qed.

Section PlaylistSongs.
Context `{Platform}.


(** X7: [AddCurrentSongToPlaylist] does nothing for an action whose
    data names no playlist of the user; for one that does, and no
    retrieval being pending, it sends the songs of the playlist
    followed by the current song, so the list it hands on is never
    empty. *)
Theorem AddCurrentSongToPlaylist_appends (action_data : QVariant)
    (w : World) :
  let playlist_id := toInt action_data in
  let infos := user_playlists_info_ (service w) in
  (infos !! playlist_id = None ->
   AddCurrentSongToPlaylist action_data w = Ret tt w)
  /\ forall playlist,
       infos !! playlist_id = Some playlist ->
       playlist_retrieval_pending w = false ->
       exists w',
         AddCurrentSongToPlaylist action_data w = Ret tt w'
         /\ network w'
            = network w
              ++ [authorized_request kUpdatePlaylist
                    [("playlist_id", QString_number playlist_id);
                     ("track_ids",
                      String.concat ","
                        (map QString_number
                           (songs_ids_ playlist
                            ++ [current_song_id_ (service w)])))]
                    (access_token_ (service w))]
         /\ closures w'
            = <[length (network w) :=
                  Slot_PlaylistSongsSet playlist_id
                    (next_task_id_ (task_manager w))]> (closures w).
Proof.
  intros playlist_id infos. split.
  - intros E. unfold AddCurrentSongToPlaylist, mbind, M_bind, gets.
    fold playlist_id infos. now rewrite E.
  - intros playlist E Hp.
    assert (Hne : songs_ids_ playlist ++ [current_song_id_ (service w)] <> [])
      by (now destruct (songs_ids_ playlist)).
    destruct (SetPlaylistSongs_sent playlist_id _ w Hp Hne)
      as (w' & E' & N & C & _).
    exists w'. split_and!; try assumption.
    unfold AddCurrentSongToPlaylist, mbind, M_bind, gets.
    fold playlist_id infos. now rewrite E.
Qed.
End PlaylistSongs.

(** *** The identifier of a song *)

Lemma pretty_N_char_digit (d : N) :
  (d < 10)%N ->
  let n := Z.of_nat (nat_of_ascii (pretty_N_char d)) in
  (48 <=? n) && (n <=? 57) = true /\ n - 48 = Z.of_N d.
Proof.
  intros Hd.
  assert (d = 0 \/ d = 1 \/ d = 2 \/ d = 3 \/ d = 4 \/ d = 5 \/ d = 6
          \/ d = 7 \/ d = 8 \/ d = 9)%N as Hc by lia.
  repeat destruct Hc as [->|Hc]; try subst d; now vm_compute.
Qed.

(** The digits [pretty_N_go] puts before a text are read as the number
    they print. *)
Lemma digits_value_pretty_N_go (x : N) :
  exists k : Z,
    0 <= k
    /\ forall s acc,
         digits_value (pretty_N_go x s) acc
         = digits_value s (acc * 10 ^ k + Z.of_N x).
Proof.
  induction (N.lt_wf_0 x) as [x _ IH].
  destruct (N.eq_dec x 0%N) as [->|Hx].
  - exists 0. split; [lia|]. intros s acc. rewrite pretty_N_go_0.
    f_equal. lia.
  - destruct (IH (x `div` 10)%N) as (k & Hk & E).
    { apply N.div_lt; lia. }
    exists (k + 1). split; [lia|]. intros s acc.
    rewrite pretty_N_go_step by lia. rewrite E.
    cbn [digits_value].
    destruct (pretty_N_char_digit (x `mod` 10)%N) as [R V].
    { apply N.mod_lt. lia. }
    cbv zeta in R, V. rewrite R, V. f_equal.
    rewrite Z.pow_add_r by lia.
    pose proof (N.div_mod x 10 ltac:(lia)) as D.
    apply (f_equal Z.of_N) in D. rewrite N2Z.inj_add, N2Z.inj_mul in D.
    change (Z.of_N 10) with 10 in D. lia.
Qed.

Lemma decimal_value_digits (s : string) (x : Z) :
  s <> "" -> digits_value s 0 = Some x -> decimal_value s = Some x.
Proof.
  destruct s as [|c r]; [congruence|]. intros _ E.
  destruct (ascii_dec c "-") as [->|Hc].
  - vm_compute in E. discriminate.
  - rewrite <- E. destruct c as [[] [] [] [] [] [] [] []];
      try reflexivity; congruence.
Qed.

Lemma pretty_N_go_read (p : positive) :
  pretty_N_go (N.pos p) "" <> ""
  /\ digits_value (pretty_N_go (N.pos p) "") 0 = Some (Z.pos p).
Proof.
  destruct (digits_value_pretty_N_go (N.pos p)) as (k & _ & E).
  specialize (E "" 0). cbn [digits_value] in E.
  replace (0 * 10 ^ k + Z.of_N (N.pos p)) with (Z.pos p) in E by lia.
  split; [|exact E].
  intros Hs. rewrite Hs in E. discriminate.
Qed.

(** The platform the model is run on reads the text of a number back. *)
Lemma decimal_value_QString_number (n : Z) :
  decimal_value (QString_number n) = Some n.
Proof.
  destruct n as [|p|p].
  - reflexivity.
  - destruct (pretty_N_go_read p) as [Hne E].
    now apply decimal_value_digits.
  - destruct (pretty_N_go_read p) as [Hne E].
    change (QString_number (Z.neg p))
      with (String "-" (pretty_N_go (N.pos p) "")).
    destruct (pretty_N_go (N.pos p) "") as [|c r]; [congruence|].
    cbn [decimal_value]. now rewrite E.
Qed.

Lemma QString_toInt_QString_number (n : Z) :
  QString_toInt (QString_number n)
  = if (- 2 ^ 31 <=? n) && (n <? 2 ^ 31) then n else 0.
Proof.
  unfold QString_toInt. cbn [QString_toLongLong reference_platform].
  rewrite decimal_value_QString_number. cbn [mbind option_bind].
  destruct ((- 2 ^ 63 <=? n) && (n <? 2 ^ 63)) eqn:E64; [reflexivity|].
  destruct ((- 2 ^ 31 <=? n) && (n <? 2 ^ 31)) eqn:E32; [|reflexivity].
  lia.
Qed.

(** X8: the identifier of a song survives the way through its URL.
    On the platform the model is run on, where a text is read as the
    decimal number it writes, a song that [ExtractSong] marks valid and
    whose "id" member is the number [n] gets the scheme of the URL
    handler and the decimal text of [n] as its path, and
    [ExtractSongIdFromUrl] gives [n] back when it is in the range of
    [int], and zero otherwise. *)
Theorem ExtractSong_id_round_trip (result_song : QVariantMap) (n : Z) :
  is_valid (@ExtractSong reference_platform result_song) = true ->
  value result_song "id" = VInt n ->
  url (@ExtractSong reference_platform result_song)
  = {| scheme := QobuzUrlHandler.scheme; path := QString_number n |}
  /\ @ExtractSongIdFromUrl reference_platform
       (url (@ExtractSong reference_platform result_song))
     = (if (- 2 ^ 31 <=? n) && (n <? 2 ^ 31) then n else 0)
  /\ (is_int n ->
      @ExtractSongIdFromUrl reference_platform
        (url (@ExtractSong reference_platform result_song)) = n).
Proof.
  intros Hv Hid.
  assert (U : url (@ExtractSong reference_platform result_song)
              = {| scheme := QobuzUrlHandler.scheme;
                   path := QString_number n |}).
  { revert Hv. unfold ExtractSong.
    destruct (negb (isEmpty result_song)
              && toBool (value result_song "streamable")); [|discriminate].
    intros _. cbn [url]. now rewrite Hid. }
  rewrite U. unfold ExtractSongIdFromUrl. cbn [path].
  rewrite QString_toInt_QString_number. split_and!; try reflexivity.
  unfold is_int. intros Hn.
  destruct (Z.leb_spec (- 2 ^ 31) n), (Z.ltb_spec n (2 ^ 31));
    cbn [andb]; lia.
Qed.

Section SongIds.
Context `{Platform}.

Lemma selected_songs_ids_filter (urls : list QUrl) (acc : list Z) :
  fold_left
    (fun songs_ids u =>
       let song_id := ExtractSongIdFromUrl u in
       if song_id =? 0 then songs_ids else songs_ids ++ [song_id])
    urls acc
  = acc ++ filter (fun song_id => song_id <> 0)
             (map ExtractSongIdFromUrl urls).
Proof.
  revert acc. induction urls as [|u urls IH]; intros acc; simpl.
  - now rewrite app_nil_r.
  - rewrite IH, filter_cons.
    destruct (Z.eqb_spec (ExtractSongIdFromUrl u) 0) as [E|E].
    + now rewrite decide_False by tauto.
    + rewrite decide_True by assumption. now rewrite <- app_assoc.
Qed.

(** X9: [RemoveCurrentFromFavorites] keeps, in the order of the
    selection, the identifiers that are not zero; when none is left it
    does nothing, and otherwise it starts a task and sends one request
    to /favorite/delete with the identifiers joined by commas: the
    access of [SongsIdsToStringParameter] after its loop is never
    outside the list. *)
Theorem RemoveCurrentFromFavorites_sends_selected (urls : list QUrl)
    (w : World) :
  let songs_ids :=
    filter (fun song_id => song_id <> 0) (map ExtractSongIdFromUrl urls) in
  selected_songs_ids urls = songs_ids
  /\ (songs_ids = [] -> RemoveCurrentFromFavorites urls w = Ret tt w)
  /\ (songs_ids <> [] ->
      exists w',
        RemoveCurrentFromFavorites urls w = Ret tt w'
        /\ network w'
           = network w
             ++ [authorized_request kUserDeleteFavorite
                   [("track_ids",
                     String.concat "," (map QString_number songs_ids))]
                   (access_token_ (service w))]
        /\ closures w'
           = <[length (network w) :=
                 Slot_SongsRemovedFromFavorites
                   (next_task_id_ (task_manager w))]> (closures w)).
Proof.
  intros songs_ids.
  assert (Hs : selected_songs_ids urls = songs_ids).
  { unfold selected_songs_ids. now rewrite selected_songs_ids_filter. }
  split; [exact Hs|]. unfold RemoveCurrentFromFavorites. rewrite Hs.
  split.
  - intros ->. reflexivity.
  - intros Hne. unfold RemoveFromFavorites.
    rewrite bool_decide_eq_false_2 by assumption.
    rewrite (bind_Ret _ _ _ _ _ (StartTask_Ret w)).
    rewrite (SongsIdsToStringParameter_joined _ Hne).
    eexists. split; [reflexivity|]. split; reflexivity.
Qed.
End SongIds.

(** *** Cover art *)

Lemma LoadArtAsync_others (loads : list (Z * Z)) (loader_id : Z)
    (tasks : gmap Z Z) :
  Forall (fun load => load.1 <> loader_id) loads ->
  fold_left (fun t load => LoadArtAsync load.1 load.2 t) loads tasks
    !! loader_id
  = tasks !! loader_id.
Proof.
  revert tasks. induction loads as [|[l i] loads IH]; intros tasks Hl; simpl.
  - reflexivity.
  - apply Forall_cons in Hl as [Hne Hl]. rewrite IH by assumption.
    unfold LoadArtAsync. now apply lookup_insert_ne.
Qed.

(** X10: the search provider files the request of a cover under the
    identifier of the cover loader: whatever other covers are asked
    for meanwhile, [AlbumArtLoaded] with that identifier gives the
    request back and takes the entry out; a second notification for
    it, or one for an identifier nothing is filed under, emits nothing
    and leaves the table as it is. *)
Theorem AlbumArtLoaded_routes (loads : list (Z * Z)) (loader_id id : Z)
    (tasks : gmap Z Z) :
  let filed :=
    fold_left (fun t load => LoadArtAsync load.1 load.2 t) loads
      (LoadArtAsync loader_id id tasks) in
  (Forall (fun load => load.1 <> loader_id) loads ->
   AlbumArtLoaded loader_id filed = (delete loader_id filed, Some id))
  /\ AlbumArtLoaded loader_id (delete loader_id filed)
     = (delete loader_id filed, None)
  /\ (tasks !! loader_id = None ->
      AlbumArtLoaded loader_id tasks = (tasks, None)).
Proof.
  intros filed. unfold AlbumArtLoaded. split_and!.
  - intros Hl. unfold filed. rewrite LoadArtAsync_others by assumption.
    unfold LoadArtAsync. now rewrite lookup_insert_eq.
  - now rewrite lookup_delete_eq.
  - now intros ->.
Qed.

(** *** The end of a global search *)

(** X11: [SearchDone] takes the entry of the identifier out of the
    table and emits [ResultsAvailable] with the request id filed there,
    -1 when nothing is filed under the identifier; [SearchFinished]
    follows exactly when no other pending query was filed with that
    request id. *)
Theorem SearchDone_finishes_last_query (id : Z) (songs : SongList)
    (w : World) :
  let pending := pending_searches_ (search_provider w) in
  let orig_id :=
    match pending !! id with Some state => orig_id_ state | None => -1 end in
  exists w' l,
    SearchDone id songs w = Ret tt w'
    /\ pending_searches_ (search_provider w') = delete id pending
    /\ service w' = service w
    /\ emitted w'
       = emitted w ++ ResultsAvailable orig_id (results_of songs) :: l
    /\ ((exists other state,
           other <> id /\ pending !! other = Some state
           /\ orig_id_ state = orig_id) ->
        l = [])
    /\ ((forall other state,
           other <> id -> pending !! other = Some state ->
           orig_id_ state <> orig_id) ->
        l = [SearchFinished orig_id]).
Proof.
  intros pending orig_id.
  assert (Ho : orig_id_ (default {| orig_id_ := -1; tokens_ := [] |}
                           (pending !! id)) = orig_id).
  { unfold orig_id. now destruct (pending !! id). }
  unfold SearchDone, MaybeSearchFinished, set_pending_searches_.
  unfold mbind, M_bind, mret, M_ret, gets, modify, emit. simpl.
  fold pending. rewrite Ho.
  destruct (bool_decide_reflect
              (map_Forall (fun _ st => orig_id_ st <> orig_id)
                 (delete id pending))) as [Hall|Hex].
  - eexists. exists [SearchFinished orig_id]. split_and!; try reflexivity.
    + simpl. now rewrite <- app_assoc.
    + intros (other & state & Hne & Hl & Hs). exfalso.
      apply (Hall other state); [|exact Hs].
      now rewrite lookup_delete_ne.
  - eexists. exists []. split_and!; try reflexivity.
    intros Hothers. exfalso. apply Hex. intros other state Hl.
    apply lookup_delete_Some in Hl as [Hne Hl]. eauto.
Qed.

Section FailedSearch.
Context `{Platform}.
Variable WaitForSignal : SignalName -> M unit.

(** X12: a query of the global search whose reply is an error other
    than 401 is answered all the same: [SimpleSearchFinished] emits
    [ReplyError], then [SimpleSearchResults] with no song, and the
    search provider takes the entry out and emits [ResultsAvailable]
    with the caller's request id and no result. *)
Theorem SimpleSearchFinished_error_answers_caller (fuel : nat)
    (reply : QNetworkReply) (service_id : Z) (state : PendingState)
    (w : World) :
  let status := HttpStatusCodeAttribute reply in
  status <> NO_ERROR ->
  status <> UNAUTHORIZED ->
  pending_searches_ (search_provider w) !! service_id = Some state ->
  exists w' l,
    call_slot WaitForSignal fuel (Slot_SimpleSearchFinished service_id)
      reply w = Ret tt w'
    /\ pending_searches_ (search_provider w')
       = delete service_id (pending_searches_ (search_provider w))
    /\ emitted w'
       = emitted w
         ++ [ReplyError status; SimpleSearchResults service_id [];
             ResultsAvailable (orig_id_ state) []] ++ l
    /\ Forall (fun s => s = SearchFinished (orig_id_ state)) l.
Proof.
  intros status H200 H401 Hp. simpl. unfold SimpleSearchFinished.
  rewrite (bind_Ret _ _ _ _ _
             (ExtractResult_answered WaitForSignal fuel reply w H401)).
  rewrite (reply_result_error _ H200).
  destruct (emit_SimpleSearchResults_Ret service_id [] (reply_reported reply w))
    as (w' & l & E & P & _ & Em & Hl).
  assert (Hr : reply_reported reply w
               = set_emitted (emitted w ++ [ReplyError status]) w).
  { unfold reply_reported. fold status.
    apply Z.eqb_neq in H200. now rewrite H200. }
  rewrite Hr in E, P, Em, Hl. simpl in P, Em, Hl. rewrite Hp in Em, Hl.
  simpl in Em, Hl.
  exists w', l. split_and!; try assumption.
  - rewrite Hr. exact E.
  - rewrite Em. now rewrite <- app_assoc.
Qed.
End FailedSearch.

(** *** A stream that is refused *)

Section RefusedStream.
Context `{Platform}.
Variable WaitForSignal : SignalName -> M unit.

(** X13: once the reply to the request for a stream has come, its
    status not being 401, [StartLoading] returns the original URL with
    the "url" member of the reply; for a reply that is an error it
    returns the empty URL, after [ReplyError] with the status. *)
Theorem StartLoading_hands_on_reply_url (fuel : nat) (u : QUrl)
    (w w2 : World) (r : QNetworkReply) :
  let reply := length (network w) in
  let status := HttpStatusCodeAttribute r in
  WaitForSignal (SIGNAL_finished reply) (streaming_request_sent (path u) w)
  = Ret tt w2 ->
  finished_replies w2 !! reply = Some r ->
  status <> UNAUTHORIZED ->
  StartLoading WaitForSignal fuel u w
  = Ret (u, toUrl (value (reply_result r) "url")) (reply_reported r w2)
  /\ (status = NO_ERROR ->
      StartLoading WaitForSignal fuel u w
      = Ret (u, toUrl (value (toMap (parsed_body r)) "url")) w2)
  /\ (status <> NO_ERROR ->
      StartLoading WaitForSignal fuel u w
      = Ret (u, "") (set_emitted (emitted w2 ++ [ReplyError status]) w2)).
Proof.
  intros reply status Hwait Hr H401.
  assert (E : StartLoading WaitForSignal fuel u w
              = Ret (u, toUrl (value (reply_result r) "url"))
                  (reply_reported r w2)).
  { unfold StartLoading, GetStreamingUrlFromSongId.
    change ((real_url ←
               (WaitForSignal (SIGNAL_finished reply);;
                finished ← gets finished_replies;
                match finished !! reply with
                | None => fault
                | Some r0 =>
                    result ← ExtractResult WaitForSignal fuel r0;
                    mret (toUrl (value result "url"))
                end);
             mret (u, real_url)) (streaming_request_sent (path u) w)
            = Ret (u, toUrl (value (reply_result r) "url"))
                (reply_reported r w2)).
    unfold mbind at 1, M_bind at 1.
    rewrite (bind_Ret _ _ _ _ _ Hwait).
    unfold mbind at 1, M_bind at 1, gets at 1. rewrite Hr.
    rewrite (bind_Ret _ _ _ _ _
               (ExtractResult_answered WaitForSignal fuel r w2 H401)).
    reflexivity. }
  split_and!.
  - exact E.
  - intros H200. rewrite E. unfold reply_result, reply_reported.
    fold status. rewrite H200. reflexivity.
  - intros H200. rewrite E, (reply_result_error _ H200).
    unfold reply_reported. fold status.
    apply Z.eqb_neq in H200. now rewrite H200.
Qed.
End RefusedStream.

(** *** Running straight-line code *)

Lemma bind_assoc {A B C} (m : M A) (f : A -> M B) (g : B -> M C) (w : World) :
  ((m ≫= f) ≫= g) w = (m ≫= fun a => f a ≫= g) w.
Proof. unfold mbind, M_bind. now destruct (m w). Qed.

Lemma bind_mret {A B} (a : A) (f : A -> M B) (w : World) :
  ((mret a : M A) ≫= f) w = f a w.
Proof. reflexivity. Qed.

Lemma bind_gets {A B} (g : World -> A) (f : A -> M B) (w : World) :
  (gets g ≫= f) w = f (g w) w.
Proof. reflexivity. Qed.

Lemma bind_modify {B} (g : World -> World) (f : unit -> M B) (w : World) :
  (modify g ≫= f) w = f tt (g w).
Proof. reflexivity. Qed.

Lemma bind_emit {B} (s : Signal) (f : unit -> M B) (w : World) :
  (emit s ≫= f) w = f tt (set_emitted (emitted w ++ [s]) w).
Proof. reflexivity. Qed.

Lemma bind_StartTask {B} (f : Z -> M B) (w : World) :
  (StartTask ≫= f) w
  = f (next_task_id_ (task_manager w))
      (set_emitted (emitted w ++ [TasksChanged])
         (set_task_manager
            {| tasks_ := {[next_task_id_ (task_manager w)]}
                         ∪ tasks_ (task_manager w);
               next_task_id_ := to_int (next_task_id_ (task_manager w) + 1) |}
            w)).
Proof. reflexivity. Qed.

Lemma bind_CreateRequest {B} (ressource_name : string) (params : list Param)
    (f : nat -> M B) (w : World) :
  (CreateRequest ressource_name params true ≫= f) w
  = f (length (network w))
      (set_network
         (network w
          ++ [authorized_request ressource_name params
                (access_token_ (service w))]) w).
Proof. reflexivity. Qed.

Lemma bind_NewClosure {B} (reply : nat) (slot : Slot) (f : unit -> M B)
    (w : World) :
  (NewClosure reply slot ≫= f) w
  = f tt (set_closures (<[reply := slot]> (closures w)) w).
Proof. reflexivity. Qed.

Lemma bind_new_QStandardItem {B} (text : string) (f : nat -> M B)
    (w : World) :
  (new_QStandardItem text ≫= f) w
  = f (next_item w)
      (set_next_item (S (next_item w))
         (set_items
            (<[next_item w := {| item_text := text; item_rows := [] |}]>
               (items w)) w)).
Proof. reflexivity. Qed.

Lemma bind_appendRow {B} (i : nat) (it : QStandardItem) (r : Row)
    (f : unit -> M B) (w : World) :
  items w !! i = Some it ->
  (appendRow (Some i) r ≫= f) w
  = f tt (set_items
            (<[i := {| item_text := item_text it;
                       item_rows := item_rows it ++ [r] |}]> (items w)) w).
Proof.
  intros Hi. unfold appendRow, deref, set_rows, mbind, M_bind, modify.
  now rewrite Hi.
Qed.

Lemma run_mret {A} (a : A) (w : World) : (mret a : M A) w = Ret a w.
Proof. reflexivity. Qed.

Lemma run_modify (g : World -> World) (w : World) : modify g w = Ret tt (g w).
Proof. reflexivity. Qed.

Lemma run_gets {A} (g : World -> A) (w : World) : gets g w = Ret (g w) w.
Proof. reflexivity. Qed.

Lemma run_emit (s : Signal) (w : World) :
  emit s w = Ret tt (set_emitted (emitted w ++ [s]) w).
Proof. reflexivity. Qed.

Lemma run_NewClosure (reply : nat) (slot : Slot) (w : World) :
  NewClosure reply slot w
  = Ret tt (set_closures (<[reply := slot]> (closures w)) w).
Proof. reflexivity. Qed.

(** [fields] reads the members of a program through the setters. *)
Ltac fields :=
  cbn [service search_provider settings task_manager items next_item network
       closures finished_replies emitted clock event_queue
       featured_playlists_info_ user_playlists_info_ root_ search_
       user_favorites_ user_playlists_ featured_playlists_ search_delay_
       pending_search_ next_pending_search_id_ task_search_id_
       next_pending_playlist_id_ task_featured_playlists_id_
       task_user_playlists_id_ task_user_favorites_id_
       pending_retrieve_playlists_ current_song_id_ access_token_ user_id_
       quality_ tasks_ next_task_id_ pending_searches_
       set_service set_search_provider set_settings set_task_manager
       set_items set_next_item set_network set_closures set_finished_replies
       set_emitted set_clock set_event_queue on_service
       set_featured_playlists_info_ set_user_playlists_info_ set_root_
       set_search_ set_user_favorites_ set_user_playlists_
       set_featured_playlists_ set_search_delay_ set_pending_search_
       set_next_pending_search_id_ set_task_search_id_
       set_next_pending_playlist_id_ set_task_featured_playlists_id_
       set_task_user_playlists_id_ set_task_user_favorites_id_
       set_pending_retrieve_playlists_ set_current_song_id_
       set_access_token_ set_user_id_ set_quality_ item_text item_rows
       andb orb negb].

Tactic Notation "fields" "in" hyp(E) :=
  cbn [service search_provider settings task_manager items next_item network
       closures finished_replies emitted clock event_queue
       featured_playlists_info_ user_playlists_info_ root_ search_
       user_favorites_ user_playlists_ featured_playlists_ search_delay_
       pending_search_ next_pending_search_id_ task_search_id_
       next_pending_playlist_id_ task_featured_playlists_id_
       task_user_playlists_id_ task_user_favorites_id_
       pending_retrieve_playlists_ current_song_id_ access_token_ user_id_
       quality_ tasks_ next_task_id_ pending_searches_
       set_service set_search_provider set_settings set_task_manager
       set_items set_next_item set_network set_closures set_finished_replies
       set_emitted set_clock set_event_queue on_service
       set_featured_playlists_info_ set_user_playlists_info_ set_root_
       set_search_ set_user_favorites_ set_user_playlists_
       set_featured_playlists_ set_search_delay_ set_pending_search_
       set_next_pending_search_id_ set_task_search_id_
       set_next_pending_playlist_id_ set_task_featured_playlists_id_
       set_task_user_playlists_id_ set_task_user_favorites_id_
       set_pending_retrieve_playlists_ set_current_song_id_
       set_access_token_ set_user_id_ set_quality_ item_text item_rows
       andb orb negb] in E.

(** One step of a run: the first statement is one that always returns. *)
Ltac step :=
  first
    [ rewrite bind_assoc | rewrite bind_mret | rewrite bind_gets
    | rewrite bind_modify | rewrite bind_emit | rewrite bind_StartTask
    | rewrite bind_CreateRequest | rewrite bind_NewClosure
    | rewrite bind_new_QStandardItem
    | rewrite run_mret | rewrite run_modify | rewrite run_gets
    | rewrite run_emit | rewrite run_NewClosure ];
  fields.

Tactic Notation "step" "in" hyp(E) :=
  first
    [ rewrite bind_assoc in E | rewrite bind_mret in E
    | rewrite bind_gets in E | rewrite bind_modify in E
    | rewrite bind_emit in E | rewrite bind_StartTask in E
    | rewrite bind_CreateRequest in E | rewrite bind_NewClosure in E
    | rewrite bind_new_QStandardItem in E
    | rewrite run_mret in E | rewrite run_modify in E
    | rewrite run_gets in E | rewrite run_emit in E
    | rewrite run_NewClosure in E ];
  fields in E.

(** *** The nodes of the tree *)

Lemma appendRow_Ret (p : option nat) (r : Row) (w w' : World) (u : unit) :
  appendRow p r w = Ret u w' ->
  exists i it,
    p = Some i /\ items w !! i = Some it
    /\ w' = set_items
              (<[i := {| item_text := item_text it;
                         item_rows := item_rows it ++ [r] |}]> (items w)) w.
Proof.
  unfold appendRow, deref, set_rows, mbind, M_bind, modify.
  destruct p as [i|]; [|discriminate].
  destruct (items w !! i) as [it|] eqn:Hi; [|discriminate].
  intros [= _ <-]. now exists i, it.
Qed.

Section Nodes.
Context `{Platform}.

Lemma LoadCredentialsIfEmpty_logged_in (w : World) :
  IsLoggedIn w = true -> LoadCredentialsIfEmpty w = Ret tt w.
Proof.
  unfold IsLoggedIn, LoadCredentialsIfEmpty, mbind, M_bind, gets.
  now destruct (QString_isEmpty (access_token_ (service w))).
Qed.

(** The three requests of [RetrieveUserData]. *)
Lemma RetrieveUserData_Ret (w : World) :
  IsLoggedIn w = true ->
  exists w',
    RetrieveUserData w = Ret tt w'
    /\ settings w' = settings w
    /\ items w' = items w
    /\ next_item w' = next_item w
    /\ access_token_ (service w') = access_token_ (service w)
    /\ user_id_ (service w') = user_id_ (service w)
    /\ quality_ (service w') = quality_ (service w)
    /\ root_ (service w') = root_ (service w)
    /\ search_ (service w') = search_ (service w)
    /\ user_favorites_ (service w') = user_favorites_ (service w)
    /\ featured_playlists_ (service w') = featured_playlists_ (service w)
    /\ user_playlists_ (service w') = user_playlists_ (service w)
    /\ network w'
       = network w
         ++ [authorized_request kFeaturedPlaylists
               [("type", "editor-picks"); ("user_id", user_id_ (service w))]
               (access_token_ (service w));
             authorized_request kUserFavorites
               [("type", "tracks"); ("user_id", user_id_ (service w))]
               (access_token_ (service w));
             authorized_request kUserPlaylists
               [("user_id", user_id_ (service w))]
               (access_token_ (service w))]
    /\ closures w'
       = <[S (S (length (network w))) := Slot_UserPlaylistsRetrieved]>
           (<[S (length (network w)) := Slot_UserFavoritesRetrieved]>
              (<[length (network w) := Slot_FeaturedPlaylistsRetrieved]>
                 (closures w)))
    /\ emitted w' = emitted w ++ [TasksChanged; TasksChanged; TasksChanged]
    /\ tracked_task_running w' = true.
Proof.
  intros L. unfold RetrieveUserData.
  rewrite (bind_Ret _ _ _ _ _ (LoadCredentialsIfEmpty_logged_in w L)).
  unfold RetrieveFeaturedPlaylists, RetrieveUserFavorites,
    RetrieveUserPlaylists.
  repeat step.
  eexists. split; [reflexivity|]. fields.
  split_and!; try reflexivity.
  - now rewrite <- !app_assoc.
  - now rewrite !length_app; simpl; rewrite !Nat.add_1_r.
  - now rewrite <- !app_assoc.
  - unfold tracked_task_running, ContainsTask. fields.
    rewrite (bool_decide_eq_true_2 (next_task_id_ (task_manager w) ∈ _))
      by set_solver.
    reflexivity.
Qed.

Lemma EnsureItemsCreated_logged_out (w : World) :
  IsLoggedIn w = false -> EnsureItemsCreated w = Ret tt w.
Proof.
  intros E. unfold EnsureItemsCreated. step. rewrite E. repeat step.
  rewrite E. now rewrite !andb_false_r.
Qed.

Ltac inv_appendRow E :=
  let a := fresh "a" in
  let w1 := fresh "w" in
  let E1 := fresh "E" in
  let i := fresh "i" in
  let it := fresh "it" in
  let Hp := fresh "Hp" in
  let Hi := fresh "Hi" in
  apply bind_Ret_inv in E as (a & w1 & E1 & E);
  apply appendRow_Ret in E1 as (i & it & Hp & Hi & ->);
  fields in Hp; fields in Hi; fields in E.

Lemma EnsureItemsCreated_Ret (w w1 : World) (u : unit) :
  EnsureItemsCreated w = Ret u w1 ->
  IsLoggedIn w = true ->
  settings w1 = settings w
  /\ access_token_ (service w1) = access_token_ (service w)
  /\ user_id_ (service w1) = user_id_ (service w)
  /\ root_ (service w1) = root_ (service w)
  /\ is_Some (search_ (service w1))
  /\ (is_Some (user_favorites_ (service w1))
      \/ is_Some (featured_playlists_ (service w1))
      \/ is_Some (user_playlists_ (service w1))).
Proof.
  intros E L. unfold EnsureItemsCreated in E.
  step in E. rewrite L in E. step in E.
  apply bind_Ret_inv in E as (a & w0 & E0 & E).
  assert (F0 : settings w0 = settings w
               /\ access_token_ (service w0) = access_token_ (service w)
               /\ user_id_ (service w0) = user_id_ (service w)
               /\ root_ (service w0) = root_ (service w)
               /\ is_Some (search_ (service w0))).
  { destruct (search_ (service w)) as [s|] eqn:Es.
    - rewrite bool_decide_eq_true_2 in E0 by eauto.
      injection E0 as <- <-. rewrite Es. split_and!; eauto.
    - rewrite bool_decide_eq_false_2 in E0 by (intros [? [=]]).
      fields in E0. repeat step in E0.
      apply appendRow_Ret in E0 as (i & it & _ & _ & ->). fields.
      split_and!; eauto. }
  destruct F0 as (S0 & T0 & U0 & R0 & Q0).
  assert (L0 : IsLoggedIn w0 = true).
  { unfold IsLoggedIn in *. now rewrite T0. }
  step in E. step in E. rewrite L0 in E.
  destruct (negb (bool_decide (is_Some (user_favorites_ (service w0))))
            && negb (bool_decide (is_Some (featured_playlists_ (service w0))))
            && negb (bool_decide (is_Some (user_playlists_ (service w0))))
            && true) eqn:C.
  - repeat step in E. inv_appendRow E.
    repeat step in E. inv_appendRow E.
    repeat step in E. inv_appendRow E.
    match type of E with
    | RetrieveUserData ?W = _ =>
        destruct (RetrieveUserData_Ret W) as (w' & E' & F)
    end.
    { unfold IsLoggedIn in *. fields. exact L0. }
    rewrite E' in E. assert (w1 = w') as -> by congruence.
    destruct F as (F1 & _ & _ & F2 & F3 & _ & F4 & F5 & F6 & _).
    fields in F1. fields in F2. fields in F3. fields in F4. fields in F5.
    fields in F6.
    rewrite F1, F2, F3, F4, F5, F6. split_and!; eauto; congruence.
  - rewrite run_mret in E. assert (w1 = w0) as -> by congruence.
    split_and!; try assumption.
    destruct (user_favorites_ (service w0)); [eauto|].
    destruct (featured_playlists_ (service w0)); [eauto|].
    destruct (user_playlists_ (service w0)); [eauto|].
    rewrite !bool_decide_eq_false_2 in C by (intros [? [=]]). discriminate.
Qed.

(** X14: [EnsureItemsCreated] does nothing for a session that is not
    logged in, and calling it again after it returned does nothing: the
    nodes are hung below the root once, and the requests of
    [RetrieveUserData] are sent once. *)
Theorem EnsureItemsCreated_once (w : World) :
  (IsLoggedIn w = false -> EnsureItemsCreated w = Ret tt w)
  /\ forall w1,
       EnsureItemsCreated w = Ret tt w1 ->
       EnsureItemsCreated w1 = Ret tt w1.
Proof.
  split; [apply EnsureItemsCreated_logged_out|].
  intros w1 E. destruct (IsLoggedIn w) eqn:L.
  - apply EnsureItemsCreated_Ret in E as (_ & T & _ & _ & Q & N); [|exact L].
    assert (L1 : IsLoggedIn w1 = true).
    { unfold IsLoggedIn in *. now rewrite T. }
    unfold EnsureItemsCreated. step. rewrite L1. step.
    rewrite (bool_decide_eq_true_2 _ Q). fields. repeat step.
    rewrite L1.
    destruct N as [N|[N|N]]; rewrite (bool_decide_eq_true_2 _ N); fields;
      now rewrite ?andb_false_r.
  - rewrite (EnsureItemsCreated_logged_out w L) in E. injection E as <-.
    now apply EnsureItemsCreated_logged_out.
Qed.

Lemma EnsureItemsCreated_created (w : World) (r : nat)
    (rit : QStandardItem) :
  IsLoggedIn w = true ->
  search_ (service w) = None ->
  user_favorites_ (service w) = None ->
  featured_playlists_ (service w) = None ->
  user_playlists_ (service w) = None ->
  root_ (service w) = Some r ->
  items w !! r = Some rit ->
  (r < next_item w)%nat ->
  let n := next_item w in
  exists w1,
    EnsureItemsCreated w = Ret tt w1
    /\ search_ (service w1) = Some n
    /\ user_favorites_ (service w1) = Some (S n)
    /\ featured_playlists_ (service w1) = Some (S (S n))
    /\ user_playlists_ (service w1) = Some (S (S (S n)))
    /\ items w1 !! r
       = Some {| item_text := item_text rit;
                 item_rows :=
                   item_rows rit
                   ++ [RowItem n; RowItem (S n); RowItem (S (S n));
                       RowItem (S (S (S n)))] |}
    /\ item_text <$> items w1 !! n = Some "Search results"
    /\ item_text <$> items w1 !! S n = Some "Favorites"
    /\ item_text <$> items w1 !! S (S n) = Some "Featured playlists"
    /\ item_text <$> items w1 !! S (S (S n)) = Some "Playlists"
    /\ network w1
       = network w
         ++ [authorized_request kFeaturedPlaylists
               [("type", "editor-picks"); ("user_id", user_id_ (service w))]
               (access_token_ (service w));
             authorized_request kUserFavorites
               [("type", "tracks"); ("user_id", user_id_ (service w))]
               (access_token_ (service w));
             authorized_request kUserPlaylists
               [("user_id", user_id_ (service w))]
               (access_token_ (service w))]
    /\ tracked_task_running w1 = true
    /\ emitted w1 = emitted w ++ [TasksChanged; TasksChanged; TasksChanged].
Proof.
  intros L Hs Hf Hp Hu Hr Hi Hlt n.
  unfold EnsureItemsCreated. step. rewrite L. step. rewrite Hs.
  rewrite bool_decide_eq_false_2 by (intros [? [=]]). fields.
  repeat step. rewrite Hr.
  erewrite bind_appendRow
    by (fields; rewrite lookup_insert_ne by lia; exact Hi).
  fields. repeat step. rewrite Hf, Hp, Hu.
  rewrite bool_decide_eq_false_2 by (intros [? [=]]).
  replace (IsLoggedIn _) with true by (symmetry; exact L). fields.
  repeat step. rewrite Hr.
  erewrite bind_appendRow
    by (fields; rewrite lookup_insert_ne, lookup_insert_eq by lia;
        reflexivity).
  fields. repeat step.
  erewrite bind_appendRow
    by (fields; rewrite lookup_insert_ne, lookup_insert_eq by lia;
        reflexivity).
  fields. repeat step.
  erewrite bind_appendRow
    by (fields; rewrite lookup_insert_ne, lookup_insert_eq by lia;
        reflexivity).
  fields.
  match goal with
  | |- exists w1, RetrieveUserData ?W = _ /\ _ =>
      destruct (RetrieveUserData_Ret W) as (w1 & E1 & F)
  end.
  { unfold IsLoggedIn in *. fields. exact L. }
  destruct F
    as (_ & F1 & _ & _ & _ & _ & _ & F2 & F3 & F4 & F5 & F6 & _ & F8 & F7).
  fields in F1. fields in F2. fields in F3. fields in F4. fields in F5.
  fields in F6. fields in F8.
  exists w1. rewrite F1, F2, F3, F4, F5, F6, F8.
  split_and!; try assumption; try reflexivity.
  1: { rewrite lookup_insert_eq. f_equal. f_equal.
       now rewrite <- !app_assoc. }
  all: clear E1 F7 F8; unfold n.
  all: repeat (rewrite lookup_insert_ne by lia).
  all: now rewrite lookup_insert_eq.
Qed.

(** X15: for a session that is logged in and whose nodes do not exist,
    [EnsureItemsCreated] makes the four nodes, hangs them below the
    root in the order search results, favorites, featured playlists,
    playlists, and sends the three requests of [RetrieveUserData]:
    featured playlists, favorites, then the playlists of the user. *)
Theorem EnsureItemsCreated_creates (w : World) (r : nat)
    (rit : QStandardItem) :
  IsLoggedIn w = true ->
  search_ (service w) = None ->
  user_favorites_ (service w) = None ->
  featured_playlists_ (service w) = None ->
  user_playlists_ (service w) = None ->
  root_ (service w) = Some r ->
  items w !! r = Some rit ->
  (r < next_item w)%nat ->
  let n := next_item w in
  exists w1,
    EnsureItemsCreated w = Ret tt w1
    /\ search_ (service w1) = Some n
    /\ user_favorites_ (service w1) = Some (S n)
    /\ featured_playlists_ (service w1) = Some (S (S n))
    /\ user_playlists_ (service w1) = Some (S (S (S n)))
    /\ items w1 !! r
       = Some {| item_text := item_text rit;
                 item_rows :=
                   item_rows rit
                   ++ [RowItem n; RowItem (S n); RowItem (S (S n));
                       RowItem (S (S (S n)))] |}
    /\ item_text <$> items w1 !! n = Some "Search results"
    /\ item_text <$> items w1 !! S n = Some "Favorites"
    /\ item_text <$> items w1 !! S (S n) = Some "Featured playlists"
    /\ item_text <$> items w1 !! S (S (S n)) = Some "Playlists"
    /\ network w1
       = network w
         ++ [authorized_request kFeaturedPlaylists
               [("type", "editor-picks"); ("user_id", user_id_ (service w))]
               (access_token_ (service w));
             authorized_request kUserFavorites
               [("type", "tracks"); ("user_id", user_id_ (service w))]
               (access_token_ (service w));
             authorized_request kUserPlaylists
               [("user_id", user_id_ (service w))]
               (access_token_ (service w))]
    /\ tracked_task_running w1 = true
    /\ emitted w1 = emitted w ++ [TasksChanged; TasksChanged; TasksChanged].
Proof. apply EnsureItemsCreated_created. Qed.
End Nodes.

(** *** Credentials *)

Lemma QString_isEmpty_true (s : string) : QString_isEmpty s = true <-> s = "".
Proof. destruct s; simpl; split; congruence. Qed.

Lemma QString_isEmpty_false (s : string) :
  QString_isEmpty s = false <-> s <> "".
Proof. destruct s; simpl; split; congruence. Qed.

Lemma to_int_range (z : Z) : - 2 ^ 31 <= to_int z < 2 ^ 31.
Proof.
  unfold to_int. pose proof (Z.mod_pos_bound (z + 2 ^ 31) (2 ^ 32)). lia.
Qed.

Lemma to_int_small (z : Z) : - 2 ^ 31 <= z < 2 ^ 31 -> to_int z = z.
Proof. intros Hz. unfold to_int. rewrite Z.mod_small; lia. Qed.

Lemma to_qint64_small (z : Z) : - 2 ^ 63 <= z < 2 ^ 63 -> to_qint64 z = z.
Proof. intros Hz. unfold to_qint64. rewrite Z.mod_small; lia. Qed.

Section Credentials.
Context `{Platform}.
Variable WaitForSignal : SignalName -> M unit.

Lemma toInt_VInt_toInt (v : QVariant) : toInt (VInt (toInt v)) = toInt v.
Proof.
  unfold toInt at 1. cbn [toLongLong].
  pose proof (to_int_range (toLongLong v)) as Hr. fold (toInt v) in Hr.
  rewrite to_qint64_small by lia. now apply to_int_small.
Qed.

(** What a log-out that returned leaves of the session. *)
Lemma Logout_logged_out (fuel : nat) (w w' : World) (u : unit) :
  Logout WaitForSignal fuel w = Ret u w' ->
  access_token_ (service w') = ""
  /\ user_id_ (service w') = ""
  /\ quality_ (service w') = NONE
  /\ exists task_id w2,
       Logout_waits WaitForSignal fuel w = Ret task_id w2
       /\ settings w'
          = delete "quality"
              (delete "user_id" (delete "access_token" (settings w2))).
Proof.
  intros E. apply Logout_Ret in E
    as (task_id & w0 & w1 & w2 & w3 & _ & _ & _ & _ & _ & Ew & Et & Ef).
  apply Logout_teardown_Ret in Et as (T1 & T2 & T3 & T4 & _).
  apply SetTaskFinished_Ret in Ef as (Hsv & Hst & _).
  rewrite Hsv, Hst. split_and!; try assumption.
  exists task_id, w2. now split.
Qed.

(** X16: a session that was logged out stays so: once [Logout] has
    returned, [IsLoggedIn] is false, [LoadCredentialsIfEmpty] finds no
    token in the settings and changes nothing, and
    [EnsureItemsCreated] makes no node and sends no request. *)
Theorem Logout_stays_logged_out (fuel : nat) (w w' : World) :
  Logout WaitForSignal fuel w = Ret tt w' ->
  IsLoggedIn w' = false
  /\ settings w' !! "access_token" = None
  /\ LoadCredentialsIfEmpty w' = Ret tt w'
  /\ EnsureItemsCreated w' = Ret tt w'.
Proof.
  intros E.
  apply Logout_logged_out in E as (T & _ & _ & task_id & w2 & _ & S).
  assert (L : IsLoggedIn w' = false) by (unfold IsLoggedIn; now rewrite T).
  assert (K : settings w' !! "access_token" = None).
  { rewrite S, lookup_delete_ne, lookup_delete_ne, lookup_delete_eq; done. }
  split_and!; try assumption.
  - unfold LoadCredentialsIfEmpty. repeat step. rewrite T, K.
    rewrite bool_decide_eq_false_2 by (intros [? [=]]). reflexivity.
  - now apply EnsureItemsCreated_logged_out.
Qed.

(** X17: when [LogoutClicked] has returned, none of the six keys the
    service and its settings page write is left in the settings, the
    other keys being as the waits of [Logout] left them, and the
    session is logged out. *)
Theorem LogoutClicked_clears_settings (fuel : nat) (w w' : World) :
  LogoutClicked WaitForSignal fuel w = Ret tt w' ->
  IsLoggedIn w' = false
  /\ Forall (fun key => settings w' !! key = None)
       ["access_token"; "user_id"; "quality"; "hifi_subscriber"; "username";
        "user_mail"]
  /\ exists task_id w2,
       Logout_waits WaitForSignal fuel w = Ret task_id w2
       /\ forall key,
            key ∉ ["access_token"; "user_id"; "quality"; "hifi_subscriber";
                   "username"; "user_mail"] ->
            settings w' !! key = settings w2 !! key.
Proof.
  unfold LogoutClicked. intros E.
  apply bind_Ret_inv in E as (u & w1 & E1 & E).
  rewrite run_modify in E. assert (w' = set_settings
    (delete "user_mail"
       (delete "username" (delete "hifi_subscriber" (settings w1)))) w1)
    as -> by congruence.
  apply Logout_logged_out in E1 as (T & _ & _ & task_id & w2 & Ew & S).
  unfold IsLoggedIn. fields. rewrite T, S. split_and!.
  - reflexivity.
  - repeat constructor.
    all: repeat first [ apply lookup_delete_eq
                      | rewrite lookup_delete_ne by done ].
  - exists task_id, w2. split; [exact Ew|]. intros key Hk.
    repeat rewrite lookup_delete_ne; [reflexivity|..].
    all: intros <-; apply Hk; repeat constructor.
Qed.

Lemma ExtractResult_Ret_result (fuel : nat) (reply : QNetworkReply)
    (w w' : World) (m : QVariantMap) :
  ExtractResult WaitForSignal fuel reply w = Ret m w' ->
  m = reply_result reply.
Proof.
  intros E.
  destruct (Z.eq_dec (HttpStatusCodeAttribute reply) UNAUTHORIZED) as [Hs|Hs].
  - apply (ExtractResult_unauthorized _ _ _ _ _ _ Hs) in E
      as (w1 & _ & -> & _).
    unfold reply_result. now rewrite Hs.
  - rewrite (ExtractResult_answered _ _ _ _ Hs) in E. congruence.
Qed.

(** X18: [ConnectFinished] leaves the session logged in exactly when
    the reply carries a token that is not empty and an account with
    lossy streaming, which takes a reply of status 200; the token and
    the user are then those of the reply, the settings hold them with
    the mail and the kind of subscription, and a later session that
    starts with these settings reads the same token and user back with
    [LoadCredentialsIfEmpty]. *)
Theorem ConnectFinished_logged_in_iff_premium (fuel : nat)
    (reply : QNetworkReply) (w w' : World) :
  ConnectFinished WaitForSignal fuel reply w = Ret tt w' ->
  let response := reply_result reply in
  let token := toString (value response "user_auth_token") in
  let user := toMap (value response "user") in
  let parameters :=
    toMap (value (toMap (value user "credential")) "parameters") in
  (IsLoggedIn w' = true <->
   token <> "" /\ toBool (value parameters "lossy_streaming") = true)
  /\ (IsLoggedIn w' = true ->
      HttpStatusCodeAttribute reply = NO_ERROR
      /\ access_token_ (service w') = token
      /\ user_id_ (service w') = toString (value user "id")
      /\ settings w' !! "access_token" = Some (VString token)
      /\ settings w' !! "user_id"
         = Some (VString (toString (value user "id")))
      /\ settings w' !! "user_mail"
         = Some (VString (toString (value user "email")))
      /\ settings w' !! "hifi_subscriber"
         = Some (VBool (toBool (value parameters "lossless_streaming")))
      /\ forall v,
           settings v = settings w' ->
           access_token_ (service v) = "" ->
           exists v',
             LoadCredentialsIfEmpty v = Ret tt v'
             /\ access_token_ (service v') = access_token_ (service w')
             /\ user_id_ (service v') = user_id_ (service w')).
Proof.
  intros E response token user parameters.
  unfold ConnectFinished in E.
  apply bind_Ret_inv in E as (m & w0 & E0 & E).
  apply ExtractResult_Ret_result in E0 as ->.
  fold response token user parameters in E. step in E.
  destruct (QString_isEmpty token) eqn:Ht.
  - rewrite run_mret in E.
    assert (w' = on_service (set_access_token_ token) w0) as -> by congruence.
    apply QString_isEmpty_true in Ht.
    assert (L : IsLoggedIn (on_service (set_access_token_ token) w0) = false)
      by (unfold IsLoggedIn; fields; now rewrite Ht).
    rewrite L. split; [|discriminate]. split; [discriminate|].
    now intros [? _].
  - step in E.
    destruct (toBool (value parameters "lossy_streaming")) eqn:Hl;
      fields in E.
    + repeat step in E.
      match type of E with
      | EnsureItemsCreated ?W = _ =>
          assert (L : IsLoggedIn W = true)
            by (unfold IsLoggedIn; fields; now rewrite Ht)
      end.
      apply EnsureItemsCreated_Ret in E as (S' & T' & U' & _); [|exact L].
      fields in S'. fields in T'. fields in U'.
      assert (L' : IsLoggedIn w' = true)
        by (unfold IsLoggedIn; now rewrite T', Ht).
      apply QString_isEmpty_false in Ht.
      split; [now rewrite L'|]. intros _.
      assert (H200 : HttpStatusCodeAttribute reply = NO_ERROR).
      { destruct (Z.eq_dec (HttpStatusCodeAttribute reply) NO_ERROR)
          as [|Hne]; [assumption|].
        exfalso. apply Ht. unfold token, response.
        now rewrite (reply_result_error _ Hne). }
      assert (K1 : settings w' !! "access_token" = Some (VString token)).
      { rewrite S'. now repeat rewrite lookup_insert_ne by done;
          rewrite lookup_insert_eq. }
      assert (K2 : settings w' !! "user_id"
                   = Some (VString (toString (value user "id")))).
      { rewrite S'. now repeat rewrite lookup_insert_ne by done;
          rewrite lookup_insert_eq. }
      split_and!; try assumption.
      * rewrite S'. now repeat rewrite lookup_insert_ne by done;
          rewrite lookup_insert_eq.
      * rewrite S'. now rewrite lookup_insert_eq.
      * intros v Hv Hempty. unfold LoadCredentialsIfEmpty.
        repeat step. rewrite Hempty, Hv, K1, K2.
        rewrite bool_decide_eq_true_2 by eauto. fields.
        change (QString_isEmpty "") with true. cbv iota.
        rewrite run_modify. eexists. split; [reflexivity|]. fields.
        now rewrite T', U'.
    + repeat step in E.
      apply Logout_logged_out in E as (T & _).
      assert (L : IsLoggedIn w' = false)
        by (unfold IsLoggedIn; now rewrite T).
      rewrite L. split; [|discriminate]. split; [discriminate|].
      now intros [_ ?].
Qed.
End Credentials.

(** *** The settings page *)

Section SettingsPage.
Context `{Platform}.
Variable WaitForSignal : SignalName -> M unit.

(** X19: [Save] stores the user name and, when the quality box has
    an item, the quality it converts to [int], which it also gives the
    service; a later session that finds a token in these settings reads
    that quality back with [LoadCredentialsIfEmpty].  With an empty
    quality box the quality of the service and its key are left as they
    are. *)
Theorem Save_quality_round_trip (username : string)
    (quality_variant : QVariant) (w : World) :
  exists w1,
    Save username quality_variant w = Ret tt w1
    /\ settings w1 !! "username" = Some (VString username)
    /\ (isValid quality_variant = false ->
        quality_ (service w1) = quality_ (service w)
        /\ settings w1 !! "quality" = settings w !! "quality")
    /\ (isValid quality_variant = true ->
        quality_ (service w1) = toInt quality_variant
        /\ settings w1 !! "quality" = Some (VInt (toInt quality_variant))
        /\ forall v,
             settings v = settings w1 ->
             access_token_ (service v) = "" ->
             is_Some (settings v !! "access_token") ->
             exists v',
               LoadCredentialsIfEmpty v = Ret tt v'
               /\ quality_ (service v') = toInt quality_variant).
Proof.
  unfold Save. step.
  destruct (isValid quality_variant) eqn:Hv.
  - repeat step. eexists. split; [reflexivity|]. fields. split_and!.
    + now rewrite lookup_insert_ne, lookup_insert_eq.
    + discriminate.
    + intros _. split_and!; [reflexivity | apply lookup_insert_eq |].
      intros v Hs Ht Ha. unfold LoadCredentialsIfEmpty. repeat step.
      rewrite Ht. change (QString_isEmpty "") with true. cbv iota.
      rewrite bool_decide_eq_true_2 by assumption. fields.
      rewrite run_modify. eexists. split; [reflexivity|]. fields.
      rewrite Hs. fields. rewrite lookup_insert_eq.
      apply toInt_VInt_toInt.
  - rewrite run_mret. eexists. split; [reflexivity|]. fields. split_and!.
    + apply lookup_insert_eq.
    + intros _. split; [reflexivity|]. now rewrite lookup_insert_ne.
    + discriminate.
Qed.

(** X20: logging in from the settings page.  [LoginClicked] sends
    nothing for a session that is logged in; otherwise it sends one
    request to /user/login, with the password and the user name as its
    parameters and without the header of the token.  When the event
    loop delivers a reply of status 200 with a token and an account
    with lossy streaming, the session is logged in with that token,
    [Connected] is emitted, the nodes are made, and the three requests
    of [RetrieveUserData] that follow carry the user and the token of
    the reply. *)
Theorem LoginClicked_logs_in (fuel : nat) (username password : string)
    (w : World) :
  (IsLoggedIn w = true -> LoginClicked username password w = Ret tt w)
  /\ forall (reply : QNetworkReply) (r : nat) (rit : QStandardItem),
       let response := toMap (parsed_body reply) in
       let token := toString (value response "user_auth_token") in
       let user := toMap (value response "user") in
       let user_id := toString (value user "id") in
       let parameters :=
         toMap (value (toMap (value user "credential")) "parameters") in
       IsLoggedIn w = false ->
       reply_handle reply = length (network w) ->
       HttpStatusCodeAttribute reply = NO_ERROR ->
       token <> "" ->
       toBool (value parameters "lossy_streaming") = true ->
       search_ (service w) = None ->
       user_favorites_ (service w) = None ->
       featured_playlists_ (service w) = None ->
       user_playlists_ (service w) = None ->
       root_ (service w) = Some r ->
       items w !! r = Some rit ->
       (r < next_item w)%nat ->
       exists w1 w2,
         LoginClicked username password w = Ret tt w1
         /\ network w1
            = network w
              ++ [{| request_url :=
                       "http://www.qobuz.com/api.json/0.2/user/login";
                     query_items :=
                       [("password", password); ("username", username)];
                     raw_headers :=
                       [("x-app-id", ""); ("Accept", "application/json")] |}]
         /\ closures w1 !! length (network w) = Some Slot_ConnectFinished
         /\ deliver WaitForSignal fuel (EvReplyFinished reply) w1 = Ret tt w2
         /\ IsLoggedIn w2 = true
         /\ access_token_ (service w2) = token
         /\ user_id_ (service w2) = user_id
         /\ settings w2 !! "access_token" = Some (VString token)
         /\ Connected ∈ emitted w2
         /\ search_ (service w2) = Some (next_item w)
         /\ network w2
            = network w1
              ++ [authorized_request kFeaturedPlaylists
                    [("type", "editor-picks"); ("user_id", user_id)] token;
                  authorized_request kUserFavorites
                    [("type", "tracks"); ("user_id", user_id)] token;
                  authorized_request kUserPlaylists
                    [("user_id", user_id)] token].
Proof.
  split.
  - intros L. unfold LoginClicked. now rewrite bind_gets, L.
  - intros reply r rit response token user user_id parameters
      L Hh H200 Htoken Hlossy Hs Hf Hp Hu Hr Hi Hlt.
    apply QString_isEmpty_false in Htoken.
    eassert (E1 : LoginClicked username password w = Ret tt _).
    { unfold LoginClicked. rewrite bind_gets, L. reflexivity. }
    match type of E1 with _ = Ret _ ?W => set (w1 := W) in * end.
    assert (Hresult : reply_result reply = response).
    { unfold reply_result. rewrite H200. reflexivity. }
    assert (H401 : HttpStatusCodeAttribute reply <> UNAUTHORIZED)
      by (rewrite H200; discriminate).
    (* the program when [EnsureItemsCreated] is called *)
    eassert (E2 : deliver WaitForSignal fuel (EvReplyFinished reply) w1
                  = EnsureItemsCreated _).
    { cbn [deliver]. rewrite Hh. repeat step.
      replace (closures w1 !! length (network w))
        with (Some Slot_ConnectFinished)
        by (unfold w1; fields; now rewrite lookup_insert_eq).
      repeat step. cbn [call_slot]. unfold ConnectFinished.
      rewrite (bind_Ret _ _ _ _ _
                 (ExtractResult_answered WaitForSignal fuel reply _ H401)).
      rewrite Hresult. fold token user parameters user_id.
      unfold reply_reported. rewrite H200. cbn [Z.eqb Pos.eqb].
      rewrite bind_modify, Htoken, bind_modify. fold user_id.
      rewrite Hlossy. cbn [negb]. repeat step. reflexivity. }
    match type of E2 with _ = EnsureItemsCreated ?W => set (v := W) in * end.
    destruct (EnsureItemsCreated_created v r rit)
      as (w2 & E3 & F1 & _ & _ & _ & _ & _ & _ & _ & _ & F2 & _ & F3);
      try (unfold v, w1; fields; assumption).
    { unfold IsLoggedIn, v. fields. now rewrite Htoken. }
    destruct (EnsureItemsCreated_Ret v w2 tt E3) as (S2 & T2 & U2 & _).
    { unfold IsLoggedIn, v. fields. now rewrite Htoken. }
    exists w1, w2. split_and!.
    + exact E1.
    + reflexivity.
    + unfold w1. fields. apply lookup_insert_eq.
    + now rewrite E2.
    + unfold IsLoggedIn. rewrite T2. unfold v. fields. now rewrite Htoken.
    + rewrite T2. reflexivity.
    + rewrite U2. reflexivity.
    + rewrite S2. unfold v. fields.
      now repeat rewrite lookup_insert_ne by done; rewrite lookup_insert_eq.
    + rewrite F3. unfold v. fields. rewrite !elem_of_app.
      left. right. apply list_elem_of_In; simpl; tauto.
    + rewrite F1. reflexivity.
    + rewrite F2. reflexivity.
Qed.
End SettingsPage.

(** *** Songs shown in the tree *)

Lemma set_items_same (w : World) : set_items (items w) w = w.
Proof. now destruct w. Qed.

Lemma bind_deref {B} (i : nat) (it : QStandardItem)
    (f : nat * QStandardItem -> M B) (w : World) :
  items w !! i = Some it -> (deref (Some i) ≫= f) w = f (i, it) w.
Proof. intros Hi. unfold deref, mbind, M_bind. now rewrite Hi. Qed.

Lemma bind_removeRows_all {B} (i : nat) (it : QStandardItem)
    (f : unit -> M B) (w : World) :
  items w !! i = Some it ->
  (removeRows_all (Some i) ≫= f) w
  = f tt (set_items
            (<[i := {| item_text := item_text it; item_rows := [] |}]>
               (items w)) w).
Proof.
  intros Hi. unfold removeRows_all, deref, set_rows, mbind, M_bind, modify.
  now rewrite Hi.
Qed.

(** The loop that appends a row for each song to the item a member of
    the service points to. *)
Lemma for_each_appendRow (g : QobuzService -> option nat) (songs : SongList)
    (i : nat) (it : QStandardItem) (w : World) :
  g (service w) = Some i ->
  items w !! i = Some it ->
  for_each songs
    (fun song =>
       p ← gets (fun w => g (service w));
       appendRow p (RowSong song)) w
  = Ret tt
      (set_items
         (<[i := {| item_text := item_text it;
                    item_rows := item_rows it ++ (RowSong <$> songs) |}]>
            (items w)) w).
Proof.
  revert it w. induction songs as [|song songs IH]; intros it w Hg Hi.
  - cbn [for_each fmap list_fmap]. rewrite app_nil_r.
    destruct it as [text rows]. cbn [item_text item_rows].
    now rewrite (insert_id _ _ _ Hi), set_items_same.
  - cbn [for_each]. rewrite bind_assoc, bind_gets, Hg.
    rewrite (bind_appendRow _ _ _ _ _ Hi).
    rewrite IH with (it := {| item_text := item_text it;
                              item_rows := item_rows it ++ [RowSong song] |}).
    + fields. rewrite insert_insert_eq. rewrite <- app_assoc. reflexivity.
    + exact Hg.
    + fields. apply lookup_insert_eq.
Qed.

Lemma bind_for_each_appendRow {B} (g : QobuzService -> option nat)
    (songs : SongList) (i : nat) (it : QStandardItem) (f : unit -> M B)
    (w : World) :
  g (service w) = Some i ->
  items w !! i = Some it ->
  (for_each songs
     (fun song =>
        p ← gets (fun w => g (service w));
        appendRow p (RowSong song)) ≫= f) w
  = f tt
      (set_items
         (<[i := {| item_text := item_text it;
                    item_rows := item_rows it ++ (RowSong <$> songs) |}]>
            (items w)) w).
Proof.
  intros Hg Hi.
  now rewrite (bind_Ret _ _ _ _ _ (for_each_appendRow g songs i it w Hg Hi)).
Qed.

(** What [SetTaskFinished] leaves. *)
Lemma SetTaskFinished_done (id : Z) (w : World) :
  exists w',
    SetTaskFinished id w = Ret tt w'
    /\ ContainsTask id w' = false
    /\ (forall task, task <> id -> ContainsTask task w' = ContainsTask task w)
    /\ service w' = service w /\ settings w' = settings w
    /\ items w' = items w /\ next_item w' = next_item w
    /\ network w' = network w /\ closures w' = closures w
    /\ search_provider w' = search_provider w.
Proof.
  unfold SetTaskFinished. rewrite bind_gets.
  destruct (ContainsTask id w) eqn:C.
  - repeat step. eexists. split; [reflexivity|].
    unfold ContainsTask. fields. split_and!; try reflexivity.
    + apply bool_decide_eq_false. rewrite elem_of_difference.
      intros [_ Hn]. apply Hn. now apply elem_of_singleton.
    + intros task Hne. apply bool_decide_ext.
      rewrite elem_of_difference, elem_of_singleton. tauto.
  - rewrite run_mret. eexists. split; [reflexivity|].
    now split_and!.
Qed.

Section SongsShown.
Context `{Platform}.
Variable WaitForSignal : SignalName -> M unit.

(** X21: for a reply whose status is not 401, [UserFavoritesRetrieved]
    replaces the rows of the favorites by one row for each valid song
    of the reply, in order, none when the reply is an error, and
    finishes the task of the retrieval. *)
Theorem UserFavoritesRetrieved_replaces_rows (fuel : nat)
    (reply : QNetworkReply) (i : nat) (it : QStandardItem) (w : World) :
  HttpStatusCodeAttribute reply <> UNAUTHORIZED ->
  user_favorites_ (service w) = Some i ->
  items w !! i = Some it ->
  exists w',
    UserFavoritesRetrieved WaitForSignal fuel reply w = Ret tt w'
    /\ items w'
       = <[i := {| item_text := item_text it;
                   item_rows :=
                     RowSong
                     <$> ExtractSongs (value (reply_result reply) "tracks") |}]>
           (items w)
    /\ ContainsTask (task_user_favorites_id_ (service w)) w' = false
    /\ service w' = service w
    /\ network w' = network w.
Proof.
  intros H401 Hf Hi. unfold UserFavoritesRetrieved.
  rewrite bind_gets, Hf, (bind_removeRows_all _ _ _ _ Hi).
  rewrite (bind_Ret _ _ _ _ _
             (ExtractResult_answered WaitForSignal fuel reply _ H401)).
  set (songs := ExtractSongs (value (reply_result reply) "tracks")).
  unfold reply_reported.
  destruct (HttpStatusCodeAttribute reply =? NO_ERROR).
  all: erewrite (bind_for_each_appendRow user_favorites_)
         by (fields; first [exact Hf | apply lookup_insert_eq]).
  all: repeat step.
  all: match goal with
       | |- exists w', SetTaskFinished ?id ?W = _ /\ _ =>
           destruct (SetTaskFinished_done id W)
             as (w' & E & C & _ & Sv & _ & It & _ & N & _)
       end.
  all: exists w'; rewrite It, Sv, N; fields.
  all: split_and!; try assumption; try reflexivity.
  all: now rewrite insert_insert_eq.
Qed.

(** X22: for a reply whose status is not 401, [SearchFinished] adds
    one row for each valid song of the reply after the rows the search
    results have, finishes the task of the search and forgets it. *)
Theorem SearchFinished_appends_rows (fuel : nat) (reply : QNetworkReply)
    (i : nat) (it : QStandardItem) (w : World) :
  HttpStatusCodeAttribute reply <> UNAUTHORIZED ->
  search_ (service w) = Some i ->
  items w !! i = Some it ->
  exists w',
    SearchFinished_ WaitForSignal fuel reply w = Ret tt w'
    /\ items w'
       = <[i := {| item_text := item_text it;
                   item_rows :=
                     item_rows it
                     ++ (RowSong
                         <$> ExtractSongs
                               (value (reply_result reply) "tracks")) |}]>
           (items w)
    /\ ContainsTask (task_search_id_ (service w)) w' = false
    /\ task_search_id_ (service w') = 0
    /\ search_ (service w') = Some i
    /\ network w' = network w.
Proof.
  intros H401 Hs Hi. unfold SearchFinished_.
  rewrite (bind_Ret _ _ _ _ _
             (ExtractResult_answered WaitForSignal fuel reply _ H401)).
  set (songs := ExtractSongs (value (reply_result reply) "tracks")).
  unfold reply_reported.
  destruct (HttpStatusCodeAttribute reply =? NO_ERROR).
  all: erewrite (bind_for_each_appendRow search_)
         by (fields; first [exact Hs | exact Hi]).
  all: repeat step; rewrite Hs.
  all: erewrite bind_deref by (fields; apply lookup_insert_eq).
  all: repeat step.
  all: match goal with
       | |- exists w', (SetTaskFinished ?id ≫= _) ?W = _ /\ _ =>
           destruct (SetTaskFinished_done id W)
             as (w1 & E & C & _ & Sv & _ & It & _ & N & _)
       end.
  all: rewrite (bind_Ret _ _ _ _ _ E), run_modify.
  all: eexists; split; [reflexivity|].
  all: unfold ContainsTask in *; fields; rewrite It, Sv, N; fields.
  all: now split_and!.
Qed.

(** The request of [RetrieveUserFavorites]. *)
Lemma bind_RetrieveUserFavorites {B} (f : unit -> M B) (w : World) :
  (RetrieveUserFavorites ≫= f) w
  = f tt
      (set_closures
         (<[length (network w) := Slot_UserFavoritesRetrieved]> (closures w))
         (set_network
            (network w
             ++ [authorized_request kUserFavorites
                   [("type", "tracks"); ("user_id", user_id_ (service w))]
                   (access_token_ (service w))])
            (on_service
               (set_task_user_favorites_id_ (next_task_id_ (task_manager w)))
               (set_emitted (emitted w ++ [TasksChanged])
                  (set_task_manager
                     {| tasks_ := {[next_task_id_ (task_manager w)]}
                                  ∪ tasks_ (task_manager w);
                        next_task_id_ :=
                          to_int (next_task_id_ (task_manager w) + 1) |}
                     w))))).
Proof. reflexivity. Qed.

(** What a change of the favorites does once its reply is there. *)
Lemma favorites_changed (task_id : Z) (w : World) :
  exists w',
    (RetrieveUserFavorites;; SetTaskFinished task_id) w = Ret tt w'
    /\ ContainsTask task_id w' = false
    /\ network w'
       = network w
         ++ [authorized_request kUserFavorites
               [("type", "tracks"); ("user_id", user_id_ (service w))]
               (access_token_ (service w))]
    /\ closures w'
       = <[length (network w) := Slot_UserFavoritesRetrieved]> (closures w).
Proof.
  rewrite bind_RetrieveUserFavorites.
  match goal with
  | |- exists w', SetTaskFinished ?id ?W = _ /\ _ =>
      destruct (SetTaskFinished_done id W)
        as (w' & E & C & _ & _ & _ & _ & _ & N & Cl & _)
  end.
  exists w'. rewrite N, Cl. now split_and!.
Qed.

(** X23: the task of a change of the favorites is finished when the
    server reports it done, which the two slots read in two ways.  For
    a reply whose status is not 401, [UserFavoriteSongAdded] asks for
    the favorites again and finishes the task exactly when the text of
    the "status" member, [toString], is success;
    [SongsRemovedFromFavorites] does so exactly when the "status"
    member itself compares equal to the text success as a variant.  The
    two agree on a member that is a text; a member that is the boolean
    true passes the second comparison and not the first.  For any
    other reply, so for every reply that is an error, they send
    nothing and leave the task in the task manager. *)
Theorem favorites_change_finishes_task_on_success (fuel : nat)
    (reply : QNetworkReply) (task_id : Z) (w : World) :
  HttpStatusCodeAttribute reply <> UNAUTHORIZED ->
  let status := value (reply_result reply) "status" in
  let asked w' :=
    ContainsTask task_id w' = false
    /\ network w'
       = network w
         ++ [authorized_request kUserFavorites
               [("type", "tracks"); ("user_id", user_id_ (service w))]
               (access_token_ (service w))]
    /\ closures w'
       = <[length (network w) := Slot_UserFavoritesRetrieved]> (closures w) in
  let left w' :=
    ContainsTask task_id w' = ContainsTask task_id w
    /\ network w' = network w /\ closures w' = closures w in
  (exists w',
     UserFavoriteSongAdded WaitForSignal fuel reply task_id w = Ret tt w'
     /\ if String.eqb (toString status) "success" then asked w'
        else left w')
  /\ (exists w',
        SongsRemovedFromFavorites WaitForSignal fuel reply task_id w
        = Ret tt w'
        /\ if QVariant_eq_text status "success" then asked w' else left w')
  /\ (HttpStatusCodeAttribute reply <> NO_ERROR ->
      String.eqb (toString status) "success" = false
      /\ QVariant_eq_text status "success" = false)
  /\ (forall s,
        status = VString s ->
        String.eqb (toString status) "success" = String.eqb s "success"
        /\ QVariant_eq_text status "success" = String.eqb s "success")
  /\ (forall b,
        status = VBool b ->
        String.eqb (toString status) "success" = false
        /\ QVariant_eq_text status "success" = b).
Proof.
  intros H401 status asked left.
  assert (Hrun : forall (ok : bool),
    exists w',
      (if negb ok then mret tt
       else RetrieveUserFavorites;; SetTaskFinished task_id)
        (reply_reported reply w) = Ret tt w'
      /\ if ok then asked w' else left w').
  { intros ok. unfold asked, left, reply_reported, ContainsTask.
    destruct ok; cbn [negb].
    - destruct (HttpStatusCodeAttribute reply =? NO_ERROR).
      + apply favorites_changed.
      + destruct (favorites_changed task_id
                    (set_emitted
                       (emitted w
                        ++ [ReplyError (HttpStatusCodeAttribute reply)]) w))
          as (w' & E & F).
        exists w'. split; [exact E|]. exact F.
    - rewrite run_mret. eexists. split; [reflexivity|].
      destruct (HttpStatusCodeAttribute reply =? NO_ERROR); now split_and!. }
  split_and!.
  - unfold UserFavoriteSongAdded.
    rewrite (bind_Ret _ _ _ _ _
               (ExtractResult_answered WaitForSignal fuel reply _ H401)).
    apply Hrun.
  - unfold SongsRemovedFromFavorites.
    rewrite (bind_Ret _ _ _ _ _
               (ExtractResult_answered WaitForSignal fuel reply _ H401)).
    apply Hrun.
  - intros H200. unfold status. now rewrite (reply_result_error _ H200).
  - intros s ->. now split.
  - intros b ->. now destruct b.
Qed.
End SongsShown.

(** *** The songs of a playlist *)

Lemma bind_RefreshPlaylist {B} (playlist_id : Z) (f : unit -> M B)
    (w : World) :
  (RefreshPlaylist playlist_id ≫= f) w
  = f tt
      (set_closures
         (<[length (network w) :=
              Slot_PlaylistRetrieved playlist_id
                (next_pending_playlist_id_ (service w))]> (closures w))
         (on_service
            (fun q =>
               set_pending_retrieve_playlists_
                 ({[next_pending_playlist_id_ (service w)]}
                  ∪ pending_retrieve_playlists_ q)
                 (set_next_pending_playlist_id_
                    (to_int (next_pending_playlist_id_ (service w) + 1)) q))
            (set_network
               (network w
                ++ [authorized_request kGetPlaylist
                      [("extra", "tracks");
                       ("playlist_id", QString_number playlist_id)]
                      (access_token_ (service w))]) w))).
Proof. reflexivity. Qed.

Lemma bind_playlist_info {B} (featured : bool) (playlist_id : Z)
    (info : PlaylistInfo) (f : PlaylistInfo -> M B) (w : World) :
  playlists_info featured (service w) !! playlist_id = Some info ->
  (playlist_info featured playlist_id ≫= f) w = f info w.
Proof.
  unfold playlists_info, playlist_info, mbind, M_bind.
  destruct featured; intros ->; reflexivity.
Qed.

Lemma run_RefreshPlaylist (playlist_id : Z) (w : World) :
  RefreshPlaylist playlist_id w
  = Ret tt
      (set_closures
         (<[length (network w) :=
              Slot_PlaylistRetrieved playlist_id
                (next_pending_playlist_id_ (service w))]> (closures w))
         (on_service
            (fun q =>
               set_pending_retrieve_playlists_
                 ({[next_pending_playlist_id_ (service w)]}
                  ∪ pending_retrieve_playlists_ q)
                 (set_next_pending_playlist_id_
                    (to_int (next_pending_playlist_id_ (service w) + 1)) q))
            (set_network
               (network w
                ++ [authorized_request kGetPlaylist
                      [("extra", "tracks");
                       ("playlist_id", QString_number playlist_id)]
                      (access_token_ (service w))]) w))).
Proof. reflexivity. Qed.

Lemma bind_set_playlist_info {B} (featured : bool) (playlist_id : Z)
    (info : PlaylistInfo) (f : unit -> M B) (w : World) :
  (set_playlist_info featured playlist_id info ≫= f) w
  = f tt
      (on_service
         (fun q =>
            if featured then
              set_featured_playlists_info_
                (<[playlist_id := info]> (featured_playlists_info_ q)) q
            else
              set_user_playlists_info_
                (<[playlist_id := info]> (user_playlists_info_ q)) q) w).
Proof. reflexivity. Qed.

Lemma set_playlist_info_same (featured : bool) (playlist_id : Z)
    (info : PlaylistInfo) (w : World) :
  playlists_info featured (service w) !! playlist_id = Some info ->
  on_service
    (fun q =>
       if featured then
         set_featured_playlists_info_
           (<[playlist_id := info]> (featured_playlists_info_ q)) q
       else
         set_user_playlists_info_
           (<[playlist_id := info]> (user_playlists_info_ q)) q) w
  = w.
Proof.
  unfold playlists_info. destruct w as [q sp st tm its ni nw cl fr em ck ev].
  destruct q as [fi ui r s uf up fp sd ps nps ts npp tf tup tuf prp cs tk us ql].
  destruct featured; fields; intros Hl.
  all: unfold on_service, set_service, set_featured_playlists_info_,
         set_user_playlists_info_; fields.
  all: now rewrite (insert_id _ _ _ Hl).
Qed.

Section PlaylistSongsRetrieved.
Context `{Platform}.
Variable WaitForSignal : SignalName -> M unit.

(** The loop of [PlaylistRetrieved]: a row and an identifier for each
    song. *)
Lemma for_each_playlist_song (featured : bool) (playlist_id : Z)
    (songs : SongList) (info : PlaylistInfo) (i : nat) (it : QStandardItem)
    (w : World) :
  playlists_info featured (service w) !! playlist_id = Some info ->
  item_ info = Some i ->
  items w !! i = Some it ->
  for_each songs
    (fun song =>
       info ← playlist_info featured playlist_id;
       appendRow (item_ info) (RowSong song);;
       set_playlist_info featured playlist_id
         {| id_ := id_ info; name_ := name_ info; item_ := item_ info;
            songs_ids_ := songs_ids_ info
                          ++ [ExtractSongIdFromUrl (url song)] |}) w
  = Ret tt
      (on_service
         (fun q =>
            if featured then
              set_featured_playlists_info_
                (<[playlist_id :=
                     {| id_ := id_ info; name_ := name_ info;
                        item_ := item_ info;
                        songs_ids_ :=
                          songs_ids_ info
                          ++ ((fun song => ExtractSongIdFromUrl (url song))
                              <$> songs) |}]>
                   (featured_playlists_info_ q)) q
            else
              set_user_playlists_info_
                (<[playlist_id :=
                     {| id_ := id_ info; name_ := name_ info;
                        item_ := item_ info;
                        songs_ids_ :=
                          songs_ids_ info
                          ++ ((fun song => ExtractSongIdFromUrl (url song))
                              <$> songs) |}]>
                   (user_playlists_info_ q)) q)
         (set_items
            (<[i := {| item_text := item_text it;
                       item_rows := item_rows it ++ (RowSong <$> songs) |}]>
               (items w)) w)).
Proof.
  revert info it w.
  induction songs as [|song songs IH]; intros info it w Hinfo Hitem Hi.
  - cbn [for_each fmap list_fmap]. rewrite !app_nil_r.
    destruct it as [text rows]. cbn [item_text item_rows].
    rewrite (insert_id _ _ _ Hi), set_items_same.
    destruct info as [id name item ids]. cbn [id_ name_ item_ songs_ids_].
    now rewrite (set_playlist_info_same _ _ _ _ Hinfo).
  - cbn [for_each]. rewrite bind_assoc.
    rewrite (bind_playlist_info _ _ _ _ _ Hinfo), bind_assoc, Hitem.
    rewrite (bind_appendRow _ _ _ _ _ Hi).
    rewrite bind_set_playlist_info.
    rewrite (IH {| id_ := id_ info; name_ := name_ info; item_ := Some i;
                   songs_ids_ := songs_ids_ info
                                 ++ [ExtractSongIdFromUrl (url song)] |}
                {| item_text := item_text it;
                   item_rows := item_rows it ++ [RowSong song] |}).
    + f_equal. cbn [id_ name_ item_ songs_ids_ fmap list_fmap].
      unfold on_service, set_service, set_items,
        set_featured_playlists_info_, set_user_playlists_info_.
      destruct featured; fields; rewrite !insert_insert_eq;
        now rewrite <- !app_assoc.
    + unfold playlists_info. destruct featured; fields;
        apply lookup_insert_eq.
    + reflexivity.
    + fields. apply lookup_insert_eq.
Qed.

Lemma bind_for_each_playlist_song {B} (featured : bool) (playlist_id : Z)
    (songs : SongList) (info : PlaylistInfo) (i : nat) (it : QStandardItem)
    (f : unit -> M B) (w : World) :
  playlists_info featured (service w) !! playlist_id = Some info ->
  item_ info = Some i ->
  items w !! i = Some it ->
  (for_each songs
     (fun song =>
        info ← playlist_info featured playlist_id;
        appendRow (item_ info) (RowSong song);;
        set_playlist_info featured playlist_id
          {| id_ := id_ info; name_ := name_ info; item_ := item_ info;
             songs_ids_ := songs_ids_ info
                           ++ [ExtractSongIdFromUrl (url song)] |}) ≫= f) w
  = f tt
      (on_service
         (fun q =>
            if featured then
              set_featured_playlists_info_
                (<[playlist_id :=
                     {| id_ := id_ info; name_ := name_ info;
                        item_ := item_ info;
                        songs_ids_ :=
                          songs_ids_ info
                          ++ ((fun song => ExtractSongIdFromUrl (url song))
                              <$> songs) |}]>
                   (featured_playlists_info_ q)) q
            else
              set_user_playlists_info_
                (<[playlist_id :=
                     {| id_ := id_ info; name_ := name_ info;
                        item_ := item_ info;
                        songs_ids_ :=
                          songs_ids_ info
                          ++ ((fun song => ExtractSongIdFromUrl (url song))
                              <$> songs) |}]>
                   (user_playlists_info_ q)) q)
         (set_items
            (<[i := {| item_text := item_text it;
                       item_rows := item_rows it ++ (RowSong <$> songs) |}]>
               (items w)) w)).
Proof.
  intros Hinfo Hitem Hi.
  now rewrite (bind_Ret _ _ _ _ _
                 (for_each_playlist_song featured playlist_id songs info i it
                    w Hinfo Hitem Hi)).
Qed.

Lemma PlaylistRetrieved_filled (fuel : nat) (reply : QNetworkReply)
    (playlist_id request_id : Z) (info : PlaylistInfo) (i : nat)
    (it : QStandardItem) (w : World) :
  let featured :=
    bool_decide (is_Some (featured_playlists_info_ (service w) !! playlist_id))
  in
  let songs := ExtractSongs (value (reply_result reply) "tracks") in
  HttpStatusCodeAttribute reply <> UNAUTHORIZED ->
  request_id ∈ pending_retrieve_playlists_ (service w) ->
  playlists_info featured (service w) !! playlist_id = Some info ->
  item_ info = Some i ->
  items w !! i = Some it ->
  exists w',
    PlaylistRetrieved_ WaitForSignal fuel reply playlist_id request_id w
    = Ret tt w'
    /\ pending_retrieve_playlists_ (service w')
       = pending_retrieve_playlists_ (service w) ∖ {[request_id]}
    /\ playlists_info featured (service w') !! playlist_id
       = Some {| id_ := id_ info; name_ := name_ info; item_ := Some i;
                 songs_ids_ :=
                   (fun song => ExtractSongIdFromUrl (url song)) <$> songs |}
    /\ items w'
       = <[i := {| item_text := item_text it;
                   item_rows := RowSong <$> songs |}]> (items w)
    /\ emitted w' = emitted (reply_reported reply w) ++ [PlaylistRetrieved]
    /\ network w' = network w
    /\ closures w' = closures w
    /\ task_manager w' = task_manager w.
Proof.
  intros featured songs H401 Hreq. unfold PlaylistRetrieved_.
  rewrite bind_gets, bool_decide_eq_true_2 by assumption. cbn [negb].
  repeat step. fold songs. subst featured.
  destruct (bool_decide
              (is_Some (featured_playlists_info_ (service w) !! playlist_id)))
    eqn:F; unfold playlists_info; intros Hinfo Hitem Hi.
  2: rewrite (bool_decide_eq_true_2
                (is_Some (user_playlists_info_ (service w) !! playlist_id)))
       by eauto.
  all: fields; repeat step.
  all: rewrite (bind_playlist_info _ playlist_id info) by exact Hinfo.
  all: rewrite Hitem, (bind_removeRows_all i it) by exact Hi.
  all: rewrite (bind_Ret _ _ _ _ _
                  (ExtractResult_answered WaitForSignal fuel reply _ H401)).
  all: fold songs; unfold reply_reported.
  all: destruct (HttpStatusCodeAttribute reply =? NO_ERROR).
  all: rewrite (bind_playlist_info _ playlist_id info) by exact Hinfo.
  all: rewrite bind_set_playlist_info.
  all: erewrite bind_for_each_playlist_song
         by (unfold playlists_info; fields;
             first [apply lookup_insert_eq | exact Hitem]).
  all: rewrite run_emit; eexists; split; [reflexivity|].
  all: fields.
  all: rewrite ?lookup_insert_eq, ?insert_insert_eq, ?Hitem.
  all: now split_and!.
Qed.

(** X24: [PlaylistRetrieved] does nothing for a request that is not
    pending any more; for a pending one, a playlist of one of the two
    maps and a reply whose status is not 401, it takes the request out
    of the pending ones, replaces the rows of the playlist by one row
    for each valid song of the reply and the identifiers of the
    playlist by those of the same songs, in the same order, and emits
    [PlaylistRetrieved]. *)
Theorem PlaylistRetrieved_fills_playlist (fuel : nat)
    (reply : QNetworkReply) (playlist_id request_id : Z) (w : World) :
  let featured :=
    bool_decide (is_Some (featured_playlists_info_ (service w) !! playlist_id))
  in
  let songs := ExtractSongs (value (reply_result reply) "tracks") in
  (request_id ∉ pending_retrieve_playlists_ (service w) ->
   PlaylistRetrieved_ WaitForSignal fuel reply playlist_id request_id w
   = Ret tt w)
  /\ forall info i it,
       HttpStatusCodeAttribute reply <> UNAUTHORIZED ->
       request_id ∈ pending_retrieve_playlists_ (service w) ->
       playlists_info featured (service w) !! playlist_id = Some info ->
       item_ info = Some i ->
       items w !! i = Some it ->
       exists w',
         PlaylistRetrieved_ WaitForSignal fuel reply playlist_id request_id w
         = Ret tt w'
         /\ pending_retrieve_playlists_ (service w')
            = pending_retrieve_playlists_ (service w) ∖ {[request_id]}
         /\ playlists_info featured (service w') !! playlist_id
            = Some {| id_ := id_ info; name_ := name_ info; item_ := Some i;
                      songs_ids_ :=
                        (fun song => ExtractSongIdFromUrl (url song))
                        <$> songs |}
         /\ items w'
            = <[i := {| item_text := item_text it;
                        item_rows := RowSong <$> songs |}]> (items w)
         /\ emitted w'
            = emitted (reply_reported reply w) ++ [PlaylistRetrieved].
Proof.
  intros featured songs. split.
  - intros Hreq. unfold PlaylistRetrieved_. rewrite bind_gets.
    now rewrite bool_decide_eq_false_2.
  - intros info i it H401 Hreq Hinfo Hitem Hi.
    destruct (PlaylistRetrieved_filled fuel reply playlist_id request_id
                info i it w H401 Hreq Hinfo Hitem Hi)
      as (w' & E & P & I & It & Em & _).
    exists w'. now split_and!.
Qed.
End PlaylistSongsRetrieved.

Section PlaylistRefreshed.
Context `{Platform}.
Variable WaitForSignal : SignalName -> M unit.

(** X25: the reply to the request of [RefreshPlaylist] comes back to
    the playlist it was sent for: [RefreshPlaylist] marks a new request
    as pending and binds its reply to [PlaylistRetrieved] with the
    playlist and the request; when the event loop delivers the reply,
    its status not being 401, the request is no longer pending and the
    rows of the playlist are the valid songs of the reply. *)
Theorem RefreshPlaylist_round_trip (fuel : nat) (reply : QNetworkReply)
    (playlist_id : Z) (info : PlaylistInfo) (i : nat) (it : QStandardItem)
    (w : World) :
  let featured :=
    bool_decide (is_Some (featured_playlists_info_ (service w) !! playlist_id))
  in
  let request_id := next_pending_playlist_id_ (service w) in
  let songs := ExtractSongs (value (reply_result reply) "tracks") in
  HttpStatusCodeAttribute reply <> UNAUTHORIZED ->
  reply_handle reply = length (network w) ->
  playlists_info featured (service w) !! playlist_id = Some info ->
  item_ info = Some i ->
  items w !! i = Some it ->
  exists w1 w2,
    RefreshPlaylist playlist_id w = Ret tt w1
    /\ network w1
       = network w
         ++ [authorized_request kGetPlaylist
               [("extra", "tracks");
                ("playlist_id", QString_number playlist_id)]
               (access_token_ (service w))]
    /\ request_id ∈ pending_retrieve_playlists_ (service w1)
    /\ closures w1 !! length (network w)
       = Some (Slot_PlaylistRetrieved playlist_id request_id)
    /\ deliver WaitForSignal fuel (EvReplyFinished reply) w1 = Ret tt w2
    /\ pending_retrieve_playlists_ (service w2)
       = pending_retrieve_playlists_ (service w) ∖ {[request_id]}
    /\ items w2
       = <[i := {| item_text := item_text it;
                   item_rows := RowSong <$> songs |}]> (items w)
    /\ playlists_info featured (service w2) !! playlist_id
       = Some {| id_ := id_ info; name_ := name_ info; item_ := Some i;
                 songs_ids_ :=
                   (fun song => ExtractSongIdFromUrl (url song)) <$> songs |}
    /\ last (emitted w2) = Some PlaylistRetrieved.
Proof.
  intros featured request_id songs H401 Hh Hinfo Hitem Hi.
  pose proof (run_RefreshPlaylist playlist_id w) as E.
  match type of E with _ = Ret tt ?W => set (w1 := W) in * end.
  set (w1' := set_closures (delete (length (network w)) (closures w1))
                (set_emitted (emitted w1 ++ [finished (length (network w))])
                   (set_finished_replies
                      (<[length (network w) := reply]> (finished_replies w1))
                      w1))).
  destruct (PlaylistRetrieved_filled WaitForSignal fuel reply playlist_id
              request_id info i it w1') as (w2 & E2 & P & I & It & Em & _).
  { exact H401. }
  { unfold w1', w1. fields. apply elem_of_union_l.
    now apply elem_of_singleton. }
  { exact Hinfo. }
  { exact Hitem. }
  { exact Hi. }
  exists w1, w2. split_and!.
  - exact E.
  - reflexivity.
  - unfold w1. fields. apply elem_of_union_l. now apply elem_of_singleton.
  - unfold w1. fields. apply lookup_insert_eq.
  - cbn [deliver]. rewrite Hh. repeat step.
    replace (closures w1 !! length (network w))
      with (Some (Slot_PlaylistRetrieved playlist_id request_id))
      by (unfold w1; fields; now rewrite lookup_insert_eq).
    repeat step. exact E2.
  - rewrite P. unfold w1', w1, request_id. fields. apply set_eq. intros x.
    rewrite !elem_of_difference, elem_of_union, elem_of_singleton. tauto.
  - exact It.
  - exact I.
  - rewrite Em. apply last_snoc.
Qed.

(** X26: [PlaylistSongsSet] takes the update for done when the reply,
    its status not being 401, names the playlist in its "id" member:
    it then asks for the songs of the playlist again and finishes the
    task of the update; otherwise, as for every reply that is an error
    when the playlist is not number 0, it sends nothing and leaves the
    task in the task manager. *)
Theorem PlaylistSongsSet_refreshes_on_success (fuel : nat)
    (reply : QNetworkReply) (playlist_id task_id : Z) (w : World) :
  HttpStatusCodeAttribute reply <> UNAUTHORIZED ->
  let done := toInt (value (reply_result reply) "id") =? playlist_id in
  (exists w',
     PlaylistSongsSet WaitForSignal fuel reply playlist_id task_id w
     = Ret tt w'
     /\ if done then
          ContainsTask task_id w' = false
          /\ network w'
             = network w
               ++ [authorized_request kGetPlaylist
                     [("extra", "tracks");
                      ("playlist_id", QString_number playlist_id)]
                     (access_token_ (service w))]
          /\ closures w'
             = <[length (network w) :=
                   Slot_PlaylistRetrieved playlist_id
                     (next_pending_playlist_id_ (service w))]> (closures w)
          /\ pending_retrieve_playlists_ (service w')
             = {[next_pending_playlist_id_ (service w)]}
               ∪ pending_retrieve_playlists_ (service w)
        else
          ContainsTask task_id w' = ContainsTask task_id w
          /\ network w' = network w
          /\ closures w' = closures w
          /\ pending_retrieve_playlists_ (service w')
             = pending_retrieve_playlists_ (service w))
  /\ (HttpStatusCodeAttribute reply <> NO_ERROR ->
      done = (0 =? playlist_id)).
Proof.
  intros H401 done. split.
  - unfold PlaylistSongsSet.
    rewrite (bind_Ret _ _ _ _ _
               (ExtractResult_answered WaitForSignal fuel reply _ H401)).
    fold done. unfold reply_reported, ContainsTask.
    destruct (HttpStatusCodeAttribute reply =? NO_ERROR);
      destruct done; cbn [negb].
    1, 3: rewrite bind_RefreshPlaylist;
      match goal with
      | |- exists w', SetTaskFinished ?id ?W = _ /\ _ =>
          destruct (SetTaskFinished_done id W)
            as (w' & E & C & _ & Sv & _ & _ & _ & N & Cl & _)
      end;
      exists w'; rewrite Sv, N, Cl; now split_and!.
    all: rewrite run_mret; eexists; split; [reflexivity|]; now split_and!.
  - intros H200. unfold done. now rewrite (reply_result_error _ H200).
Qed.
End PlaylistRefreshed.

(** *** Typing in the search box *)

Lemma for_each_app {A} (l1 l2 : list A) (body : A -> M unit) (w : World) :
  for_each (l1 ++ l2) body w = (for_each l1 body;; for_each l2 body) w.
Proof.
  revert w. induction l1 as [|a l1 IH]; intros w; cbn [for_each app].
  - reflexivity.
  - unfold mbind, M_bind. destruct (body a w); try reflexivity.
    rewrite IH. reflexivity.
Qed.

Lemma ClearSearchResults_Ret (w : World) :
  valid_item (search_ (service w)) w ->
  exists its,
    ClearSearchResults w = Ret tt (set_items its w)
    /\ forall i, is_Some (items w !! i) -> is_Some (its !! i).
Proof.
  intros Hv. unfold ClearSearchResults. rewrite bind_gets.
  destruct (search_ (service w)) as [s|] eqn:Es.
  - destruct (Hv s eq_refl) as [it Hit].
    unfold removeRows_all. rewrite (bind_deref _ _ _ _ Hit).
    unfold set_rows. rewrite run_modify. eexists. split; [reflexivity|].
    intros i Hi. destruct (decide (i = s)) as [->|Hne].
    + rewrite lookup_insert_eq. eauto.
    + now rewrite lookup_insert_ne.
  - rewrite run_mret. exists (items w). rewrite set_items_same.
    split; [reflexivity | tauto].
Qed.

Lemma Search_later (text : string) (w : World) :
  valid_item (search_ (service w)) w ->
  exists w',
    Search text false w = Ret tt w'
    /\ typing w w'
    /\ pending_search_ (service w') = text
    /\ search_delay_ (service w') = negb (QString_isEmpty text).
Proof.
  intros Hv. unfold Search. repeat step.
  assert (Hstart : exists w0,
    (if task_search_id_ (service w) =? 0
     then t ← StartTask; modify (on_service (set_task_search_id_ t))
     else mret tt) (on_service (set_pending_search_ text) w) = Ret tt w0
    /\ network w0 = network w /\ closures w0 = closures w
    /\ items w0 = items w
    /\ access_token_ (service w0) = access_token_ (service w)
    /\ search_ (service w0) = search_ (service w)
    /\ pending_search_ (service w0) = text).
  { destruct (task_search_id_ (service w) =? 0); repeat step.
    all: eexists; split; [reflexivity|]; now split_and!. }
  destruct Hstart as (w0 & E0 & N0 & C0 & I0 & T0 & S0 & P0).
  rewrite (bind_Ret _ _ _ _ _ E0).
  assert (Hv0 : forall v, items v = items w0 ->
                  search_ (service v) = search_ (service w0) ->
                  valid_item (search_ (service v)) v).
  { intros v Hi Hs i Hsi. rewrite Hi, I0. apply Hv. congruence. }
  destruct (QString_isEmpty text); cbn [negb]; repeat step.
  - destruct (ClearSearchResults_Ret
                (on_service (set_search_delay_ false) w0))
      as (its & E1 & Hits).
    { now apply Hv0. }
    rewrite E1. eexists. split; [reflexivity|]. unfold typing. fields.
    split_and!; try assumption; try reflexivity.
    intros i Hi. fields. apply Hits. fields. rewrite I0. apply Hv. congruence.
  - eexists. split; [reflexivity|]. unfold typing. fields.
    split_and!; try assumption; try reflexivity.
    now apply (Hv0 (on_service (set_search_delay_ true) w0)).
Qed.

Section Typing.
Context `{Platform}.
Variable WaitForSignal : SignalName -> M unit.

Lemma typing_texts (fuel : nat) (texts : list string) (w : World) :
  valid_item (search_ (service w)) w ->
  exists w',
    for_each (EvTextChanged <$> texts) (deliver WaitForSignal fuel) w
    = Ret tt w'
    /\ typing w w'.
Proof.
  revert w. induction texts as [|text texts IH]; intros w Hv.
  - exists w. split; [reflexivity|]. now unfold typing.
  - cbn [fmap list_fmap for_each deliver].
    destruct (Search_later text w Hv) as (w1 & E1 & (N1 & C1 & T1 & V1) & _).
    rewrite (bind_Ret _ _ _ _ _ E1).
    destruct (IH w1 V1) as (w' & E' & N' & C' & T' & V').
    exists w'. split; [exact E'|]. unfold typing.
    split_and!; try assumption; congruence.
Qed.

(** X27: while the user types, each change of the search box only
    restarts the timer; when the timer goes off, one request is sent,
    to /catalog/search with the last text as its query, bound to
    [SearchFinished], or none when the last text is empty; the timer
    going off once more sends nothing. *)
Theorem typing_sends_last_text (fuel : nat) (texts : list string)
    (text : string) (w : World) :
  valid_item (search_ (service w)) w ->
  exists w1 w2,
    for_each (EvTextChanged <$> (texts ++ [text]))
      (deliver WaitForSignal fuel) w = Ret tt w1
    /\ network w1 = network w
    /\ closures w1 = closures w
    /\ pending_search_ (service w1) = text
    /\ deliver WaitForSignal fuel EvSearchDelayTimeout w1 = Ret tt w2
    /\ network w2
       = network w
         ++ (if QString_isEmpty text then []
             else [search_request 100 text (access_token_ (service w))])
    /\ closures w2
       = (if QString_isEmpty text then closures w
          else <[length (network w) := Slot_SearchFinished]> (closures w))
    /\ deliver WaitForSignal fuel EvSearchDelayTimeout w2 = Ret tt w2.
Proof.
  intros Hv. rewrite fmap_app.
  destruct (typing_texts fuel texts w Hv) as (w0 & E0 & N0 & C0 & T0 & V0).
  destruct (Search_later text w0 V0)
    as (w1 & E1 & (N1 & C1 & T1 & V1) & P1 & D1).
  assert (E : for_each
                ((EvTextChanged <$> texts) ++ (EvTextChanged <$> [text]))
                (deliver WaitForSignal fuel) w = Ret tt w1).
  { rewrite for_each_app, (bind_Ret _ _ _ _ _ E0).
    cbn [fmap list_fmap for_each deliver].
    rewrite (bind_Ret _ _ _ _ _ E1). reflexivity. }
  destruct (QString_isEmpty text) eqn:Ht; cbn [negb] in D1.
  - assert (Et : deliver WaitForSignal fuel EvSearchDelayTimeout w1
                 = Ret tt w1)
      by (cbn [deliver]; now rewrite bind_gets, D1).
    exists w1, w1. rewrite app_nil_r.
    split_and!; try assumption; congruence.
  - destruct (ClearSearchResults_Ret
                (on_service (set_search_delay_ false) w1))
      as (its & E2 & _).
    { intros i Hi. apply V1. exact Hi. }
    eexists w1, _. split_and!.
    + exact E.
    + congruence.
    + congruence.
    + exact P1.
    + cbn [deliver]. rewrite bind_gets, D1, bind_modify. unfold DoSearch.
      rewrite (bind_Ret _ _ _ _ _ E2). repeat step. reflexivity.
    + fields. rewrite P1, N1, N0, T1, T0. reflexivity.
    + fields. now rewrite N1, N0, C1, C0.
    + cbn [deliver]. rewrite bind_gets. fields. reflexivity.
Qed.
End Typing.

(** *** Playlists made, removed and renamed *)

Lemma index_of_item_snoc (rows : list Row) (child : nat) :
  RowItem child ∉ rows ->
  index_of_item (rows ++ [RowItem child]) child = Some (length rows).
Proof.
  induction rows as [|[c|s] rows IH]; intros Hn; cbn [app index_of_item].
  - now rewrite Nat.eqb_refl.
  - apply not_elem_of_cons in Hn as [Hc Hn].
    destruct (Nat.eqb_spec c child) as [->|_]; [congruence|].
    now rewrite (IH Hn).
  - apply not_elem_of_cons in Hn as [_ Hn]. now rewrite (IH Hn).
Qed.

Lemma bind_row {B} (p c : nat) (pit cit : QStandardItem) (f : Z -> M B)
    (w : World) :
  items w !! p = Some pit ->
  items w !! c = Some cit ->
  (row (Some p) (Some c) ≫= f) w
  = f (match index_of_item (item_rows pit) c with
       | Some k => Z.of_nat k
       | None => -1
       end) w.
Proof.
  intros Hp Hc. unfold row. rewrite bind_assoc, (bind_deref _ _ _ _ Hp).
  rewrite bind_assoc, (bind_deref _ _ _ _ Hc). reflexivity.
Qed.

Lemma run_removeRow (p : nat) (pit : QStandardItem) (k : nat) (w : World) :
  items w !! p = Some pit ->
  (k < length (item_rows pit))%nat ->
  removeRow (Some p) (Z.of_nat k) w
  = Ret tt
      (set_items
         (<[p := {| item_text := item_text pit;
                    item_rows := delete k (item_rows pit) |}]> (items w)) w).
Proof.
  intros Hp Hk. unfold removeRow. rewrite (bind_deref _ _ _ _ Hp).
  replace (0 <=? Z.of_nat k) with true by (symmetry; apply Z.leb_le; lia).
  replace (Z.of_nat k <? Z.of_nat (length (item_rows pit))) with true
    by (symmetry; apply Z.ltb_lt; lia).
  cbn [andb]. unfold set_rows. now rewrite Nat2Z.id.
Qed.

Section PlaylistsManaged.
Context `{Platform}.
Variable WaitForSignal : SignalName -> M unit.

(** X28: a playlist that is made and then removed leaves the tree and
    the map of the user's playlists as they were.  [CreateNewPlaylist]
    sends the name to /playlist/create; when the reply names the new
    playlist, [NewPlaylistCreated] files it under the identifier of
    the reply with the name the server gave, and hangs a new item with
    that name below the playlists; [DeletePlaylist], once confirmed,
    sends the identifier to /playlist/delete, and when the reply
    reports success [PlaylistDeleted] takes the entry and the row
    out. *)
Theorem playlist_created_then_deleted (fuel : nat) (name : string)
    (created deleted : QNetworkReply) (p : nat) (pit : QStandardItem)
    (w : World) :
  let result := reply_result created in
  let playlist_id := toInt (value result "id") in
  let name_from_server := toString (value result "name") in
  let n := next_item w in
  name <> "" ->
  HttpStatusCodeAttribute created <> UNAUTHORIZED ->
  HttpStatusCodeAttribute deleted <> UNAUTHORIZED ->
  isValid (value result "id") = true ->
  toString (value (reply_result deleted) "status") = "success" ->
  user_playlists_ (service w) = Some p ->
  items w !! p = Some pit ->
  (p < n)%nat ->
  RowItem n ∉ item_rows pit ->
  user_playlists_info_ (service w) !! playlist_id = None ->
  exists w0 w1 w2 w3,
    CreateNewPlaylist name w
    = Ret (Some (length (network w), Slot_NewPlaylistCreated name)) w0
    /\ network w0
       = network w
         ++ [authorized_request kCreatePlaylist [("name", name)]
               (access_token_ (service w))]
    /\ call_playlist_slot WaitForSignal fuel (Slot_NewPlaylistCreated name)
         created w0 = Ret tt w1
    /\ user_playlists_info_ (service w1) !! playlist_id
       = Some {| id_ := playlist_id; name_ := name_from_server;
                 item_ := Some n; songs_ids_ := [] |}
    /\ items w1 !! n
       = Some {| item_text := name_from_server; item_rows := [] |}
    /\ items w1 !! p
       = Some {| item_text := item_text pit;
                 item_rows := item_rows pit ++ [RowItem n] |}
    /\ DeletePlaylist true playlist_id w1
       = Ret (Some (length (network w0), Slot_PlaylistDeleted playlist_id))
           w2
    /\ network w2
       = network w0
         ++ [authorized_request kDeletePlaylist
               [("playlist_id", QString_number playlist_id)]
               (access_token_ (service w))]
    /\ call_playlist_slot WaitForSignal fuel
         (Slot_PlaylistDeleted playlist_id) deleted w2 = Ret tt w3
    /\ user_playlists_info_ (service w3) = user_playlists_info_ (service w)
    /\ items w3 !! p = Some pit.
Proof.
  intros result playlist_id name_from_server n Hname Hc401 Hd401 Hid Hok
    Hp Hpit Hlt Hfresh Hnew.
  apply QString_isEmpty_false in Hname.
  assert (Rc : forall v,
    items (reply_reported created v) = items v
    /\ service (reply_reported created v) = service v
    /\ next_item (reply_reported created v) = next_item v
    /\ network (reply_reported created v) = network v)
    by (intros v; unfold reply_reported; now destruct (_ =? _)).
  assert (Rd : forall v,
    items (reply_reported deleted v) = items v
    /\ service (reply_reported deleted v) = service v)
    by (intros v; unfold reply_reported; now destruct (_ =? _)).
  (* the request for the new playlist *)
  eassert (E0 : CreateNewPlaylist name w = Ret _ _).
  { unfold CreateNewPlaylist.
    rewrite Hname, bind_CreateRequest, run_mret. reflexivity. }
  match type of E0 with _ = Ret _ ?W => set (w0 := W) in * end.
  (* its reply *)
  eassert (E1 : call_playlist_slot WaitForSignal fuel
                  (Slot_NewPlaylistCreated name) created w0 = Ret tt _).
  { cbn [call_playlist_slot]. unfold NewPlaylistCreated.
    rewrite (bind_Ret _ _ _ _ _
               (ExtractResult_answered WaitForSignal fuel created _ Hc401)).
    fold result. rewrite Hid. cbn [negb].
    fold playlist_id name_from_server.
    unfold CreatePlaylistItem. rewrite bind_new_QStandardItem, bind_gets.
    fields. rewrite !(proj1 (proj2 (Rc _))),
      !(proj1 (proj2 (proj2 (Rc _)))), !(proj1 (Rc _)).
    unfold w0. fields. fold n. rewrite Hp.
    erewrite bind_appendRow
      by (fields; rewrite lookup_insert_ne by lia; exact Hpit).
    rewrite run_modify. reflexivity. }
  match type of E1 with _ = Ret _ ?W => set (w1 := W) in * end.
  assert (I1 : user_playlists_info_ (service w1) !! playlist_id
               = Some {| id_ := playlist_id; name_ := name_from_server;
                         item_ := Some n; songs_ids_ := [] |}).
  { unfold w1. fields. apply lookup_insert_eq. }
  assert (Hn1 : items w1 !! n
                = Some {| item_text := name_from_server; item_rows := [] |}).
  { unfold w1. fields. rewrite lookup_insert_ne by lia.
    apply lookup_insert_eq. }
  assert (Hp1 : items w1 !! p
                = Some {| item_text := item_text pit;
                          item_rows := item_rows pit ++ [RowItem n] |}).
  { unfold w1. fields. apply lookup_insert_eq. }
  assert (S1 : user_playlists_ (service w1) = Some p
               /\ access_token_ (service w1) = access_token_ (service w)
               /\ network w1 = network w0
               /\ user_playlists_info_ (service w1)
                  = <[playlist_id :=
                        {| id_ := playlist_id; name_ := name_from_server;
                           item_ := Some n; songs_ids_ := [] |}]>
                      (user_playlists_info_ (service w))).
  { unfold w1. fields.
    rewrite !(proj1 (proj2 (Rc _))), !(proj2 (proj2 (proj2 (Rc _)))).
    unfold w0. fields. now split_and!. }
  destruct S1 as (Sp & St & Sn & Si).
  (* the request to remove it *)
  eassert (E2 : DeletePlaylist true playlist_id w1 = Ret _ _).
  { unfold DeletePlaylist. rewrite bind_gets, I1.
    rewrite bool_decide_eq_true_2 by eauto. cbn [negb].
    rewrite bind_CreateRequest, run_mret, Sn, St. reflexivity. }
  match type of E2 with _ = Ret _ ?W => set (w2 := W) in * end.
  assert (S2 : service w2 = service w1 /\ items w2 = items w1)
    by now unfold w2.
  destruct S2 as (Sv2 & It2).
  (* its reply *)
  eassert (E3 : call_playlist_slot WaitForSignal fuel
                  (Slot_PlaylistDeleted playlist_id) deleted w2 = Ret tt _).
  { cbn [call_playlist_slot]. unfold PlaylistDeleted.
    rewrite (bind_Ret _ _ _ _ _
               (ExtractResult_answered WaitForSignal fuel deleted _ Hd401)).
    rewrite Hok. cbn [String.eqb Ascii.eqb Bool.eqb negb].
    rewrite bind_gets, (proj2 (Rd _)), Sv2, I1. repeat step.
    rewrite (proj2 (Rd _)), Sv2, Sp. cbn [item_].
    rewrite (bind_row p n _ _)
      by (fields; rewrite (proj1 (Rd _)), It2; eassumption).
    fields. rewrite (index_of_item_snoc _ _ Hfresh).
    erewrite run_removeRow
      by (first [ fields; rewrite (proj1 (Rd _)), It2; exact Hp1
                | fields; rewrite length_app; cbn; lia ]).
    reflexivity. }
  match type of E3 with _ = Ret _ ?W => set (w3 := W) in * end.
  exists w0, w1, w2, w3. split_and!; try assumption; try reflexivity.
  - unfold w3. fields. rewrite Si. now apply delete_insert_id.
  - unfold w3. fields. rewrite lookup_insert_eq. fields.
    rewrite delete_middle, app_nil_r. now destruct pit.
Qed.

(** X29: the name of a playlist in the map of the user's playlists
    and the text of its item change together.  [RenamePlaylist] sends
    the name the dialog returned to /playlist/update; when the reply,
    its status not being 401, has an "id" member, [PlaylistRenamed]
    gives that name to the entry of the map and to the item; for any
    other reply both keep the old name. *)
Theorem playlist_renamed (fuel : nat) (getText : string -> string)
    (renamed : QNetworkReply) (playlist_id : Z) (info : PlaylistInfo)
    (i : nat) (it : QStandardItem) (w : World) :
  let new_name := getText (name_ info) in
  user_playlists_info_ (service w) !! playlist_id = Some info ->
  item_ info = Some i ->
  items w !! i = Some it ->
  new_name <> "" ->
  HttpStatusCodeAttribute renamed <> UNAUTHORIZED ->
  exists w0 w1,
    RenamePlaylist getText playlist_id w
    = Ret (Some (length (network w),
                 Slot_PlaylistRenamed playlist_id new_name)) w0
    /\ network w0
       = network w
         ++ [authorized_request kUpdatePlaylist
               [("playlist_id", QString_number playlist_id);
                ("name", new_name)]
               (access_token_ (service w))]
    /\ call_playlist_slot WaitForSignal fuel
         (Slot_PlaylistRenamed playlist_id new_name) renamed w0 = Ret tt w1
    /\ if isValid (value (reply_result renamed) "id") then
         user_playlists_info_ (service w1) !! playlist_id
         = Some {| id_ := id_ info; name_ := new_name; item_ := item_ info;
                   songs_ids_ := songs_ids_ info |}
         /\ items w1 !! i
            = Some {| item_text := new_name; item_rows := item_rows it |}
       else
         user_playlists_info_ (service w1) = user_playlists_info_ (service w)
         /\ items w1 = items w.
Proof.
  intros new_name Hinfo Hitem Hi Hname H401.
  apply QString_isEmpty_false in Hname.
  assert (Rr : forall v,
    items (reply_reported renamed v) = items v
    /\ service (reply_reported renamed v) = service v)
    by (intros v; unfold reply_reported; now destruct (_ =? _)).
  eassert (E0 : RenamePlaylist getText playlist_id w = Ret _ _).
  { unfold RenamePlaylist. rewrite bind_gets, Hinfo. cbv zeta.
    fold new_name. rewrite Hname, bind_CreateRequest, run_mret.
    reflexivity. }
  match type of E0 with _ = Ret _ ?W => set (w0 := W) in * end.
  assert (S0 : service w0 = service w /\ items w0 = items w)
    by now unfold w0.
  destruct S0 as (Sv0 & It0).
  destruct (isValid (value (reply_result renamed) "id")) eqn:Hv.
  - eassert (E1 : call_playlist_slot WaitForSignal fuel
                    (Slot_PlaylistRenamed playlist_id new_name) renamed w0
                  = Ret tt _).
    { cbn [call_playlist_slot]. unfold PlaylistRenamed.
      rewrite (bind_Ret _ _ _ _ _
                 (ExtractResult_answered WaitForSignal fuel renamed _ H401)).
      rewrite Hv. cbn [negb].
      rewrite bind_gets, (proj2 (Rr _)), Sv0, Hinfo.
      rewrite bind_set_playlist_info, Hitem.
      erewrite bind_deref
        by (fields; rewrite (proj1 (Rr _)), It0; exact Hi).
      rewrite run_modify. reflexivity. }
    match type of E1 with _ = Ret _ ?W => set (w1 := W) in * end.
    exists w0, w1. split_and!; try assumption; try reflexivity.
    + unfold w1. fields. rewrite (proj2 (Rr _)), Sv0. fields.
      rewrite Hitem. apply lookup_insert_eq.
    + unfold w1. fields. apply lookup_insert_eq.
  - eassert (E1 : call_playlist_slot WaitForSignal fuel
                    (Slot_PlaylistRenamed playlist_id new_name) renamed w0
                  = Ret tt _).
    { cbn [call_playlist_slot]. unfold PlaylistRenamed.
      rewrite (bind_Ret _ _ _ _ _
                 (ExtractResult_answered WaitForSignal fuel renamed _ H401)).
      rewrite Hv. cbn [negb]. rewrite run_mret. reflexivity. }
    exists w0, (reply_reported renamed w0).
    split_and!; try assumption; try reflexivity.
    + now rewrite (proj2 (Rr _)), Sv0.
    + now rewrite (proj1 (Rr _)), It0.
Qed.
End PlaylistsManaged.

(** *** The playlists of a reply *)

Section PlaylistsListed.
Context `{Platform}.
Variable WaitForSignal : SignalName -> M unit.

(** The loop of [UserPlaylistsRetrieved]. *)
Lemma for_each_user_playlist (l : QVariantList) :
  forall (w : World) (p : nat) (pit : QStandardItem),
    user_playlists_ (service w) = Some p ->
    items w !! p = Some pit ->
    (p < next_item w)%nat ->
    exists w',
      for_each l
        (fun item =>
           let playlist_map := toMap item in
           let playlist_id := toInt (value playlist_map "id") in
           let playlist_name := toString (value playlist_map "name") in
           playlist_item ← CreatePlaylistItem playlist_name playlist_id;
           playlists ← gets (fun w => user_playlists_ (service w));
           appendRow playlists (RowItem playlist_item);;
           modify (on_service (fun q =>
             set_user_playlists_info_
               (<[playlist_id :=
                    {| id_ := playlist_id; name_ := playlist_name;
                       item_ := Some playlist_item; songs_ids_ := [] |}]>
                  (user_playlists_info_ q)) q));;
           RefreshPlaylist playlist_id) w = Ret tt w'
      /\ playlists_listed l p user_playlists_info_ w w'
      /\ items w' !! p
         = Some {| item_text := item_text pit;
                   item_rows :=
                     item_rows pit
                     ++ (RowItem <$> seq (next_item w) (length l)) |}
      /\ (forall j, (j < next_item w)%nat -> j <> p ->
                    items w' !! j = items w !! j)
      /\ (forall j, (j < length (network w))%nat ->
                    closures w' !! j = closures w !! j)
      /\ pending_retrieve_playlists_ (service w)
         ⊆ pending_retrieve_playlists_ (service w')
      /\ (forall id, id ∉ listed_id <$> l ->
                     user_playlists_info_ (service w') !! id
                     = user_playlists_info_ (service w) !! id)
      /\ task_manager w' = task_manager w
      /\ task_user_playlists_id_ (service w')
         = task_user_playlists_id_ (service w)
      /\ emitted w' = emitted w.
Proof.
  induction l as [|a l IH]; intros w p pit Hp Hpit Hlt.
  - exists w. cbn [for_each]. rewrite run_mret. unfold playlists_listed.
    cbn [length seq fmap list_fmap]. rewrite !app_nil_r.
    destruct pit as [text rows]. cbn [item_text item_rows].
    split_and!; try reflexivity; try done.
    rewrite Hpit. cbn. now rewrite app_nil_r.
  - match goal with
    | |- context [for_each _ ?b] => set (body := b) in *
    end.
    eassert (E1 : body a w = Ret tt _).
    { unfold body. cbv zeta. unfold CreatePlaylistItem.
      rewrite bind_new_QStandardItem, bind_gets. fields. rewrite Hp.
      erewrite bind_appendRow
        by (fields; rewrite lookup_insert_ne by lia; exact Hpit).
      rewrite bind_modify, run_RefreshPlaylist. fields. reflexivity. }
    match type of E1 with _ = Ret _ ?W => set (w1 := W) in * end.
    destruct (IH w1 p {| item_text := item_text pit;
                         item_rows := item_rows pit ++ [RowItem (next_item w)] |})
      as (w' & E & (L1 & L2 & L3) & I1 & I2 & I3 & I4 & I5 & I6 & I7 & I8).
    { exact Hp. }
    { unfold w1; fields. apply lookup_insert_eq. }
    { unfold w1; fields. lia. }
    assert (N1 : next_item w1 = S (next_item w)) by reflexivity.
    assert (T1 : access_token_ (service w1) = access_token_ (service w))
      by reflexivity.
    assert (W1 : network w1
                 = network w
                   ++ [playlist_request (listed_id a)
                         (access_token_ (service w))]) by reflexivity.
    assert (C1 : closures w1
                 = <[length (network w) :=
                       Slot_PlaylistRetrieved (listed_id a)
                         (next_pending_playlist_id_ (service w))]>
                     (closures w)) by reflexivity.
    assert (P1 : pending_retrieve_playlists_ (service w1)
                 = {[next_pending_playlist_id_ (service w)]}
                   ∪ pending_retrieve_playlists_ (service w)) by reflexivity.
    assert (U1 : user_playlists_info_ (service w1)
                 = <[listed_id a :=
                       {| id_ := listed_id a; name_ := listed_name a;
                          item_ := Some (next_item w); songs_ids_ := [] |}]>
                     (user_playlists_info_ (service w))) by reflexivity.
    assert (S1 : items w1
                 = <[p := {| item_text := item_text pit;
                             item_rows :=
                               item_rows pit ++ [RowItem (next_item w)] |}]>
                     (<[next_item w :=
                          {| item_text := listed_name a; item_rows := [] |}]>
                        (items w))) by reflexivity.
    assert (M1 : task_manager w1 = task_manager w) by reflexivity.
    assert (K1 : task_user_playlists_id_ (service w1)
                 = task_user_playlists_id_ (service w)) by reflexivity.
    assert (Q1 : emitted w1 = emitted w) by reflexivity.
    clearbody w1. cbn [item_text item_rows] in I1.
    rewrite N1 in *. rewrite T1 in L1.
    exists w'. split_and!.
    + cbn [for_each]. now rewrite (bind_Ret _ _ _ _ _ E1).
    + unfold playlists_listed. split_and!.
      * rewrite L1, W1, <- app_assoc. reflexivity.
      * rewrite I1, Hpit. cbn. now rewrite <- app_assoc.
      * intros [|k] item Hk.
        -- injection Hk as <-. rewrite !Nat.add_0_r. split_and!.
           ++ rewrite I2, S1 by lia.
              rewrite lookup_insert_ne by lia. apply lookup_insert_eq.
           ++ exists (next_pending_playlist_id_ (service w)). split.
              ** rewrite I3 by (rewrite W1, length_app; simpl; lia).
                 rewrite C1. apply lookup_insert_eq.
              ** apply I4. rewrite P1. apply elem_of_union. left.
                 now apply elem_of_singleton.
           ++ cbn [drop]. intros Hn. rewrite (I5 _ Hn), U1.
              apply lookup_insert_eq.
        -- cbn in Hk. destruct (L3 k item Hk) as (A1 & (rid & A2 & A3) & A4).
           rewrite !Nat.add_succ_r. split_and!.
           ++ exact A1.
           ++ exists rid. split; [|exact A3]. rewrite <- A2. f_equal.
              rewrite W1, length_app. simpl. lia.
           ++ exact A4.
    + rewrite I1. cbn [length seq fmap list_fmap]. now rewrite <- app_assoc.
    + intros j Hj Hjp. rewrite I2, S1 by lia.
      now rewrite !lookup_insert_ne by lia.
    + intros j Hj. rewrite I3 by (rewrite W1, length_app; simpl; lia).
      rewrite C1. now rewrite lookup_insert_ne by lia.
    + intros x Hx. apply I4. rewrite P1. apply elem_of_union. now right.
    + intros id Hid. cbn [fmap list_fmap] in Hid.
      apply not_elem_of_cons in Hid as [Hne Hid].
      rewrite (I5 _ Hid), U1. now rewrite lookup_insert_ne by congruence.
    + congruence.
    + congruence.
    + congruence.
Qed.
(** The loop of [FeaturedPlaylistsRetrieved]. *)
Lemma for_each_featured_playlist (l : QVariantList) :
  forall (w : World) (p : nat) (pit : QStandardItem),
    featured_playlists_ (service w) = Some p ->
    items w !! p = Some pit ->
    (p < next_item w)%nat ->
    exists w',
      for_each l
        (fun item =>
           let playlist_map := toMap item in
           let playlist_id := toInt (value playlist_map "id") in
           let playlist_name := toString (value playlist_map "name") in
           playlist_item ← CreatePlaylistItem playlist_name playlist_id;
           modify (on_service (fun q =>
             set_featured_playlists_info_
               (<[playlist_id :=
                    {| id_ := playlist_id; name_ := playlist_name;
                       item_ := Some playlist_item; songs_ids_ := [] |}]>
                  (featured_playlists_info_ q)) q));;
           featured ← gets (fun w => featured_playlists_ (service w));
           appendRow featured (RowItem playlist_item);;
           RefreshPlaylist playlist_id) w = Ret tt w'
      /\ playlists_listed l p featured_playlists_info_ w w'
      /\ items w' !! p
         = Some {| item_text := item_text pit;
                   item_rows :=
                     item_rows pit
                     ++ (RowItem <$> seq (next_item w) (length l)) |}
      /\ (forall j, (j < next_item w)%nat -> j <> p ->
                    items w' !! j = items w !! j)
      /\ (forall j, (j < length (network w))%nat ->
                    closures w' !! j = closures w !! j)
      /\ pending_retrieve_playlists_ (service w)
         ⊆ pending_retrieve_playlists_ (service w')
      /\ (forall id, id ∉ listed_id <$> l ->
                     featured_playlists_info_ (service w') !! id
                     = featured_playlists_info_ (service w) !! id)
      /\ task_manager w' = task_manager w
      /\ task_featured_playlists_id_ (service w')
         = task_featured_playlists_id_ (service w)
      /\ emitted w' = emitted w.
Proof.
  induction l as [|a l IH]; intros w p pit Hp Hpit Hlt.
  - exists w. cbn [for_each]. rewrite run_mret. unfold playlists_listed.
    cbn [length seq fmap list_fmap]. rewrite !app_nil_r.
    destruct pit as [text rows]. cbn [item_text item_rows].
    split_and!; try reflexivity; try done.
    rewrite Hpit. cbn. now rewrite app_nil_r.
  - match goal with
    | |- context [for_each _ ?b] => set (body := b) in *
    end.
    eassert (E1 : body a w = Ret tt _).
    { unfold body. cbv zeta. unfold CreatePlaylistItem.
      rewrite bind_new_QStandardItem, bind_modify, bind_gets. fields.
      rewrite Hp.
      erewrite bind_appendRow
        by (fields; rewrite lookup_insert_ne by lia; exact Hpit).
      rewrite run_RefreshPlaylist. fields. reflexivity. }
    match type of E1 with _ = Ret _ ?W => set (w1 := W) in * end.
    destruct (IH w1 p {| item_text := item_text pit;
                         item_rows := item_rows pit ++ [RowItem (next_item w)] |})
      as (w' & E & (L1 & L2 & L3) & I1 & I2 & I3 & I4 & I5 & I6 & I7 & I8).
    { exact Hp. }
    { unfold w1; fields. apply lookup_insert_eq. }
    { unfold w1; fields. lia. }
    assert (N1 : next_item w1 = S (next_item w)) by reflexivity.
    assert (T1 : access_token_ (service w1) = access_token_ (service w))
      by reflexivity.
    assert (W1 : network w1
                 = network w
                   ++ [playlist_request (listed_id a)
                         (access_token_ (service w))]) by reflexivity.
    assert (C1 : closures w1
                 = <[length (network w) :=
                       Slot_PlaylistRetrieved (listed_id a)
                         (next_pending_playlist_id_ (service w))]>
                     (closures w)) by reflexivity.
    assert (P1 : pending_retrieve_playlists_ (service w1)
                 = {[next_pending_playlist_id_ (service w)]}
                   ∪ pending_retrieve_playlists_ (service w)) by reflexivity.
    assert (U1 : featured_playlists_info_ (service w1)
                 = <[listed_id a :=
                       {| id_ := listed_id a; name_ := listed_name a;
                          item_ := Some (next_item w); songs_ids_ := [] |}]>
                     (featured_playlists_info_ (service w))) by reflexivity.
    assert (S1 : items w1
                 = <[p := {| item_text := item_text pit;
                             item_rows :=
                               item_rows pit ++ [RowItem (next_item w)] |}]>
                     (<[next_item w :=
                          {| item_text := listed_name a; item_rows := [] |}]>
                        (items w))) by reflexivity.
    assert (M1 : task_manager w1 = task_manager w) by reflexivity.
    assert (K1 : task_featured_playlists_id_ (service w1)
                 = task_featured_playlists_id_ (service w)) by reflexivity.
    assert (Q1 : emitted w1 = emitted w) by reflexivity.
    clearbody w1. cbn [item_text item_rows] in I1.
    rewrite N1 in *. rewrite T1 in L1.
    exists w'. split_and!.
    + cbn [for_each]. now rewrite (bind_Ret _ _ _ _ _ E1).
    + unfold playlists_listed. split_and!.
      * rewrite L1, W1, <- app_assoc. reflexivity.
      * rewrite I1, Hpit. cbn. now rewrite <- app_assoc.
      * intros [|k] item Hk.
        -- injection Hk as <-. rewrite !Nat.add_0_r. split_and!.
           ++ rewrite I2, S1 by lia.
              rewrite lookup_insert_ne by lia. apply lookup_insert_eq.
           ++ exists (next_pending_playlist_id_ (service w)). split.
              ** rewrite I3 by (rewrite W1, length_app; simpl; lia).
                 rewrite C1. apply lookup_insert_eq.
              ** apply I4. rewrite P1. apply elem_of_union. left.
                 now apply elem_of_singleton.
           ++ cbn [drop]. intros Hn. rewrite (I5 _ Hn), U1.
              apply lookup_insert_eq.
        -- cbn in Hk. destruct (L3 k item Hk) as (A1 & (rid & A2 & A3) & A4).
           rewrite !Nat.add_succ_r. split_and!.
           ++ exact A1.
           ++ exists rid. split; [|exact A3]. rewrite <- A2. f_equal.
              rewrite W1, length_app. simpl. lia.
           ++ exact A4.
    + rewrite I1. cbn [length seq fmap list_fmap]. now rewrite <- app_assoc.
    + intros j Hj Hjp. rewrite I2, S1 by lia.
      now rewrite !lookup_insert_ne by lia.
    + intros j Hj. rewrite I3 by (rewrite W1, length_app; simpl; lia).
      rewrite C1. now rewrite lookup_insert_ne by lia.
    + intros x Hx. apply I4. rewrite P1. apply elem_of_union. now right.
    + intros id Hid. cbn [fmap list_fmap] in Hid.
      apply not_elem_of_cons in Hid as [Hne Hid].
      rewrite (I5 _ Hid), U1. now rewrite lookup_insert_ne by congruence.
    + congruence.
    + congruence.
    + congruence.
Qed.

Lemma playlists_listed_ext (l : QVariantList) (node : nat)
    (infos : QobuzService -> gmap Z PlaylistInfo) (w0 w w1 w' : World) :
  network w0 = network w -> service w0 = service w ->
  items w0 = items w -> next_item w0 = next_item w ->
  network w' = network w1 -> service w' = service w1 ->
  items w' = items w1 -> closures w' = closures w1 ->
  playlists_listed l node infos w0 w1 -> playlists_listed l node infos w w'.
Proof.
  unfold playlists_listed.
  intros -> -> -> -> -> -> -> ->. exact id.
Qed.

Lemma reply_reported_kept (reply : QNetworkReply) (w : World) :
  service (reply_reported reply w) = service w
  /\ items (reply_reported reply w) = items w
  /\ next_item (reply_reported reply w) = next_item w
  /\ network (reply_reported reply w) = network w
  /\ closures (reply_reported reply w) = closures w
  /\ task_manager (reply_reported reply w) = task_manager w.
Proof.
  unfold reply_reported.
  now destruct (HttpStatusCodeAttribute reply =? NO_ERROR).
Qed.

(** X30: for a reply whose status is not 401, [UserPlaylistsRetrieved]
    and [FeaturedPlaylistsRetrieved] list every playlist of the reply
    below their node: in the order of the reply, each playlist gets a
    new item with its name, an entry with that item and no song in the
    map of the function, and one request to /playlist/get for its
    songs, bound to [PlaylistRetrieved] with a request that is pending;
    then the task of the retrieval is finished.  A reply that is an
    error lists no playlist. *)
Theorem playlists_retrieved_listed (fuel : nat) (reply : QNetworkReply)
    (w : World) :
  let l := listed_playlists reply in
  HttpStatusCodeAttribute reply <> UNAUTHORIZED ->
  (HttpStatusCodeAttribute reply <> NO_ERROR -> l = [])
  /\ (forall p,
        user_playlists_ (service w) = Some p ->
        is_Some (items w !! p) ->
        (p < next_item w)%nat ->
        exists w',
          UserPlaylistsRetrieved WaitForSignal fuel reply w = Ret tt w'
          /\ playlists_listed l p user_playlists_info_ w w'
          /\ ContainsTask (task_user_playlists_id_ (service w)) w' = false)
  /\ (forall p,
        featured_playlists_ (service w) = Some p ->
        is_Some (items w !! p) ->
        (p < next_item w)%nat ->
        exists w',
          FeaturedPlaylistsRetrieved WaitForSignal fuel reply w = Ret tt w'
          /\ playlists_listed l p featured_playlists_info_ w w'
          /\ ContainsTask (task_featured_playlists_id_ (service w)) w'
             = false).
Proof.
  intros l H401.
  destruct (reply_reported_kept reply w) as (R1 & R2 & R3 & R4 & R5 & R6).
  split_and!.
  - intros H200. unfold l, listed_playlists.
    now rewrite (reply_result_error _ H200).
  - intros p Hp [pit Hpit] Hlt.
    destruct (for_each_user_playlist l (reply_reported reply w) p pit)
      as (w1 & E1 & L & _ & _ & _ & _ & _ & M1 & K1 & _).
    { now rewrite R1. }
    { now rewrite R2. }
    { now rewrite R3. }
    destruct (SetTaskFinished_done (task_user_playlists_id_ (service w)) w1)
      as (w' & E2 & T & _ & S2 & _ & I2 & _ & N2 & C2 & _).
    exists w'. split_and!.
    + unfold UserPlaylistsRetrieved.
      rewrite (bind_Ret _ _ _ _ _
                 (ExtractResult_answered WaitForSignal fuel reply w H401)).
      fold (listed_playlists reply). fold l.
      rewrite (bind_Ret _ _ _ _ _ E1), bind_gets.
      rewrite K1, R1. exact E2.
    + now apply (playlists_listed_ext l p _ (reply_reported reply w) w w1 w').
    + exact T.
  - intros p Hp [pit Hpit] Hlt.
    destruct (for_each_featured_playlist l (reply_reported reply w) p pit)
      as (w1 & E1 & L & _ & _ & _ & _ & _ & M1 & K1 & _).
    { now rewrite R1. }
    { now rewrite R2. }
    { now rewrite R3. }
    destruct (SetTaskFinished_done
                (task_featured_playlists_id_ (service w)) w1)
      as (w' & E2 & T & _ & S2 & _ & I2 & _ & N2 & C2 & _).
    exists w'. split_and!.
    + unfold FeaturedPlaylistsRetrieved.
      rewrite (bind_Ret _ _ _ _ _
                 (ExtractResult_answered WaitForSignal fuel reply w H401)).
      fold (listed_playlists reply). fold l.
      rewrite (bind_Ret _ _ _ _ _ E1), bind_gets.
      rewrite K1, R1. exact E2.
    + now apply (playlists_listed_ext l p _ (reply_reported reply w) w w1 w').
    + exact T.
Qed.
End PlaylistsListed.

(** *** Sample runs *)

(** [run] settles a fact about a sample run by running it. *)
Ltac run := vm_compute; first [reflexivity | discriminate | lia].


Lemma ExtractSong_id_round_trip_witness :
  url (ExtractSong streamable_song) = {| scheme := "qobuz"; path := "7" |}
  /\ ExtractSongIdFromUrl (url (ExtractSong streamable_song)) = 7.
Proof.
  destruct (ExtractSong_id_round_trip streamable_song 7) as (U & _ & I);
    [run..|].
  split; [exact U | apply I; unfold is_int; lia].
Defined.

Lemma SimpleSearchFinished_error_witness :
  exists w',
    call_slot (processEvents 0) 0 (Slot_SimpleSearchFinished 0)
      (server_error 3) (after (SearchAsync 5 "bach") idle) = Ret tt w'
    /\ pending_searches_ (search_provider w') !! 0 = None
    /\ drop (length (emitted idle)) (emitted w')
       = [ReplyError 500; SimpleSearchResults 0 []; ResultsAvailable 5 [];
          SearchFinished 5].
Proof.
  destruct (SimpleSearchFinished_error_answers_caller (processEvents 0) 0
              (server_error 3) 0 {| orig_id_ := 5; tokens_ := ["bach"] |}
              (after (SearchAsync 5 "bach") idle))
    as (w' & l & E & P & _); [run..|].
  exists w'. split; [exact E|]. split.
  - rewrite P. apply lookup_delete_eq.
  - assert (w' = after (call_slot (processEvents 0) 0
                          (Slot_SimpleSearchFinished 0) (server_error 3))
                   (after (SearchAsync 5 "bach") idle)) as ->
      by (unfold after at 1; now rewrite E).
    run.
Defined.

Lemma StartLoading_refused_witness :
  exists w2,
    StartLoading (processEvents 1) 1 {| scheme := "qobuz"; path := "7" |}
      (set_event_queue [EvReplyFinished (server_error 3)] idle)
    = Ret ({| scheme := "qobuz"; path := "7" |}, "") w2
    /\ last (emitted w2) = Some (ReplyError 500).
Proof.
  pose (w := set_event_queue [EvReplyFinished (server_error 3)] idle).
  pose (w2 := after (processEvents 1 (SIGNAL_finished 3))
                (streaming_request_sent "7" w)).
  destruct (StartLoading_hands_on_reply_url (processEvents 1) 1
              {| scheme := "qobuz"; path := "7" |} w w2 (server_error 3))
    as (_ & _ & T); [run..|].
  exists (set_emitted (emitted w2 ++ [ReplyError 500]) w2). split.
  - apply T. discriminate.
  - run.
Defined.

Lemma EnsureItemsCreated_creates_witness :
  exists w1,
    EnsureItemsCreated (after CreateRootItem constructed) = Ret tt w1
    /\ item_rows <$> items w1 !! 0%nat
       = Some [RowItem 1; RowItem 2; RowItem 3; RowItem 4]
    /\ length (network w1) = 3%nat.
Proof.
  destruct (EnsureItemsCreated_creates (after CreateRootItem constructed)
              0%nat {| item_text := "Qobuz"; item_rows := [] |})
    as (w1 & E & _ & _ & _ & _ & I & _ & _ & _ & _ & N & _); [run..|].
  exists w1. split; [exact E|]. split.
  - rewrite I. reflexivity.
  - rewrite N. reflexivity.
Defined.

Lemma Logout_stays_logged_out_witness :
  Logout (processEvents 9) 9 logging_out_quietly = Ret tt logged_out
  /\ IsLoggedIn logged_out = false
  /\ LoadCredentialsIfEmpty logged_out = Ret tt logged_out
  /\ EnsureItemsCreated logged_out = Ret tt logged_out.
Proof.
  assert (E : Logout (processEvents 9) 9 logging_out_quietly
              = Ret tt logged_out) by run.
  destruct (Logout_stays_logged_out (processEvents 9) 9 logging_out_quietly
              logged_out E) as (A & _ & B & C).
  now split_and!.
Defined.

Lemma LogoutClicked_clears_settings_witness :
  exists w',
    LogoutClicked (processEvents 9) 9
      (set_settings (<["username" := VString "user"]>
                       (settings logging_out_quietly)) logging_out_quietly)
    = Ret tt w'
    /\ IsLoggedIn w' = false
    /\ settings w' !! "username" = None.
Proof.
  pose (w := set_settings (<["username" := VString "user"]>
                             (settings logging_out_quietly))
               logging_out_quietly).
  pose (w' := after (LogoutClicked (processEvents 9) 9) w).
  destruct (LogoutClicked_clears_settings (processEvents 9) 9 w w')
    as (L & F & _); [run|].
  exists w'. split; [run|]. split; [exact L|].
  rewrite Forall_forall in F. apply F. apply list_elem_of_In. simpl. tauto.
Defined.

Lemma ConnectFinished_logged_in_witness :
  exists w',
    ConnectFinished (processEvents 0) 0 (login_reply 4)
      (after (Connect "user" "pass") logged_out) = Ret tt w'
    /\ IsLoggedIn w' = true
    /\ access_token_ (service w') = "s3cr3t"
    /\ settings w' !! "user_id" = Some (VString "42").
Proof.
  pose (w := after (Connect "user" "pass") logged_out).
  pose (w' := after (ConnectFinished (processEvents 0) 0 (login_reply 4)) w).
  assert (E : ConnectFinished (processEvents 0) 0 (login_reply 4) w
              = Ret tt w') by run.
  destruct (ConnectFinished_logged_in_iff_premium (processEvents 0) 0
              (login_reply 4) w w' E) as (Iff & Facts).
  assert (L : IsLoggedIn w' = true) by (apply Iff; split; run).
  destruct (Facts L) as (_ & A & _ & _ & U & _).
  exists w'. split_and!; [exact E | exact L | exact A | exact U].
Defined.

Lemma LoginClicked_logs_in_witness :
  exists w1 w2,
    LoginClicked "user" "pass" logged_out = Ret tt w1
    /\ deliver (processEvents 0) 0 (EvReplyFinished (login_reply 4)) w1
       = Ret tt w2
    /\ IsLoggedIn w2 = true
    /\ access_token_ (service w2) = "s3cr3t"
    /\ length (network w2) = 8%nat.
Proof.
  destruct (proj2 (LoginClicked_logs_in (processEvents 0) 0 "user" "pass"
                     logged_out)
              (login_reply 4) 0%nat {| item_text := "Qobuz"; item_rows := [] |})
    as (w1 & w2 & E1 & N1 & _ & E2 & L & T & _ & _ & _ & _ & N2); [run..|].
  exists w1, w2. split_and!; [exact E1 | exact E2 | exact L | exact T |].
  rewrite N2, N1. reflexivity.
Defined.

Lemma UserFavoritesRetrieved_replaces_rows_witness :
  exists w',
    UserFavoritesRetrieved (processEvents 0) 0
      (ok 1 (tracks [track 7 "Aria"; track 8 "So What"])) started = Ret tt w'
    /\ length <$> (item_rows <$> items w' !! 2%nat) = Some 2%nat
    /\ ContainsTask 2 w' = false.
Proof.
  destruct (UserFavoritesRetrieved_replaces_rows (processEvents 0) 0
              (ok 1 (tracks [track 7 "Aria"; track 8 "So What"])) 2%nat
              {| item_text := "Favorites"; item_rows := [] |} started)
    as (w' & E & I & T & _); [run..|].
  exists w'. split_and!; [exact E | | exact T].
  rewrite I, lookup_insert_eq. reflexivity.
Defined.

Lemma SearchFinished_appends_rows_witness :
  exists w',
    SearchFinished_ (processEvents 0) 0 (ok 3 (tracks [track 8 "Air"]))
      searching = Ret tt w'
    /\ length <$> (item_rows <$> items w' !! 1%nat) = Some 1%nat
    /\ task_search_id_ (service w') = 0.
Proof.
  destruct (SearchFinished_appends_rows (processEvents 0) 0
              (ok 3 (tracks [track 8 "Air"])) 1%nat
              {| item_text := "Search results"; item_rows := [] |} searching)
    as (w' & E & I & _ & T & _); [run..|].
  exists w'. split_and!; [exact E | | exact T].
  rewrite I, lookup_insert_eq. reflexivity.
Defined.

Lemma favorites_change_witness :
  exists w',
    UserFavoriteSongAdded (processEvents 0) 0
      (ok 3 (VMap [("status", VString "success")])) 4
      (after (AddUserFavoriteSong 7) idle) = Ret tt w'
    /\ ContainsTask 4 (after (AddUserFavoriteSong 7) idle) = true
    /\ ContainsTask 4 w' = false
    /\ length (network w') = 5%nat.
Proof.
  destruct (favorites_change_finishes_task_on_success (processEvents 0) 0
              (ok 3 (VMap [("status", VString "success")])) 4
              (after (AddUserFavoriteSong 7) idle))
    as ((w' & E & T & N & _) & _); [run|].
  exists w'. split_and!; [exact E | run | exact T |].
  rewrite N. reflexivity.
Defined.

Lemma RefreshPlaylist_round_trip_witness :
  exists w1 w2,
    RefreshPlaylist 11 browsing = Ret tt w1
    /\ deliver (processEvents 0) 0
         (EvReplyFinished (ok 4 (tracks [track 9 "Blue in Green"]))) w1
       = Ret tt w2
    /\ user_playlists_info_ (service w2) !! 11
       = Some {| id_ := 11; name_ := "Jazz"; item_ := Some 5%nat;
                 songs_ids_ := [9] |}
    /\ last (emitted w2) = Some PlaylistRetrieved.
Proof.
  eassert (I : items browsing !! 5%nat = Some _) by (vm_compute; reflexivity).
  match type of I with _ = Some ?it => set (jazz := it) in I end.
  destruct (RefreshPlaylist_round_trip (processEvents 0) 0
              (ok 4 (tracks [track 9 "Blue in Green"])) 11
              {| id_ := 11; name_ := "Jazz"; item_ := Some 5%nat;
                 songs_ids_ := [8; 9] |} 5%nat jazz browsing)
    as (w1 & w2 & E1 & _ & _ & _ & E2 & _ & _ & P & L);
    [run | run | run | run | exact I |].
  exists w1, w2. split_and!; [exact E1 | exact E2 | exact P | exact L].
Defined.

Lemma PlaylistSongsSet_refreshes_witness :
  exists w',
    PlaylistSongsSet (processEvents 0) 0 (ok 4 (VMap [("id", VInt 11)])) 11 4
      (after (SetPlaylistSongs 11 [8]) browsing) = Ret tt w'
    /\ ContainsTask 4 (after (SetPlaylistSongs 11 [8]) browsing) = true
    /\ ContainsTask 4 w' = false
    /\ length (network w') = 6%nat.
Proof.
  destruct (PlaylistSongsSet_refreshes_on_success (processEvents 0) 0
              (ok 4 (VMap [("id", VInt 11)])) 11 4
              (after (SetPlaylistSongs 11 [8]) browsing))
    as ((w' & E & T & N & _) & _); [run|].
  exists w'. split_and!; [exact E | run | exact T |].
  rewrite N. reflexivity.
Defined.

Lemma typing_sends_last_text_witness :
  exists w1 w2,
    for_each (EvTextChanged <$> ["b"; "ba"; "bach"])
      (deliver (processEvents 0) 0) idle = Ret tt w1
    /\ network w1 = network idle
    /\ deliver (processEvents 0) 0 EvSearchDelayTimeout w1 = Ret tt w2
    /\ network w2 = network idle ++ [search_request 100 "bach" "token"].
Proof.
  destruct (typing_sends_last_text (processEvents 0) 0 ["b"; "ba"] "bach"
              idle)
    as (w1 & w2 & E1 & N1 & _ & _ & E2 & N2 & _).
  { intros i Hi. vm_compute in Hi. injection Hi as <-. vm_compute. eauto. }
  exists w1, w2. split_and!; [exact E1 | exact N1 | exact E2 | exact N2].
Defined.

Lemma playlist_created_then_deleted_witness :
  exists w0 w1 w2 w3,
    CreateNewPlaylist "Blues" idle
    = Ret (Some (3%nat, Slot_NewPlaylistCreated "Blues")) w0
    /\ call_playlist_slot (processEvents 0) 0 (Slot_NewPlaylistCreated "Blues")
         (ok 3 (VMap [("id", VInt 12); ("name", VString "Blues")])) w0
       = Ret tt w1
    /\ user_playlists_info_ (service w1) !! 12
       = Some {| id_ := 12; name_ := "Blues"; item_ := Some 5%nat;
                 songs_ids_ := [] |}
    /\ DeletePlaylist true 12 w1
       = Ret (Some (4%nat, Slot_PlaylistDeleted 12)) w2
    /\ call_playlist_slot (processEvents 0) 0 (Slot_PlaylistDeleted 12)
         (ok 4 (VMap [("status", VString "success")])) w2 = Ret tt w3
    /\ user_playlists_info_ (service w3) = user_playlists_info_ (service idle)
    /\ items w3 !! 4%nat
       = Some {| item_text := "Playlists"; item_rows := [] |}.
Proof.
  destruct (playlist_created_then_deleted (processEvents 0) 0 "Blues"
              (ok 3 (VMap [("id", VInt 12); ("name", VString "Blues")]))
              (ok 4 (VMap [("status", VString "success")])) 4%nat
              {| item_text := "Playlists"; item_rows := [] |} idle)
    as (w0 & w1 & w2 & w3 & E0 & N0 & E1 & U1 & _ & _ & E2 & _ & E3 & U3 & I3);
    [run | run | run | run | run | run | run | run
    | apply not_elem_of_nil | run |].
  rewrite N0 in E2. exists w0, w1, w2, w3.
  split_and!; [exact E0 | exact E1 | exact U1 | exact E2 | exact E3
              | exact U3 | exact I3].
Defined.

Lemma playlist_renamed_witness :
  exists w0 w1,
    RenamePlaylist (fun _ => "Cool Jazz") 11 browsing
    = Ret (Some (4%nat, Slot_PlaylistRenamed 11 "Cool Jazz")) w0
    /\ call_playlist_slot (processEvents 0) 0
         (Slot_PlaylistRenamed 11 "Cool Jazz")
         (ok 4 (VMap [("id", VInt 11)])) w0 = Ret tt w1
    /\ name_ <$> user_playlists_info_ (service w1) !! 11 = Some "Cool Jazz"
    /\ item_text <$> items w1 !! 5%nat = Some "Cool Jazz".
Proof.
  eassert (I : items browsing !! 5%nat = Some _) by (vm_compute; reflexivity).
  match type of I with _ = Some ?it => set (jazz := it) in I end.
  destruct (playlist_renamed (processEvents 0) 0 (fun _ => "Cool Jazz")
              (ok 4 (VMap [("id", VInt 11)])) 11
              {| id_ := 11; name_ := "Jazz"; item_ := Some 5%nat;
                 songs_ids_ := [8; 9] |} 5%nat jazz browsing)
    as (w0 & w1 & E0 & _ & E1 & U & I1);
    [run | run | exact I | run | run |].
  exists w0, w1. split_and!; [exact E0 | exact E1 | |].
  - rewrite U. reflexivity.
  - rewrite I1. reflexivity.
Defined.

Lemma playlists_retrieved_listed_witness :
  exists w',
    UserPlaylistsRetrieved (processEvents 0) 0
      (ok 2 (playlists [VMap [("id", VInt 11); ("name", VString "Jazz")];
                        VMap [("id", VInt 12); ("name", VString "Blues")]]))
      started = Ret tt w'
    /\ item_rows <$> items w' !! 4%nat = Some [RowItem 5; RowItem 6]
    /\ items w' !! 6%nat
       = Some {| item_text := "Blues"; item_rows := [] |}
    /\ length (network w') = 5%nat
    /\ ContainsTask 3 w' = false.
Proof.
  destruct (playlists_retrieved_listed (processEvents 0) 0
              (ok 2 (playlists
                       [VMap [("id", VInt 11); ("name", VString "Jazz")];
                        VMap [("id", VInt 12); ("name", VString "Blues")]]))
              started) as (_ & U & _); [run|].
  destruct (U 4%nat) as (w' & E & (L1 & L2 & L3) & T).
  { run. }
  { eexists. vm_compute. reflexivity. }
  { run. }
  exists w'. split_and!; [exact E | | | | exact T].
  - rewrite L2. reflexivity.
  - exact (proj1 (L3 1%nat
                     (VMap [("id", VInt 12); ("name", VString "Blues")])
                     eq_refl)).
  - rewrite L1. reflexivity.
Defined.
